(** * ai-project: LLM providers and the [useChat] conversation controller

    A shallow embedding of

    - [src/types/llm.ts] and [src/types/chat.ts] (the data model),
    - [src/services/providers/google-genai.provider.ts]: the Google GenAI
      provider that loads a system prompt, its copy without the prompt,
      and the OpenAI provider,
    - [src/services/llm-registry.ts] (registry and environment factory),
    - the [useChat] hook (message list, send / retry / clear, chunk merge),
    - [src/components/chat/ChatInput.tsx] (attachments and submitting).

    JavaScript strings are modelled as [string]: sequences of code units
    below 256 (ASCII and Latin-1).  The string built-ins used by the code
    ([trim], [toLowerCase], [split], [join], [startsWith], [slice]) are
    written out on that type as they act on such code units; texts with
    code units from 256 on are outside the model.

    Asynchronous code is modelled by explicit state passing.  A call of
    [sendMessage] or [retryLastMessage] runs to its first [await]; there
    it is suspended: its locals are kept in the hook state under the
    number of the stream it consumes, and an event of that stream resumes
    it.  [sendMessage] and [retryLastMessage] read the [messages] and
    [isLoading] of the render that created them; runs of events take
    each call through the latest render, runs of the component let
    renders and events interleave freely.  The vendor SDK, [fetch],
    [JSON.parse], [generateId] and the clock are inputs. *)

From Stdlib Require Import String Ascii List Bool Arith ZArith Lia.
Import ListNotations.

Local Open Scope string_scope.
Local Open Scope nat_scope.
Local Open Scope list_scope.

(* ===================================================================== *)
(** ** JavaScript values and string built-ins                             *)
(* ===================================================================== *)

Module Js.

(** A thrown value: an [Error] instance with its [name] and [message],
    or any other value. *)
Inductive Thrown : Type :=
| ErrorObject (name message : string)
| NonError (value : string).

(** [new Error(message)] *)
Definition newError (message : string) : Thrown :=
  ErrorObject "Error" message.

(** A call that either throws or returns. *)
Definition Result (A : Type) : Type := (Thrown + A)%type.

(** Truthiness of a string: every string but the empty one. *)
Definition truthy (s : string) : bool :=
  match s with
  | EmptyString => false
  | String _ _ => true
  end.

(** Truthiness of an optional string ([undefined] is falsy). *)
Definition truthy_opt (s : option string) : bool :=
  match s with
  | None => false
  | Some s => truthy s
  end.

(** An object reference is always truthy. *)
Definition truthy_ref {A : Type} (_ : A) : bool := true.

(** [a || b] on strings. *)
Definition or_else (a : option string) (b : string) : string :=
  match a with
  | Some s => if truthy s then s else b
  | None => b
  end.

Definition LF : ascii := ascii_of_nat 10.

(** White space and line terminators of [String.prototype.trim] among
    the code units below 256: TAB, LF, VT, FF, CR, space and the
    no-break space U+00A0. *)
Definition is_whitespace (c : ascii) : bool :=
  let n := nat_of_ascii c in
  ((9 <=? n) && (n <=? 13)) || (n =? 32) || (n =? 160).

Fixpoint trimStart (s : string) : string :=
  match s with
  | EmptyString => EmptyString
  | String c s' => if is_whitespace c then trimStart s' else s
  end.

Fixpoint trimEnd (s : string) : string :=
  match s with
  | EmptyString => EmptyString
  | String c s' =>
      match trimEnd s' with
      | EmptyString => if is_whitespace c then EmptyString else String c EmptyString
      | t => String c t
      end
  end.

Definition trim (s : string) : string := trimEnd (trimStart s).

(** [toLowerCase] on one code unit below 256: the letters A-Z, and the
    Latin-1 capitals U+00C0-U+00DE without the sign U+00D7, move up by
    32; every other one is its own lower case. *)
Definition lower_char (c : ascii) : ascii :=
  let n := nat_of_ascii c in
  if ((65 <=? n) && (n <=? 90))
     || ((192 <=? n) && (n <=? 222) && negb (n =? 215))
  then ascii_of_nat (n + 32) else c.

Fixpoint toLowerCase (s : string) : string :=
  match s with
  | EmptyString => EmptyString
  | String c s' => String (lower_char c) (toLowerCase s')
  end.

(** [s.startsWith(p)] *)
Definition startsWith (p s : string) : bool := String.prefix p s.

(** [s.slice(n)] for [n >= 0]. *)
Fixpoint slice (n : nat) (s : string) : string :=
  match n, s with
  | O, _ => s
  | S n', String _ s' => slice n' s'
  | S _, EmptyString => EmptyString
  end.

(** [s.split("\n")]: never empty, the last element is the text after
    the last line feed. *)
Fixpoint split_lines (s : string) : list string :=
  match s with
  | EmptyString => [EmptyString]
  | String c s' =>
      if Ascii.eqb c LF then EmptyString :: split_lines s'
      else match split_lines s' with
           | [] => [String c EmptyString]
           | l :: ls => String c l :: ls
           end
  end.

(** [xs.join(sep)] *)
Fixpoint join (sep : string) (xs : list string) : string :=
  match xs with
  | [] => EmptyString
  | [x] => x
  | x :: rest => (x ++ sep ++ join sep rest)%string
  end.

(** [lines.pop()] as the pair of the popped element and what is left. *)
Definition pop (xs : list string) : option string * list string :=
  match xs with
  | [] => (None, [])
  | _ => (Some (last xs EmptyString), removelast xs)
  end.

End Js.

(* ===================================================================== *)
(** ** [src/types/llm.ts]                                                 *)
(* ===================================================================== *)

Module LLM.

Inductive Role : Type := user | assistant | system.

Definition role_name (r : Role) : string :=
  match r with
  | user => "user"
  | assistant => "assistant"
  | system => "system"
  end.

Definition is_user (r : Role) : bool :=
  match r with user => true | _ => false end.

Record Image : Type := { type : string; data : string }.

Record Message : Type :=
  { role : Role; content : string; images : option (list Image) }.

(** [LLMConfig]; a field that is [undefined] is [None]. *)
Record Config : Type :=
  { apiKey : option string; model : option string; baseURL : option string }.

End LLM.

(* ===================================================================== *)
(** ** [src/types/chat.ts]                                                *)
(* ===================================================================== *)

Module Chat.

Inductive Role : Type := user | assistant.

Definition is_user (r : Role) : bool :=
  match r with user => true | assistant => false end.

Definition is_assistant (r : Role) : bool :=
  match r with user => false | assistant => true end.

Record ImageAttachment : Type :=
  { img_id : string; name : string; type : string; size : Z;
    base64 : string; url : string }.

(** [timestamp] is the [Date] as milliseconds; [isLoading] and [images]
    are optional fields. *)
Record Message : Type :=
  { id : string; content : string; role : Role; timestamp : Z;
    isLoading : option bool; images : option (list ImageAttachment) }.

End Chat.

(* ===================================================================== *)
(** ** Streams and JSON values                                            *)
(* ===================================================================== *)

(** What an async iterator does when it is consumed to its end: the items
    it yields, then either a normal completion ([None]) or a thrown
    value. *)
Record Stream (A : Type) : Type :=
  { items : list A; ending : option Js.Thrown }.

Arguments items {A} _.
Arguments ending {A} _.

#[local] Set Warnings "-register-all".

(** The values [JSON.parse] returns; of a number only its being zero or
    not matters here, so numbers are kept as integers. *)
Inductive JSON : Type :=
| JNull
| JBool (b : bool)
| JNumber (n : Z)
| JString (s : string)
| JArray (elements : list JSON)
| JObject (members : list (string * JSON)).

Module Json.

(** [if (v)] for a value that may be [undefined]. *)
Definition truthy (v : option JSON) : bool :=
  match v with
  | None => false
  | Some JNull => false
  | Some (JBool b) => b
  | Some (JNumber n) => negb (Z.eqb n 0)
  | Some (JString s) => Js.truthy s
  | Some (JArray _) => true
  | Some (JObject _) => true
  end.

Fixpoint lookup (key : string) (members : list (string * JSON)) : option JSON :=
  match members with
  | [] => None
  | (k, v) :: rest => if String.eqb k key then Some v else lookup key rest
  end.

(** [v.key] on a value that is neither [null] nor [undefined]; no value
    but an object has one of the keys the code reads. *)
Definition get (key : string) (v : JSON) : option JSON :=
  match v with
  | JObject members => lookup key members
  | _ => None
  end.

(** [v?.key] *)
Definition get_opt (key : string) (v : option JSON) : option JSON :=
  match v with
  | None => None
  | Some JNull => None
  | Some v => get key v
  end.

(** [v?.[0]]: the first element of an array, the first character of a
    string, the member ["0"] of an object. *)
Definition first_opt (v : option JSON) : option JSON :=
  match v with
  | None => None
  | Some JNull => None
  | Some (JArray elements) => List.hd_error elements
  | Some (JString (String c _)) => Some (JString (String c EmptyString))
  | Some (JObject members) => lookup "0" members
  | Some _ => None
  end.

End Json.

(* ===================================================================== *)
(** ** Math keyword detection (both providers' [detectMathContent])       *)
(* ===================================================================== *)

Module MathRegex.

(** The alternatives of the regular expression, in source order; the
    escapes [x\^] and [\^2] stand for the literal texts [x^] and [^2]. *)
Definition mathKeywords : list string :=
  [ "equation"; "formula"; "math"; "solve"; "calculate"; "quadratic";
    "algebra"; "geometry"; "calculus"; "function"; "derivative";
    "integral"; "matrix"; "vector"; "polynomial"; "coefficient";
    "variable"; "solution"; "theorem"; "proof"; "x^"; "^2"; "sqrt";
    "fraction"; "percent" ].

(** [\w]: letters, digits and underscore. *)
Definition is_word_char (c : ascii) : bool :=
  let n := nat_of_ascii c in
  ((48 <=? n) && (n <=? 57)) || ((65 <=? n) && (n <=? 90))
  || ((97 <=? n) && (n <=? 122)) || (n =? 95).

Definition is_word (c : option ascii) : bool :=
  match c with
  | Some c => is_word_char c
  | None => false
  end.

(** [\b] between two neighbouring characters (the ends of the text count
    as non-word characters). *)
Definition word_boundary (before after : option ascii) : bool :=
  xorb (is_word before) (is_word after).

Definition head (s : string) : option ascii :=
  match s with
  | EmptyString => None
  | String c _ => Some c
  end.

Fixpoint last_char (before : option ascii) (s : string) : option ascii :=
  match s with
  | EmptyString => before
  | String c s' => last_char (Some c) s'
  end.

(** The rest of [s] after the literal [p], when [s] starts with [p]. *)
Fixpoint strip_prefix (p s : string) : option string :=
  match p, s with
  | EmptyString, _ => Some s
  | String a p', String b s' => if Ascii.eqb a b then strip_prefix p' s' else None
  | String _ _, EmptyString => None
  end.

(** One alternative followed by the closing [\b]. *)
Definition alternative_matches (before : option ascii) (s kw : string) : bool :=
  match strip_prefix kw s with
  | Some rest => word_boundary (last_char before kw) (head rest)
  | None => false
  end.

(** The whole expression matched at one position. *)
Definition matches_here (before : option ascii) (s : string) : bool :=
  word_boundary before (head s)
  && existsb (alternative_matches before s) mathKeywords.

(** The search of [RegExp.prototype.test]: some position matches. *)
Fixpoint search (before : option ascii) (s : string) : bool :=
  matches_here before s
  || match s with
     | EmptyString => false
     | String c s' => search (Some c) s'
     end.

Definition detectMathContent (text : string) : bool := search None text.

End MathRegex.

(** [messages.map((m) => m.content).join(" ").toLowerCase()] *)
Definition conversationText (messages : list LLM.Message) : string :=
  Js.toLowerCase (Js.join " " (map LLM.content messages)).

(** The [catch] of both [generateStreamingResponse]: every thrown value is
    replaced by a new [Error] that carries the provider name. *)
Definition wrapError (name : string) (error : Js.Thrown) : Js.Thrown :=
  match error with
  | Js.ErrorObject _ message => Js.newError (name ++ " Error: " ++ message)
  | Js.NonError _ => Js.newError ("Failed to generate response from " ++ name)
  end.

(* ===================================================================== *)
(** ** [GoogleGenAIProvider] (the variant that loads the system prompt)   *)
(* ===================================================================== *)

Module GoogleGenAIProvider.

Definition name : string := "google-genai".

(** The SDK client, which keeps the key it was built with. *)
Record GoogleGenAI : Type := { client_apiKey : string }.

Record t : Type := { client : GoogleGenAI; model : string }.

(** The constructor. *)
Definition new (config : LLM.Config) : Js.Result t :=
  if negb (Js.truthy_opt (LLM.apiKey config)) then
    inl (Js.newError "Google GenAI API key is required")
  else
    inr {| client := {| client_apiKey := Js.or_else (LLM.apiKey config) "" |};
           model := Js.or_else (LLM.model config) "gemma-3-27b-it" |}.

(** [!!this.client] *)
Definition isConfigured (p : t) : bool := Js.truthy_ref (client p).

Inductive Part : Type :=
| Text (text : string)
| InlineData (mimeType data : string).

(** One element of [contents]; the wire role is a plain string. *)
Record Content : Type := { role : string; parts : list Part }.

Definition imageParts (images : option (list LLM.Image)) : list Part :=
  match images with
  | Some imgs => map (fun image => InlineData (LLM.type image) (LLM.data image)) imgs
  | None => []
  end.

(** The callback of [messages.map]; [prompt] is the loaded system prompt. *)
Definition toContent (prompt : string) (msg : LLM.Message) : Content :=
  let textParts :=
    if Js.truthy (LLM.content msg) then
      [Text (if LLM.is_user (LLM.role msg)
             then prompt ++ String Js.LF (String Js.LF "User: ") ++ LLM.content msg
             else LLM.content msg)%string]
    else [] in
  {| role := if LLM.is_user (LLM.role msg) then "user" else "model";
     parts := textParts ++ imageParts (LLM.images msg) |}.

Definition createMathInstruction : Content :=
  {| role := "model"; parts := [Text ""] |}.

(** The [contents] handed to [generateContentStream]. *)
Definition buildContents (prompt : string) (messages : list LLM.Message)
  : list Content :=
  let contents := map (toContent prompt) messages in
  if MathRegex.detectMathContent (conversationText messages)
  then createMathInstruction :: contents
  else contents.

(** [for await (const chunk of response) if (chunk.text) yield chunk.text] *)
Definition yieldChunks (chunks : list (option string)) : list string :=
  flat_map (fun text => match text with
                        | Some t => if Js.truthy t then [t] else []
                        | None => []
                        end) chunks.

(** [generateStreamingResponse]: [sdk] is the outcome of
    [generateContentStream] on the contents built from the history. *)
Definition generateStreamingResponse (prompt : string)
    (sdk : list Content -> Js.Result (Stream (option string)))
    (messages : list LLM.Message) : Stream string :=
  match sdk (buildContents prompt messages) with
  | inl error => {| items := []; ending := Some (wrapError name error) |}
  | inr response =>
      {| items := yieldChunks (items response);
         ending := option_map (wrapError name) (ending response) |}
  end.

End GoogleGenAIProvider.

(* ===================================================================== *)
(** ** [GoogleGenAIProvider] (the variant without a system prompt)        *)
(* ===================================================================== *)

(** The file holds a second copy of the class, which sends the texts as
    they are and whose math instruction has its text. *)
Module GoogleGenAIProviderPlain.

Import GoogleGenAIProvider.

Definition toContent (msg : LLM.Message) : Content :=
  {| role := if LLM.is_user (LLM.role msg) then "user" else "model";
     parts := (if Js.truthy (LLM.content msg) then [Text (LLM.content msg)] else [])
              ++ imageParts (LLM.images msg) |}.

Definition mathInstructionText : string :=
  Js.join (String Js.LF "")
    [ "IMPORTANT: When providing mathematical expressions, always use LaTeX syntax with dollar signs for proper rendering:";
      "- For inline math: $expression$";
      "- For block math: $$expression$$";
      "";
      "Examples:";
      "- Quadratic formula: $x = \frac{-b \pm \sqrt{b^2 - 4ac}}{2a}$";
      "- Equation: $ax^2 + bx + c = 0$";
      "- Fractions: $\frac{1}{2}$";
      "- Square roots: $\sqrt{x}$";
      "- Superscripts: $x^2$";
      "- Subscripts: $H_2O$";
      "";
      "Always format ALL mathematical content this way." ].

Definition createMathInstruction : Content :=
  {| role := "model"; parts := [Text mathInstructionText] |}.

Definition buildContents (messages : list LLM.Message) : list Content :=
  let contents := map toContent messages in
  if MathRegex.detectMathContent (conversationText messages)
  then createMathInstruction :: contents
  else contents.

End GoogleGenAIProviderPlain.

(* ===================================================================== *)
(** ** [OpenAIProvider]                                                   *)
(* ===================================================================== *)

Module OpenAIProvider.

Definition name : string := "openai".

Record t : Type := { apiKey : string; model : string; baseURL : string }.

(** The constructor. *)
Definition new (config : LLM.Config) : Js.Result t :=
  if negb (Js.truthy_opt (LLM.apiKey config)) then
    inl (Js.newError "OpenAI API key is required")
  else
    inr {| apiKey := Js.or_else (LLM.apiKey config) "";
           model := Js.or_else (LLM.model config) "gpt-4";
           baseURL := Js.or_else (LLM.baseURL config) "https://api.openai.com/v1" |}.

(** [!!this.apiKey] *)
Definition isConfigured (p : t) : bool := Js.truthy (apiKey p).

Inductive ContentPart : Type :=
| TextPart (text : string)
| ImageUrl (url : string).

Inductive MessageContent : Type :=
| Plain (text : string)
| Parts (parts : list ContentPart).

Record WireMessage : Type := { role : string; content : MessageContent }.

Definition toWireMessage (msg : LLM.Message) : WireMessage :=
  match LLM.images msg with
  | None | Some [] =>
      {| role := LLM.role_name (LLM.role msg); content := Plain (LLM.content msg) |}
  | Some imgs =>
      {| role := LLM.role_name (LLM.role msg);
         content :=
           Parts ((if Js.truthy (LLM.content msg)
                   then [TextPart (LLM.content msg)] else [])
                  ++ map (fun image =>
                            ImageUrl ("data:" ++ LLM.type image ++ ";base64,"
                                      ++ LLM.data image)%string) imgs) |}
  end.

Definition mathInstruction : WireMessage :=
  {| role := "system";
     content := Plain "When providing mathematical expressions, always use LaTeX syntax with dollar signs: $expression$ for inline math and $$expression$$ for block math." |}.

(** The [messages] of the request body. *)
Definition buildMessages (messages : list LLM.Message) : list WireMessage :=
  let openAIMessages := map toWireMessage messages in
  if MathRegex.detectMathContent (conversationText messages)
  then mathInstruction :: openAIMessages
  else openAIMessages.

Section StreamProcessing.

(** [JSON.parse]: [None] when it throws. *)
Variable JSON_parse : string -> option JSON.

(** What one line does inside [for (const line of lines)]. *)
Inductive LineEffect : Type :=
| Ignore                  (* no [data: ] prefix, bad JSON, or no content *)
| Return                  (* the [[DONE]] sentinel: the generator returns *)
| Yield (content : JSON). (* a truthy [choices[0].delta.content] *)

(** [parsed.choices?.[0]?.delta?.content]; reading [choices] of [null]
    throws, which the inner [catch] swallows like a syntax error. *)
Definition deltaContent (parsed : JSON) : option JSON :=
  match parsed with
  | JNull => None
  | _ =>
      Json.get_opt "content"
        (Json.get_opt "delta" (Json.first_opt (Json.get "choices" parsed)))
  end.

Definition processLine (line : string) : LineEffect :=
  if Js.startsWith "data: " line then
    let data := Js.slice 6 line in
    if String.eqb data "[DONE]" then Return
    else
      match JSON_parse data with
      | None => Ignore
      | Some parsed =>
          let content := deltaContent parsed in
          match content with
          | Some c => if Json.truthy content then Yield c else Ignore
          | None => Ignore
          end
      end
  else Ignore.

(** The [for] loop over the complete lines: what it yields, and whether
    it left the generator by [return]. *)
Fixpoint processLines (lines : list string) : list JSON * bool :=
  match lines with
  | [] => ([], false)
  | line :: rest =>
      match processLine line with
      | Return => ([], true)
      | Ignore => processLines rest
      | Yield c => let (out, returned) := processLines rest in (c :: out, returned)
      end
  end.

(** The [while (true)] loop: [reads] are the decoded texts of the reads
    still to come, [more] what the reader does after them ([None]: it
    reports [done]). *)
Fixpoint readLoop (buffer : string) (reads : list string)
    (more : option Js.Thrown) : Stream JSON :=
  match reads with
  | [] => {| items := []; ending := more |}
  | value :: reads' =>
      let lines := Js.split_lines (buffer ++ value) in
      let (popped, lines') := Js.pop lines in
      let buffer' := Js.or_else popped "" in
      let (out, returned) := processLines lines' in
      if returned then {| items := out; ending := None |}
      else
        let next := readLoop buffer' reads' more in
        {| items := out ++ items next; ending := ending next |}
  end.

(** The whole text a sequence of reads delivers. *)
Definition received (reads : list string) : string :=
  fold_right String.append "" reads.

(** What the complete lines of a text yield, read in one piece. *)
Definition yieldsOfText (text : string) : list JSON :=
  fst (processLines (removelast (Js.split_lines text))).

(** The response of [fetch]; [status] is the status code as the template
    literal prints it, [body] is absent when there is no reader. *)
Record Response : Type :=
  { ok : bool; status : string; statusText : string;
    body : option (Stream string) }.

(** [generateStreamingResponse] from the outcome of [fetch] on. *)
Definition generateStreamingResponse (fetched : Js.Result Response)
  : Stream JSON :=
  let failed error := {| items := []; ending := Some (wrapError name error) |} in
  match fetched with
  | inl error => failed error
  | inr response =>
      if negb (ok response) then
        failed (Js.newError ("OpenAI API error: " ++ status response ++ " "
                             ++ statusText response))
      else
        match body response with
        | None => failed (Js.newError "Failed to get response reader")
        | Some reader =>
            let s := readLoop "" (items reader) (ending reader) in
            {| items := items s;
               ending := option_map (wrapError name) (ending s) |}
        end
  end.

End StreamProcessing.

End OpenAIProvider.

(* ===================================================================== *)
(** ** [src/services/llm-registry.ts]                                     *)
(* ===================================================================== *)

(** The [LLMProvider] interface, without the streaming method (modelled
    per provider above). *)
Class LLMProviderOps (P : Type) : Type :=
  { providerName : P -> string;
    providerIsConfigured : P -> bool }.

#[export] Instance GoogleGenAI_ops : LLMProviderOps GoogleGenAIProvider.t :=
  { providerName := fun _ => GoogleGenAIProvider.name;
    providerIsConfigured := GoogleGenAIProvider.isConfigured }.

#[export] Instance OpenAI_ops : LLMProviderOps OpenAIProvider.t :=
  { providerName := fun _ => OpenAIProvider.name;
    providerIsConfigured := OpenAIProvider.isConfigured }.

(** A provider instance built by one of the registered factories. *)
Inductive LLMProvider : Type :=
| GoogleGenAI (p : GoogleGenAIProvider.t)
| OpenAI (p : OpenAIProvider.t).

#[export] Instance LLMProvider_ops : LLMProviderOps LLMProvider :=
  { providerName := fun p => match p with
                             | GoogleGenAI p => providerName p
                             | OpenAI p => providerName p
                             end;
    providerIsConfigured := fun p => match p with
                                     | GoogleGenAI p => providerIsConfigured p
                                     | OpenAI p => providerIsConfigured p
                                     end }.

Definition LLMProviderFactory : Type := LLM.Config -> Js.Result LLMProvider.

Module llmRegistry.

(** The [Map] of factories, in insertion order. *)
Definition t : Type := list (string * LLMProviderFactory).

(** [Map.prototype.set]: an existing key keeps its place. *)
Fixpoint register (type : string) (factory : LLMProviderFactory) (r : t) : t :=
  match r with
  | [] => [(type, factory)]
  | (k, f) :: rest =>
      if String.eqb k type then (type, factory) :: rest
      else (k, f) :: register type factory rest
  end.

Fixpoint get (type : string) (r : t) : option LLMProviderFactory :=
  match r with
  | [] => None
  | (k, f) :: rest => if String.eqb k type then Some f else get type rest
  end.

Definition create (r : t) (type : string) (config : LLM.Config)
  : Js.Result LLMProvider :=
  match get type r with
  | None => inl (Js.newError ("LLM provider type '" ++ type ++ "' is not registered"))
  | Some factory => factory config
  end.

Definition getAvailableProviders (r : t) : list string := map fst r.

Definition lift {A B : Type} (f : A -> B) (x : Js.Result A) : Js.Result B :=
  match x with
  | inl e => inl e
  | inr a => inr (f a)
  end.

(** The singleton after [registerBuiltInProviders]. *)
Definition builtIn : t :=
  register "openai" (fun config => lift OpenAI (OpenAIProvider.new config))
    (register "google-genai"
       (fun config => lift GoogleGenAI (GoogleGenAIProvider.new config)) []).

End llmRegistry.

(** [import.meta.env] *)
Record Env : Type :=
  { VITE_LLM_PROVIDER : option string;
    VITE_GENAI_KEY : option string;
    VITE_GENAI_MODEL : option string;
    VITE_OPENAI_API_KEY : option string;
    VITE_OPENAI_MODEL : option string;
    VITE_OPENAI_BASE_URL : option string }.

Module LLMServiceFactory.

Definition getConfigForProvider (env : Env) (type : string)
  : Js.Result LLM.Config :=
  if String.eqb type "google-genai" then
    inr {| LLM.apiKey := Some (Js.or_else (VITE_GENAI_KEY env) "");
           LLM.model := Some (Js.or_else (VITE_GENAI_MODEL env) "gemini-2.5-flash");
           LLM.baseURL := None |}
  else if String.eqb type "openai" then
    inr {| LLM.apiKey := Some (Js.or_else (VITE_OPENAI_API_KEY env) "");
           LLM.model := Some (Js.or_else (VITE_OPENAI_MODEL env) "gpt-4");
           LLM.baseURL := VITE_OPENAI_BASE_URL env |}
  else
    inl (Js.newError ("No environment configuration available for provider: "
                      ++ type)).

Definition createFromEnvironment (env : Env) : Js.Result LLMProvider :=
  let providerType := Js.or_else (VITE_LLM_PROVIDER env) "google-genai" in
  match getConfigForProvider env providerType with
  | inl e => inl e
  | inr config => llmRegistry.create llmRegistry.builtIn providerType config
  end.

End LLMServiceFactory.

(* ===================================================================== *)
(** ** The [useChat] hook                                                 *)
(* ===================================================================== *)

Module useChat.

Definition convertRole (r : Chat.Role) : LLM.Role :=
  match r with
  | Chat.user => LLM.user
  | Chat.assistant => LLM.assistant
  end.

Definition convertToLLMMessage (message : Chat.Message) : LLM.Message :=
  {| LLM.role := convertRole (Chat.role message);
     LLM.content := Chat.content message;
     LLM.images :=
       option_map
         (map (fun img => {| LLM.type := Chat.type img; LLM.data := Chat.base64 img |}))
         (Chat.images message) |}.

(** A [sendMessage] or [retryLastMessage] call suspended in its
    [for await] loop: the locals the rest of the call reads, and the
    history it handed to the provider. *)
Record Turn : Type :=
  { assistantMessageId : string;
    accumulatedContent : string;
    llmMessages : list LLM.Message }.

(** The hook: the three state cells, the two refs, and the suspended
    calls, each under the number of the stream it consumes.
    [abortControllerRef] is [None] for [null] and otherwise holds the
    [aborted] flag of the controller the ref points to. *)
Record Hook : Type :=
  { messages : list Chat.Message;
    isLoading : bool;
    error : option string;
    abortControllerRef : option bool;
    llmProvider : option LLMProvider;
    pending : list (nat * Turn);
    streams : nat }.

Definition init : Hook :=
  {| messages := []; isLoading := false; error := None;
     abortControllerRef := None; llmProvider := None;
     pending := []; streams := 0 |}.

Definition setMessages (f : list Chat.Message -> list Chat.Message) (h : Hook) : Hook :=
  {| messages := f (messages h); isLoading := isLoading h; error := error h;
     abortControllerRef := abortControllerRef h; llmProvider := llmProvider h;
     pending := pending h; streams := streams h |}.

Definition setIsLoading (b : bool) (h : Hook) : Hook :=
  {| messages := messages h; isLoading := b; error := error h;
     abortControllerRef := abortControllerRef h; llmProvider := llmProvider h;
     pending := pending h; streams := streams h |}.

Definition setError (e : option string) (h : Hook) : Hook :=
  {| messages := messages h; isLoading := isLoading h; error := e;
     abortControllerRef := abortControllerRef h; llmProvider := llmProvider h;
     pending := pending h; streams := streams h |}.

Definition setAbortControllerRef (c : option bool) (h : Hook) : Hook :=
  {| messages := messages h; isLoading := isLoading h; error := error h;
     abortControllerRef := c; llmProvider := llmProvider h;
     pending := pending h; streams := streams h |}.

Definition setLlmProvider (p : option LLMProvider) (h : Hook) : Hook :=
  {| messages := messages h; isLoading := isLoading h; error := error h;
     abortControllerRef := abortControllerRef h; llmProvider := p;
     pending := pending h; streams := streams h |}.

Definition setPending (ts : list (nat * Turn)) (h : Hook) : Hook :=
  {| messages := messages h; isLoading := isLoading h; error := error h;
     abortControllerRef := abortControllerRef h; llmProvider := llmProvider h;
     pending := ts; streams := streams h |}.

Fixpoint lookupTurn (t : nat) (ts : list (nat * Turn)) : option Turn :=
  match ts with
  | [] => None
  | (k, turn) :: rest => if k =? t then Some turn else lookupTurn t rest
  end.

Definition removeTurn (t : nat) (ts : list (nat * Turn)) : list (nat * Turn) :=
  filter (fun e => negb (fst e =? t)) ts.

(** The call reaches [for await]: it is suspended on a new stream. *)
Definition suspend (turn : Turn) (h : Hook) : Hook :=
  {| messages := messages h; isLoading := isLoading h; error := error h;
     abortControllerRef := abortControllerRef h; llmProvider := llmProvider h;
     pending := pending h ++ [(streams h, turn)]; streams := S (streams h) |}.

Definition fallbackContent : string := "No response generated.".

(** [{ ...msg, content, isLoading: false }] for the message with the
    given id, every other message as it is. *)
Definition mergeInto (assistantMessageId content : string) (msg : Chat.Message)
  : Chat.Message :=
  if String.eqb (Chat.id msg) assistantMessageId then
    {| Chat.id := Chat.id msg; Chat.content := content;
       Chat.role := Chat.role msg; Chat.timestamp := Chat.timestamp msg;
       Chat.isLoading := Some false; Chat.images := Chat.images msg |}
  else msg.

(** [abortControllerRef.current?.signal.aborted] *)
Definition aborted (h : Hook) : bool :=
  match abortControllerRef h with
  | Some flag => flag
  | None => false
  end.

(** [if (abortControllerRef.current) abort()], then the new controller. *)
Definition replaceController (h : Hook) : Hook :=
  setAbortControllerRef (Some false)
    (match abortControllerRef h with
     | Some _ => setAbortControllerRef (Some true) h
     | None => h
     end).

(** The [finally] block. *)
Definition finallyBlock (h : Hook) : Hook :=
  setAbortControllerRef None (setIsLoading false h).

Definition isAbortError (err : Js.Thrown) : bool :=
  match err with
  | Js.ErrorObject name _ => String.eqb name "AbortError"
  | Js.NonError _ => false
  end.

Definition errorMessage (err : Js.Thrown) : string :=
  match err with
  | Js.ErrorObject _ message => message
  | Js.NonError _ => "Something went wrong"
  end.

(** The [catch] block. *)
Definition catchBlock (assistantMessageId : string) (err : Js.Thrown) (h : Hook)
  : Hook :=
  if isAbortError err then h
  else
    setMessages
      (filter (fun msg => negb (String.eqb (Chat.id msg) assistantMessageId)))
      (setError (Some (errorMessage err)) h).

(** The update after the loop, then [finally]. *)
Definition finalUpdate (turn : Turn) (h : Hook) : Hook :=
  setMessages
    (map (mergeInto (assistantMessageId turn)
            (Js.or_else (Some (accumulatedContent turn)) fallbackContent)))
    h.

(** How far a call of an action got: suspended at an [await], returned
    (its promise is fulfilled), or left by a thrown value (its promise is
    rejected). *)
Inductive Progress : Type :=
| Suspended
| Returned
| Threw (err : Js.Thrown).

(** [try { body } catch (err) { ... } finally { ... }] around a segment
    of the body; a suspended body runs its handlers when it is resumed. *)
Definition tryCatchFinally (assistantMessageId : string)
    (body : Hook -> Hook * Progress) (h : Hook) : Hook * Progress :=
  match body h with
  | (h', Suspended) => (h', Suspended)
  | (h', Returned) => (finallyBlock h', Returned)
  | (h', Threw err) => (finallyBlock (catchBlock assistantMessageId err h'), Returned)
  end.

Section WithEnvironment.

Variable env : Env.

(** [getLLM], memoised in the [llmProvider] ref. *)
Definition getLLM (h : Hook) : Js.Result LLMProvider * Hook :=
  match llmProvider h with
  | Some llm => (inr llm, h)
  | None =>
      match LLMServiceFactory.createFromEnvironment env with
      | inl e => (inl e, h)
      | inr llm => (inr llm, setLlmProvider (Some llm) h)
      end
  end.

(** The [try] body up to its first [await]. *)
Definition bodyStart (assistantMessageId : string)
    (conversationHistory : list Chat.Message) (h : Hook) : Hook * Progress :=
  match getLLM h with
  | (inl err, h') => (h', Threw err)
  | (inr _, h') =>
      (suspend {| assistantMessageId := assistantMessageId;
                  accumulatedContent := "";
                  llmMessages := map convertToLLMMessage conversationHistory |} h',
       Suspended)
  end.

(** The [try] body resumed by a chunk: one pass through [for await]. *)
Definition bodyChunk (t : nat) (turn : Turn) (chunk : string) (h : Hook)
  : Hook * Progress :=
  if aborted h then
    (* [break], then the update after the loop *)
    (finalUpdate turn (setPending (removeTurn t (pending h)) h), Returned)
  else
    let acc := (accumulatedContent turn ++ chunk)%string in
    let turn' := {| assistantMessageId := assistantMessageId turn;
                    accumulatedContent := acc;
                    llmMessages := llmMessages turn |} in
    (setMessages (map (mergeInto (assistantMessageId turn) acc))
       (setPending
          (map (fun e => if fst e =? t then (t, turn') else e) (pending h)) h),
     Suspended).

(** The [try] body resumed by the end of the stream. *)
Definition bodyDone (t : nat) (turn : Turn) (h : Hook) : Hook * Progress :=
  (finalUpdate turn (setPending (removeTurn t (pending h)) h), Returned).

(** The [try] body resumed by the stream throwing. *)
Definition bodyThrow (t : nat) (err : Js.Thrown) (h : Hook) : Hook * Progress :=
  (setPending (removeTurn t (pending h)) h, Threw err).

(** The user message; [id] is the result of [generateId()], [now] the
    clock (one synchronous run reads it for both messages). *)
Definition userMessage (content : string) (images : option (list Chat.ImageAttachment))
    (id : string) (now : Z) : Chat.Message :=
  {| Chat.id := id; Chat.content := Js.trim content; Chat.role := Chat.user;
     Chat.timestamp := now; Chat.isLoading := None; Chat.images := images |}.

Definition loadingMessage (id : string) (now : Z) : Chat.Message :=
  {| Chat.id := id; Chat.content := ""; Chat.role := Chat.assistant;
     Chat.timestamp := now; Chat.isLoading := Some true; Chat.images := None |}.

(** [!images?.length] *)
Definition noImages (images : option (list Chat.ImageAttachment)) : bool :=
  match images with
  | None => true
  | Some imgs => length imgs =? 0
  end.

(** The guard of [sendMessage]; [h] is the state of the render that
    created the function called, whose [isLoading] the guard reads. *)
Definition sendGuard (content : string)
    (images : option (list Chat.ImageAttachment)) (h : Hook) : bool :=
  (negb (Js.truthy (Js.trim content)) && noImages images) || isLoading h.

(** [sendMessage] after its guard, up to the new [AbortController]:
    [uid] and [aid] are the results of the two [generateId()] calls. *)
Definition sendMessageBegin (content : string)
    (images : option (list Chat.ImageAttachment)) (uid aid : string) (now : Z)
    (h : Hook) : Hook :=
  replaceController
    (setError None
       (setIsLoading true
          (setMessages
             (fun prev => prev ++ [userMessage content images uid now;
                                   loadingMessage aid now]) h))).

(** [sendMessage] as a render creates it, up to its first [await].
    [useCallback] rebuilds the function when [isLoading] or [messages]
    change, and the function of a render reads the two as that render
    had them: [seen] is the state that render showed.  The setters take
    updaters and the refs are shared, so every update acts on the
    current state [h]. *)
Definition sendMessageOf (seen : Hook) (content : string)
    (images : option (list Chat.ImageAttachment)) (uid aid : string) (now : Z)
    (h : Hook) : Hook * Progress :=
  if sendGuard content images seen then (h, Returned)
  else
    tryCatchFinally aid
      (bodyStart aid (messages seen ++ [userMessage content images uid now]))
      (sendMessageBegin content images uid aid now h).

(** [sendMessage] called through the render that shows the current
    state. *)
Definition sendMessage (content : string)
    (images : option (list Chat.ImageAttachment)) (uid aid : string) (now : Z)
    (h : Hook) : Hook * Progress :=
  sendMessageOf h content images uid aid now h.

Definition clearChat (h : Hook) : Hook * Progress :=
  (setIsLoading false
     (match abortControllerRef h with
      | Some _ => setAbortControllerRef (Some true)
      | None => fun h => h
      end (setError None (setMessages (fun _ => []) h))),
   Returned).

(** [[...messages].reverse().find((msg) => msg.role === "user")] *)
Definition lastUserMessage (msgs : list Chat.Message) : option Chat.Message :=
  find (fun msg => Chat.is_user (Chat.role msg)) (rev msgs).

(** The first updater of [retryLastMessage]. *)
Definition dropTrailingAssistant (prev : list Chat.Message) : list Chat.Message :=
  match rev prev with
  | lastMsg :: _ =>
      if Chat.is_assistant (Chat.role lastMsg) then removelast prev else prev
  | [] => prev
  end.

(** [msg.id !== messages[messages.length - 1]?.id] *)
Definition differsFromLast (msgs : list Chat.Message) (msg : Chat.Message) : bool :=
  match rev msgs with
  | lastMsg :: _ => negb (String.eqb (Chat.id msg) (Chat.id lastMsg))
  | [] => true
  end.

(** The history [retryLastMessage] rebuilds. *)
Definition retryHistory (msgs : list Chat.Message) (lastUser : Chat.Message)
  : list Chat.Message :=
  filter (fun msg => Chat.is_user (Chat.role msg) || differsFromLast msgs msg) msgs
  ++ [lastUser].

Definition retryBegin (aid : string) (now : Z) (h : Hook) : Hook :=
  replaceController
    (setError None
       (setIsLoading true
          (setMessages (fun prev => prev ++ [loadingMessage aid now])
             (setMessages dropTrailingAssistant h)))).

(** [retryLastMessage] as a render creates it, up to its first
    [await]: the last user message, the guard and the rebuilt history
    read [messages] and [isLoading] as the render [seen] had them, the
    updates act on the current state [h]. *)
Definition retryLastMessageOf (seen : Hook) (aid : string) (now : Z) (h : Hook)
  : Hook * Progress :=
  match lastUserMessage (messages seen) with
  | None => (h, Returned)
  | Some lastUser =>
      if isLoading seen then (h, Returned)
      else
        tryCatchFinally aid
          (bodyStart aid (retryHistory (messages seen) lastUser))
          (retryBegin aid now h)
  end.

(** [retryLastMessage] called through the render that shows the current
    state. *)
Definition retryLastMessage (aid : string) (now : Z) (h : Hook) : Hook * Progress :=
  retryLastMessageOf h aid now h.

(** What the stream of a suspended call can do next. *)
Inductive StreamEvent : Type :=
| Chunk (chunk : string)
| Done
| Throws (err : Js.Thrown).

(** The suspended call [t] resumed by its stream; a stream nobody
    consumes any more has no effect. *)
Definition resume (t : nat) (ev : StreamEvent) (h : Hook) : Hook * Progress :=
  match lookupTurn t (pending h) with
  | None => (h, Returned)
  | Some turn =>
      tryCatchFinally (assistantMessageId turn)
        (match ev with
         | Chunk chunk => bodyChunk t turn chunk
         | Done => bodyDone t turn
         | Throws err => bodyThrow t err
         end) h
  end.

(** What can happen to the hook: a call of one of its three actions, or
    the stream of a suspended call moving on.  In [perform], [step] and
    [run] every call is made through the render that shows the current
    state: the component has rendered again before the user acts.  Calls
    through an earlier render are those of [performOf] and [play]
    below. *)
Inductive Event : Type :=
| SendMessage (content : string) (images : option (list Chat.ImageAttachment))
    (uid aid : string) (now : Z)
| ClearChat
| RetryLastMessage (aid : string) (now : Z)
| StreamYield (t : nat) (chunk : string)
| StreamDone (t : nat)
| StreamThrow (t : nat) (err : Js.Thrown).

Definition perform (h : Hook) (e : Event) : Hook * Progress :=
  match e with
  | SendMessage content images uid aid now => sendMessage content images uid aid now h
  | ClearChat => clearChat h
  | RetryLastMessage aid now => retryLastMessage aid now h
  | StreamYield t chunk => resume t (Chunk chunk) h
  | StreamDone t => resume t Done h
  | StreamThrow t err => resume t (Throws err) h
  end.

Definition step (h : Hook) (e : Event) : Hook := fst (perform h e).

Definition run (h : Hook) (events : list Event) : Hook :=
  fold_left step events h.

(** The states the hook can be in. *)
Definition reachable (h : Hook) : Prop := exists events, h = run init events.

(** An event met by the functions of the render that showed [seen];
    [clearChat] and the resumed calls read nothing of a render. *)
Definition performOf (seen h : Hook) (e : Event) : Hook * Progress :=
  match e with
  | SendMessage content images uid aid now =>
      sendMessageOf seen content images uid aid now h
  | ClearChat => clearChat h
  | RetryLastMessage aid now => retryLastMessageOf seen aid now h
  | StreamYield t chunk => resume t (Chunk chunk) h
  | StreamDone t => resume t Done h
  | StreamThrow t err => resume t (Throws err) h
  end.

(** The mounted component between two events: the state of the hook, and
    the state its last render showed, which the functions handed to the
    user interface have captured. *)
Record Component : Type := { hook : Hook; seen : Hook }.

Definition mounted : Component := {| hook := init; seen := init |}.

(** The component renders again, or an event happens. *)
Inductive Action : Type :=
| Render
| Fire (e : Event).

Definition act (c : Component) (a : Action) : Component :=
  match a with
  | Render => {| hook := hook c; seen := hook c |}
  | Fire e => {| hook := fst (performOf (seen c) (hook c) e); seen := seen c |}
  end.

Definition play (c : Component) (actions : list Action) : Component :=
  fold_left act actions c.

(** A call of [sendMessage] or [retryLastMessage] is in step when the
    render it is made through shows the loading flag as it is now. *)
Definition inStep (c : Component) (a : Action) : bool :=
  match a with
  | Fire (SendMessage _ _ _ _ _) | Fire (RetryLastMessage _ _) =>
      Bool.eqb (isLoading (seen c)) (isLoading (hook c))
  | _ => true
  end.

Fixpoint callsInStep (c : Component) (actions : list Action) : bool :=
  match actions with
  | [] => true
  | a :: rest => inStep c a && callsInStep (act c a) rest
  end.

(** The events of a stream consumed without interruption. *)
Definition streamEvents (t : nat) (s : Stream string) : list Event :=
  map (StreamYield t) (items s)
  ++ [match ending s with
      | None => StreamDone t
      | Some err => StreamThrow t err
      end].

End WithEnvironment.

(** The left-to-right concatenation of the fragments of a stream. *)
Definition concatFragments (chunks : list string) : string :=
  fold_right String.append "" chunks.

(** The accumulator when the loop ends, as the final update reads it. *)
Definition finalContent (chunks : list string) : string :=
  Js.or_else (Some (concatFragments chunks)) fallbackContent.

(** The assistant message of a turn once it has content. *)
Definition assistantReply (id content : string) (now : Z) : Chat.Message :=
  {| Chat.id := id; Chat.content := content; Chat.role := Chat.assistant;
     Chat.timestamp := now; Chat.isLoading := Some false; Chat.images := None |}.

Definition showsLoading (msg : Chat.Message) : bool :=
  match Chat.isLoading msg with
  | Some true => true
  | _ => false
  end.

(** How many messages show the loading indicator. *)
Definition loadingCount (msgs : list Chat.Message) : nat :=
  length (filter showsLoading msgs).

(** The numbers of the suspended calls are numbers of streams already
    opened. *)
Definition keysFresh (h : Hook) : Prop :=
  Forall (fun e => fst e < streams h) (pending h).

(** The two calls that open a turn whose assistant message has the id
    [aid] and the time stamp [now]. *)
Definition startsTurn (e : Event) (aid : string) (now : Z) : Prop :=
  (exists content images uid, e = SendMessage content images uid aid now)
  \/ e = RetryLastMessage aid now.

(** The events of a run in which nobody calls [clearChat] and no stream
    throws an abort error (the built-in providers wrap every error in a
    plain [Error]). *)
Definition quiet (e : Event) : bool :=
  match e with
  | ClearChat => false
  | StreamThrow _ err => negb (isAbortError err)
  | _ => true
  end.

Definition quietAction (a : Action) : bool :=
  match a with
  | Render => true
  | Fire e => quiet e
  end.

(** A turn is in flight while a call is suspended on its stream. *)
Definition turnInFlight (h : Hook) : bool :=
  match pending h with
  | [] => false
  | _ :: _ => true
  end.

(** At most one message shows the loading indicator, and only the last
    one may. *)
Definition loadingOnlyLast (msgs : list Chat.Message) : Prop :=
  loadingCount msgs <= 1
  /\ Forall (fun msg => showsLoading msg = false) (removelast msgs).

(** What holds between the events of a quiet run: the loading flag says
    whether a call is suspended, there is at most one, and its message is
    the last one and the only one that may show the indicator. *)
Definition turnInvariant (h : Hook) : Prop :=
  aborted h = false
  /\ if isLoading h then
       exists t turn before m,
         pending h = [(t, turn)]
         /\ messages h = before ++ [m]
         /\ Chat.id m = assistantMessageId turn
         /\ Forall (fun msg => showsLoading msg = false) before
     else
       pending h = []
       /\ Forall (fun msg => showsLoading msg = false) (messages h).

End useChat.

(* ===================================================================== *)
(** ** The environment factory over any state of the registry             *)
(* ===================================================================== *)

(** [LLMServiceFactory.createFromEnvironment] reads the singleton
    registry as it is when it is called: [r] is that state.  With the
    built-in state this is [LLMServiceFactory.createFromEnvironment]. *)
Definition createFromEnvironmentWith (r : llmRegistry.t) (env : Env)
  : Js.Result LLMProvider :=
  let providerType := Js.or_else (VITE_LLM_PROVIDER env) "google-genai" in
  match LLMServiceFactory.getConfigForProvider env providerType with
  | inl e => inl e
  | inr config => llmRegistry.create r providerType config
  end.

(** Texts made of word characters only. *)
Fixpoint allWord (s : string) : bool :=
  match s with
  | EmptyString => true
  | String c s' => MathRegex.is_word_char c && allWord s'
  end.

(** The events that are a stream moving on, not a call of an action. *)
Definition isStreamEvent (e : useChat.Event) : bool :=
  match e with
  | useChat.StreamYield _ _ | useChat.StreamDone _ | useChat.StreamThrow _ _ => true
  | _ => false
  end.

(* ===================================================================== *)
(** ** [src/components/chat/ChatInput.tsx]                                *)
(* ===================================================================== *)

Module ChatInput.

(** [s.split(sep)] for a separator of one character. *)
Fixpoint splitOn (sep : ascii) (s : string) : list string :=
  match s with
  | EmptyString => [EmptyString]
  | String c s' =>
      if Ascii.eqb c sep then EmptyString :: splitOn sep s'
      else match splitOn sep s' with
           | [] => [String c EmptyString]
           | l :: ls => String c l :: ls
           end
  end.

Fixpoint hasChar (c : ascii) (s : string) : bool :=
  match s with
  | EmptyString => false
  | String d s' => Ascii.eqb d c || hasChar c s'
  end.

(** A [File] of the file input. *)
Record File : Type := { file_name : string; file_type : string; file_size : Z }.

(** The state cells [message] and [images], and the files handed to a
    [FileReader] whose [onload] has not run yet. *)
Record State : Type :=
  { message : string;
    images : list Chat.ImageAttachment;
    reading : list File }.

Definition initial : State := {| message := ""; images := []; reading := [] |}.

(** The two checks of [handleImageUpload]: the alert a file gets, if
    any. *)
Definition checkFile (file : File) : option string :=
  if negb (Js.startsWith "image/" (file_type file)) then
    Some "Please select only image files."
  else if (file_size file >? 5 * 1024 * 1024)%Z then
    Some "Image must be smaller than 5MB."
  else None.

Definition accepted (file : File) : bool :=
  match checkFile file with
  | None => true
  | Some _ => false
  end.

(** [handleImageUpload]: the files that pass are handed to a reader, the
    others give an alert each; [None] stands for [event.target.files]
    being [null]. *)
Definition handleImageUpload (files : option (list File)) (st : State)
  : State * list string :=
  match files with
  | None => (st, [])
  | Some fs =>
      ({| message := message st; images := images st;
          reading := reading st ++ filter accepted fs |},
       flat_map (fun file => match checkFile file with
                             | Some alert => [alert]
                             | None => []
                             end) fs)
  end.

(** What [readAsDataURL] produces for a file type and the base64 text of
    the content. *)
Definition dataURL (type payload : string) : string :=
  ("data:" ++ type ++ ";base64," ++ payload)%string.

Fixpoint removeNth {A : Type} (n : nat) (xs : list A) : list A :=
  match n, xs with
  | _, [] => []
  | O, _ :: rest => rest
  | S n', x :: rest => x :: removeNth n' rest
  end.

(** [reader.onload] of the [n]-th file being read: [payload] is the
    base64 text the reader computed, [id] the generated id.  The result
    of [readAsDataURL] contains a comma, so [split(",")[1]] exists. *)
Definition onload (n : nat) (payload id : string) (st : State) : State :=
  match nth_error (reading st) n with
  | None => st
  | Some file =>
      let base64 := dataURL (file_type file) payload in
      {| message := message st;
         images :=
           images st
           ++ [{| Chat.img_id := id; Chat.name := file_name file;
                  Chat.type := file_type file; Chat.size := file_size file;
                  Chat.base64 := nth 1 (splitOn "," base64) "";
                  Chat.url := base64 |}];
         reading := removeNth n (reading st) |}
  end.

Definition removeImage (imageId : string) (st : State) : State :=
  {| message := message st;
     images := filter (fun img => negb (String.eqb (Chat.img_id img) imageId))
                 (images st);
     reading := reading st |}.

Definition handleTextareaChange (value : string) (st : State) : State :=
  {| message := value; images := images st; reading := reading st |}.

(** [handleSubmit]: the arguments of the [onSendMessage] call, if it is
    made, and the state afterwards. *)
Definition handleSubmit (disabled : bool) (st : State)
  : option (string * option (list Chat.ImageAttachment)) * State :=
  let trimmedMessage := Js.trim (message st) in
  if (negb (Js.truthy trimmedMessage) && (length (images st) =? 0)) || disabled
  then (None, st)
  else
    (Some (trimmedMessage,
           if 0 <? length (images st) then Some (images st) else None),
     {| message := ""; images := []; reading := reading st |}).

Definition handleKeyDown (key : string) (shiftKey disabled : bool) (st : State)
  : option (string * option (list Chat.ImageAttachment)) * State :=
  if String.eqb key "Enter" && negb shiftKey then handleSubmit disabled st
  else (None, st).

Definition canSend (disabled : bool) (st : State) : bool :=
  ((0 <? String.length (Js.trim (message st))) || (0 <? length (images st)))
  && negb disabled.

Inductive Event : Type :=
| TextareaChange (value : string)
| ImageUpload (files : option (list File))
| ReaderLoad (n : nat) (payload id : string)
| RemoveImage (imageId : string)
| Submit (disabled : bool)
| KeyDown (key : string) (shiftKey disabled : bool).

Definition step (st : State) (e : Event) : State :=
  match e with
  | TextareaChange value => handleTextareaChange value st
  | ImageUpload files => fst (handleImageUpload files st)
  | ReaderLoad n payload id => onload n payload id st
  | RemoveImage imageId => removeImage imageId st
  | Submit disabled => snd (handleSubmit disabled st)
  | KeyDown key shiftKey disabled => snd (handleKeyDown key shiftKey disabled st)
  end.

Definition run (st : State) (events : list Event) : State :=
  fold_left step events st.

(** An attachment the two checks let through. *)
Definition validImage (img : Chat.ImageAttachment) : Prop :=
  Js.startsWith "image/" (Chat.type img) = true
  /\ (Chat.size img <= 5242880)%Z.

(** What every state of the input box satisfies. *)
Definition inputInvariant (st : State) : Prop :=
  Forall validImage (images st)
  /\ Forall (fun file => accepted file = true) (reading st).

End ChatInput.

(* ===================================================================== *)
(** ** [loadSystemPrompt]                                                 *)
(* ===================================================================== *)

Module SystemPrompt.

(** What [fetch("/prompt.txt")] and, for an ok response,
    [response.text()] come to. *)
Inductive Fetch : Type :=
| Ok (text : string)
| NotOk
| Throws.

Definition fallback : string := "You are Delfin Chatbot, a helpful AI assistant.".

(** What a call assigns to [systemPrompt] when its awaits are over. *)
Definition loaded (fetched : Fetch) : string :=
  match fetched with
  | Ok text => text
  | NotOk => fallback
  | Throws => fallback
  end.

(** The module variable [systemPrompt], the calls of [loadSystemPrompt]
    suspended at an [await] (each under its number), and the number of
    calls made so far. *)
Record State : Type :=
  { systemPrompt : option string; waiting : list nat; calls : nat }.

Definition initial : State :=
  {| systemPrompt := None; waiting := []; calls := 0 |}.

(** [loadSystemPrompt] is called, or the awaits of a suspended call
    settle. *)
Inductive Event : Type :=
| Call
| Settle (call : nat) (fetched : Fetch).

(** One event: the state after it and, when a call returns in it, the
    text that call returns.  A call that finds the variable set returns
    it at once; one that finds [null] is suspended at [await fetch], and
    only when its awaits have settled does it assign the variable and
    return what it then holds. *)
Definition step (st : State) (e : Event) : State * option string :=
  match e with
  | Call =>
      match systemPrompt st with
      | Some prompt =>
          ({| systemPrompt := Some prompt; waiting := waiting st;
              calls := S (calls st) |}, Some prompt)
      | None =>
          ({| systemPrompt := None; waiting := waiting st ++ [calls st];
              calls := S (calls st) |}, None)
      end
  | Settle call fetched =>
      if existsb (Nat.eqb call) (waiting st) then
        ({| systemPrompt := Some (loaded fetched);
            waiting := filter (fun c => negb (c =? call)) (waiting st);
            calls := calls st |}, Some (loaded fetched))
      else (st, None)
  end.

(** A sequence of events: the state after it and the texts returned, in
    the order the calls return. *)
Fixpoint run (st : State) (events : list Event) : State * list string :=
  match events with
  | [] => (st, [])
  | e :: rest =>
      let (st', out) := step st e in
      let (final, outs) := run st' rest in
      (final, match out with
              | Some prompt => prompt :: outs
              | None => outs
              end)
  end.

Definition isCall (e : Event) : bool :=
  match e with
  | Call => true
  | Settle _ _ => false
  end.

(** The suspended calls settle in the given order, each with the
    outcome listed beside it. *)
Definition settleAll (order : list (nat * Fetch)) : list Event :=
  map (fun cf => Settle (fst cf) (snd cf)) order.

End SystemPrompt.

(* ===================================================================== *)
(** ** The text of a well-formed OpenAI stream                            *)
(* ===================================================================== *)

(** One event of the stream as the server writes it: the payload on a
    [data: ] line. *)
Definition sseLine (payload : string) : string :=
  ("data: " ++ payload ++ String Js.LF "")%string.

(** The events of the payloads, one after the other. *)
Definition sseText (payloads : list string) : string :=
  fold_right (fun payload rest => (sseLine payload ++ rest)%string) "" payloads.

(** A payload without line feed that the loop turns into the fragment
    [content]. *)
Definition carries (JSON_parse : string -> option JSON)
    (payload : string) (content : JSON) : Prop :=
  ChatInput.hasChar Js.LF payload = false
  /\ payload <> "[DONE]"
  /\ exists parsed,
       JSON_parse payload = Some parsed
       /\ OpenAIProvider.deltaContent parsed = Some content
       /\ Json.truthy (Some content) = true.

(* ===================================================================== *)
(** ** Sample data                                                        *)
(* ===================================================================== *)

Module Sample.

(** An environment that only sets the Google GenAI key. *)
Definition env : Env :=
  {| VITE_LLM_PROVIDER := None; VITE_GENAI_KEY := Some "key";
     VITE_GENAI_MODEL := None; VITE_OPENAI_API_KEY := None;
     VITE_OPENAI_MODEL := None; VITE_OPENAI_BASE_URL := None |}.

(** An environment that sets nothing. *)
Definition bare : Env :=
  {| VITE_LLM_PROVIDER := None; VITE_GENAI_KEY := None;
     VITE_GENAI_MODEL := None; VITE_OPENAI_API_KEY := None;
     VITE_OPENAI_MODEL := None; VITE_OPENAI_BASE_URL := None |}.

Definition config (key : option string) : LLM.Config :=
  {| LLM.apiKey := key; LLM.model := None; LLM.baseURL := None |}.

Definition userTurn (text : string) : LLM.Message :=
  {| LLM.role := LLM.user; LLM.content := text; LLM.images := None |}.

(** A stand-in for [JSON.parse] that knows two payloads. *)
Definition parse (data : string) : option JSON :=
  if String.eqb data "{A}" then
    Some (JObject [("choices",
                    JArray [JObject [("delta", JObject [("content", JString "A")])]])])
  else if String.eqb data "{B}" then
    Some (JObject [("choices",
                    JArray [JObject [("delta", JObject [("content", JString "B")])]])])
  else None.

Definition line (s : string) : string := (s ++ String Js.LF "")%string.

End Sample.

(* ===================================================================== *)
(** ** Provider construction                                              *)
(* ===================================================================== *)

Lemma truthy_opt_false (k : option string) :
  Js.truthy_opt k = false <-> k = None \/ k = Some "".
Proof.
  destruct k as [[|c s]|]; simpl; split; intros H; auto;
    try discriminate; destruct H as [H|H]; discriminate.
Qed.

Lemma truthy_opt_true (k : option string) :
  Js.truthy_opt k = true <-> exists s, k = Some s /\ s <> "".
Proof.
  destruct k as [[|c s]|]; simpl; split; intros H; try discriminate.
  - destruct H as (s & [= <-] & Hs). now elim Hs.
  - exists (String c s). split; [reflexivity|discriminate].
  - reflexivity.
  - destruct H as (s & [=] & _).
Qed.

(** C9. A configuration whose [apiKey] is absent or empty makes both
    constructors throw at once; with a non-empty [apiKey] both succeed,
    the provider keeps the key, and [isConfigured()] is true. *)
Theorem C9_constructors_require_api_key (config : LLM.Config) :
  (LLM.apiKey config = None \/ LLM.apiKey config = Some "" ->
     GoogleGenAIProvider.new config
       = inl (Js.newError "Google GenAI API key is required")
     /\ OpenAIProvider.new config
       = inl (Js.newError "OpenAI API key is required"))
  /\ (forall key, LLM.apiKey config = Some key -> key <> "" ->
        (exists g, GoogleGenAIProvider.new config = inr g
                   /\ GoogleGenAIProvider.client_apiKey (GoogleGenAIProvider.client g) = key
                   /\ GoogleGenAIProvider.isConfigured g = true)
        /\ (exists o, OpenAIProvider.new config = inr o
                      /\ OpenAIProvider.apiKey o = key
                      /\ OpenAIProvider.isConfigured o = true)).
Proof.
  split.
  - intros H. apply truthy_opt_false in H.
    unfold GoogleGenAIProvider.new, OpenAIProvider.new. rewrite H. now split.
  - intros key Hkey Hne.
    assert (Ht : Js.truthy_opt (LLM.apiKey config) = true).
    { apply truthy_opt_true. now exists key. }
    unfold GoogleGenAIProvider.new, OpenAIProvider.new. rewrite Ht. simpl.
    rewrite Hkey. destruct key as [|c k]; [now elim Hne|]. simpl.
    split; eexists; (split; [reflexivity|]); now split.
Qed.

Lemma C9_constructors_require_api_key_witness :
  (GoogleGenAIProvider.new (Sample.config None)
     = inl (Js.newError "Google GenAI API key is required")
   /\ OpenAIProvider.new (Sample.config None)
     = inl (Js.newError "OpenAI API key is required"))
  /\ (exists o, OpenAIProvider.new (Sample.config (Some "sk")) = inr o
                /\ OpenAIProvider.apiKey o = "sk"
                /\ OpenAIProvider.isConfigured o = true).
Proof.
  split.
  - apply (C9_constructors_require_api_key (Sample.config None)). now left.
  - apply (C9_constructors_require_api_key (Sample.config (Some "sk"))) with (key := "sk").
    + reflexivity.
    + discriminate.
Defined.

(** The registry's factories are these constructors: creating the default
    provider from an environment without a key throws. *)
Lemma createFromEnvironment_without_key (env : Env) :
  VITE_LLM_PROVIDER env = None ->
  VITE_GENAI_KEY env = None ->
  LLMServiceFactory.createFromEnvironment env
    = inl (Js.newError "Google GenAI API key is required").
Proof.
  intros Hp Hk. unfold LLMServiceFactory.createFromEnvironment.
  rewrite Hp. simpl. unfold LLMServiceFactory.getConfigForProvider. simpl.
  rewrite Hk. reflexivity.
Qed.

(* ===================================================================== *)
(** ** The Google GenAI wire format                                       *)
(* ===================================================================== *)

Lemma toContent_role (prompt : string) (msg : LLM.Message) :
  GoogleGenAIProvider.role (GoogleGenAIProvider.toContent prompt msg)
  = match LLM.role msg with
    | LLM.user => "user"
    | LLM.assistant => "model"
    | LLM.system => "model"
    end.
Proof. unfold GoogleGenAIProvider.toContent. now destruct (LLM.role msg). Qed.

Lemma buildContents_cases (prompt : string) (messages : list LLM.Message) :
  GoogleGenAIProvider.buildContents prompt messages
  = (if MathRegex.detectMathContent (conversationText messages)
     then [GoogleGenAIProvider.createMathInstruction] else [])
    ++ map (GoogleGenAIProvider.toContent prompt) messages.
Proof.
  unfold GoogleGenAIProvider.buildContents.
  now destruct (MathRegex.detectMathContent _).
Qed.

(** C10. The Google GenAI provider sends a turn of role [user] as
    ["user"] and every other turn, [assistant] and [system] alike, as
    ["model"]; no element of the contents it builds has the role
    ["system"]; a turn without text and without images is kept, in its
    place, with an empty list of parts. *)
Theorem C10_google_roles_and_empty_turns
    (prompt : string) (messages : list LLM.Message) :
  (forall msg,
      GoogleGenAIProvider.role (GoogleGenAIProvider.toContent prompt msg)
      = if LLM.is_user (LLM.role msg) then "user" else "model")
  /\ Forall (fun c => GoogleGenAIProvider.role c = "user"
                      \/ GoogleGenAIProvider.role c = "model")
       (GoogleGenAIProvider.buildContents prompt messages)
  /\ Forall (fun c => GoogleGenAIProvider.role c <> "system")
       (GoogleGenAIProvider.buildContents prompt messages)
  /\ (forall before msg after,
        messages = before ++ msg :: after ->
        LLM.content msg = "" ->
        (LLM.images msg = None \/ LLM.images msg = Some []) ->
        exists injected,
          GoogleGenAIProvider.buildContents prompt messages
          = injected
            ++ map (GoogleGenAIProvider.toContent prompt) before
            ++ {| GoogleGenAIProvider.role :=
                    if LLM.is_user (LLM.role msg) then "user" else "model";
                  GoogleGenAIProvider.parts := [] |}
            :: map (GoogleGenAIProvider.toContent prompt) after).
Proof.
  assert (Hrole : forall msg,
      GoogleGenAIProvider.role (GoogleGenAIProvider.toContent prompt msg)
      = if LLM.is_user (LLM.role msg) then "user" else "model") by reflexivity.
  assert (Htwo : Forall (fun c => GoogleGenAIProvider.role c = "user"
                                  \/ GoogleGenAIProvider.role c = "model")
                   (GoogleGenAIProvider.buildContents prompt messages)).
  { rewrite buildContents_cases. apply Forall_app. split.
    - destruct (MathRegex.detectMathContent _); constructor;
        [now right | constructor].
    - apply Forall_map, Forall_forall. intros msg _. rewrite Hrole.
      destruct (LLM.is_user _); auto. }
  split; [exact Hrole|]. split; [exact Htwo|]. split.
  - eapply Forall_impl; [|exact Htwo].
    intros c [H|H]; rewrite H; discriminate.
  - intros before msg after -> Hc Hi.
    rewrite buildContents_cases. eexists. f_equal.
    rewrite map_app. simpl. do 2 f_equal.
    unfold GoogleGenAIProvider.toContent. rewrite Hc. simpl.
    destruct Hi as [-> | ->]; reflexivity.
Qed.

Lemma C10_google_roles_and_empty_turns_witness :
  exists injected,
    GoogleGenAIProvider.buildContents "P"
      [ {| LLM.role := LLM.system; LLM.content := ""; LLM.images := Some [] |};
        Sample.userTurn "hi" ]
    = injected
      ++ map (GoogleGenAIProvider.toContent "P") []
      ++ {| GoogleGenAIProvider.role := "model"; GoogleGenAIProvider.parts := [] |}
      :: map (GoogleGenAIProvider.toContent "P") [Sample.userTurn "hi"].
Proof.
  apply (C10_google_roles_and_empty_turns "P"
           [ {| LLM.role := LLM.system; LLM.content := ""; LLM.images := Some [] |};
             Sample.userTurn "hi" ]
           ) with (before := [])
                  (msg := {| LLM.role := LLM.system; LLM.content := "";
                             LLM.images := Some [] |}).
  - reflexivity.
  - reflexivity.
  - right. reflexivity.
Defined.

(* ===================================================================== *)
(** ** The hook: bookkeeping of suspended calls                           *)
(* ===================================================================== *)

Section HookFacts.

Import useChat.

Variable env : Env.

Lemma lookupTurn_app_fresh (t : nat) (turn : Turn) (ts : list (nat * Turn)) :
  Forall (fun e => fst e < t) ts ->
  lookupTurn t (ts ++ [(t, turn)]) = Some turn.
Proof.
  induction 1 as [|[k x] ts Hk _ IH]; simpl.
  - now rewrite Nat.eqb_refl.
  - simpl in Hk. destruct (Nat.eqb_spec k t); [lia|exact IH].
Qed.

Lemma lookupTurn_update (t : nat) (turn' : Turn) (ts : list (nat * Turn)) :
  lookupTurn t ts <> None ->
  lookupTurn t (map (fun e => if fst e =? t then (t, turn') else e) ts)
  = Some turn'.
Proof.
  induction ts as [|[k x] ts IH]; simpl; [congruence|].
  destruct (Nat.eqb_spec k t) as [->|Hne]; simpl.
  - now rewrite Nat.eqb_refl.
  - intros H. destruct (Nat.eqb_spec k t); [contradiction|auto].
Qed.

Lemma keysFresh_removeTurn (t n : nat) (ts : list (nat * Turn)) :
  Forall (fun e => fst e < n) ts ->
  Forall (fun e => fst e < n) (removeTurn t ts).
Proof.
  intros H. unfold removeTurn. apply Forall_forall. intros e He.
  apply filter_In in He. rewrite Forall_forall in H. now apply H.
Qed.

Lemma keysFresh_update (t n : nat) (turn' : Turn) (ts : list (nat * Turn)) :
  Forall (fun e => fst e < n) ts ->
  Forall (fun e => fst e < n)
    (map (fun e => if fst e =? t then (t, turn') else e) ts).
Proof.
  intros H. apply Forall_map. eapply Forall_impl; [|exact H].
  intros [k x]. simpl. destruct (Nat.eqb_spec k t) as [->|]; auto.
Qed.

Lemma keysFresh_tryCatchFinally (aid : string) (body : Hook -> Hook * Progress)
    (h : Hook) :
  keysFresh (fst (body h)) -> keysFresh (fst (tryCatchFinally aid body h)).
Proof.
  unfold tryCatchFinally. destruct (body h) as [h' [| |err]]; simpl; auto.
  unfold catchBlock. destruct (isAbortError err); auto.
Qed.

Lemma keysFresh_bodyStart (aid : string) (hist : list Chat.Message) (h : Hook) :
  keysFresh h -> keysFresh (fst (bodyStart env aid hist h)).
Proof.
  unfold bodyStart, getLLM, keysFresh. intros H.
  assert (Hs : forall turn h0, Forall (fun e => fst e < streams h0) (pending h0) ->
             Forall (fun e => fst e < streams (suspend turn h0)) (pending (suspend turn h0))).
  { intros turn h0 H0. simpl. apply Forall_app. split.
    - eapply Forall_impl; [|exact H0]. simpl. intros; lia.
    - constructor; [simpl; lia | constructor]. }
  destruct (llmProvider h); [now apply Hs|].
  destruct (LLMServiceFactory.createFromEnvironment env); simpl; auto.
  now apply Hs.
Qed.

Lemma keysFresh_step (h : Hook) (e : Event) :
  keysFresh h -> keysFresh (step env h e).
Proof.
  intros H. unfold step.
  destruct e as [content images uid aid now| |aid now|t chunk|t|t err]; simpl.
  - unfold sendMessage, sendMessageOf. destruct (sendGuard _ _ _); [exact H|].
    apply keysFresh_tryCatchFinally, keysFresh_bodyStart.
    unfold sendMessageBegin, replaceController. simpl.
    destruct (abortControllerRef h); exact H.
  - unfold clearChat. simpl. destruct (abortControllerRef h); exact H.
  - unfold retryLastMessage, retryLastMessageOf. destruct (lastUserMessage _); [|exact H].
    destruct (isLoading h); [exact H|].
    apply keysFresh_tryCatchFinally, keysFresh_bodyStart.
    unfold retryBegin, replaceController. simpl.
    destruct (abortControllerRef h); exact H.
  - unfold resume. destruct (lookupTurn t (pending h)) as [turn|]; [|exact H].
    apply keysFresh_tryCatchFinally. unfold bodyChunk.
    destruct (aborted h); simpl.
    + now apply keysFresh_removeTurn.
    + now apply keysFresh_update.
  - unfold resume. destruct (lookupTurn t (pending h)) as [turn|]; [|exact H].
    apply keysFresh_tryCatchFinally. simpl. now apply keysFresh_removeTurn.
  - unfold resume. destruct (lookupTurn t (pending h)) as [turn|]; [|exact H].
    apply keysFresh_tryCatchFinally. simpl. now apply keysFresh_removeTurn.
Qed.

Lemma keysFresh_run (events : list Event) (h : Hook) :
  keysFresh h -> keysFresh (run env h events).
Proof.
  revert h. induction events as [|e events IH]; intros h H; simpl; auto.
  apply IH. now apply keysFresh_step.
Qed.

Lemma reachable_keysFresh (h : Hook) : reachable env h -> keysFresh h.
Proof.
  intros [events ->]. apply keysFresh_run. constructor.
Qed.

Lemma reachable_step (h : Hook) (e : Event) :
  reachable env h -> reachable env (step env h e).
Proof.
  intros [events ->]. exists (events ++ [e]). unfold run.
  now rewrite fold_left_app.
Qed.

End HookFacts.

(* ===================================================================== *)
(** ** The hook: merging chunks                                           *)
(* ===================================================================== *)

Lemma append_nil_r (s : string) : (s ++ "")%string = s.
Proof. induction s as [|c s IH]; simpl; congruence. Qed.

Lemma append_assoc (a b c : string) :
  ((a ++ b) ++ c)%string = (a ++ (b ++ c))%string.
Proof. induction a as [|x a IH]; simpl; congruence. Qed.

Section MergeFacts.

Import useChat.

Lemma mergeInto_id (aid c : string) (m : Chat.Message) :
  Chat.id (mergeInto aid c m) = Chat.id m.
Proof. unfold mergeInto. now destruct (String.eqb _ _). Qed.

Lemma mergeInto_role (aid c : string) (m : Chat.Message) :
  Chat.role (mergeInto aid c m) = Chat.role m.
Proof. unfold mergeInto. now destruct (String.eqb _ _). Qed.

Lemma mergeInto_idem (aid c1 c2 : string) (m : Chat.Message) :
  mergeInto aid c2 (mergeInto aid c1 m) = mergeInto aid c2 m.
Proof.
  unfold mergeInto. destruct (String.eqb (Chat.id m) aid) eqn:E; simpl.
  - now rewrite E.
  - now rewrite E.
Qed.

Lemma map_mergeInto_idem (aid c1 c2 : string) (ms : list Chat.Message) :
  map (mergeInto aid c2) (map (mergeInto aid c1) ms) = map (mergeInto aid c2) ms.
Proof.
  rewrite map_map. apply map_ext. intros m. apply mergeInto_idem.
Qed.

Lemma mergeInto_loadingMessage (aid c : string) (now : Z) :
  mergeInto aid c (loadingMessage aid now) = assistantReply aid c now.
Proof. unfold mergeInto. simpl. now rewrite String.eqb_refl. Qed.

Lemma map_mergeInto_fresh (aid c : string) (ms : list Chat.Message) :
  Forall (fun m => Chat.id m <> aid) ms -> map (mergeInto aid c) ms = ms.
Proof.
  induction 1 as [|m ms Hm _ IH]; simpl; [reflexivity|].
  rewrite IH. f_equal. unfold mergeInto.
  now destruct (String.eqb_spec (Chat.id m) aid).
Qed.

Lemma filter_mergeInto (aid c : string) (ms : list Chat.Message) :
  filter (fun msg => negb (String.eqb (Chat.id msg) aid)) (map (mergeInto aid c) ms)
  = filter (fun msg => negb (String.eqb (Chat.id msg) aid)) ms.
Proof.
  induction ms as [|m ms IH]; simpl; [reflexivity|].
  rewrite mergeInto_id, IH.
  destruct (String.eqb (Chat.id m) aid) eqn:E; simpl; [reflexivity|].
  f_equal. unfold mergeInto. now rewrite E.
Qed.

Lemma filter_removes_id (aid : string) (ms : list Chat.Message) :
  Forall (fun m => Chat.id m <> aid)
    (filter (fun msg => negb (String.eqb (Chat.id msg) aid)) ms).
Proof.
  apply Forall_forall. intros m Hm. apply filter_In in Hm.
  destruct Hm as [_ Hm]. now destruct (String.eqb_spec (Chat.id m) aid).
Qed.

Lemma concatFragments_app (xs ys : list string) :
  concatFragments (xs ++ ys)
  = (concatFragments xs ++ concatFragments ys)%string.
Proof.
  induction xs as [|x xs IH]; simpl; [reflexivity|].
  now rewrite IH, append_assoc.
Qed.

Variable env : Env.

Lemma getLLM_configured (llm : LLMProvider) (h : Hook) :
  LLMServiceFactory.createFromEnvironment env = inr llm ->
  exists llm', getLLM env h = (inr llm', setLlmProvider (Some llm') h).
Proof.
  intros Henv. unfold getLLM. destruct h as [ms l e a [p|] ps n]; simpl.
  - now exists p.
  - rewrite Henv. now exists llm.
Qed.

(** A suspended call that no [clearChat] interrupts consumes a run of
    chunks: it stays suspended with the chunks appended to its
    accumulator, and from the first chunk on its message carries the
    accumulator. *)
Lemma run_chunks (t : nat) (chunks : list string) :
  forall (h : Hook) (turn : Turn),
    lookupTurn t (pending h) = Some turn ->
    aborted h = false ->
    let h' := run env h (map (StreamYield t) chunks) in
    lookupTurn t (pending h')
    = Some {| assistantMessageId := assistantMessageId turn;
              accumulatedContent :=
                (accumulatedContent turn ++ concatFragments chunks)%string;
              llmMessages := llmMessages turn |}
    /\ aborted h' = false
    /\ isLoading h' = isLoading h
    /\ error h' = error h
    /\ messages h'
       = match chunks with
         | [] => messages h
         | _ => map (mergeInto (assistantMessageId turn)
                       (accumulatedContent turn ++ concatFragments chunks))
                  (messages h)
         end.
Proof.
  induction chunks as [|c chunks IH]; intros h turn Hturn Hab h'; subst h'.
  - simpl. rewrite append_nil_r. destruct turn; simpl. auto.
  - set (turn' := {| assistantMessageId := assistantMessageId turn;
                     accumulatedContent := (accumulatedContent turn ++ c)%string;
                     llmMessages := llmMessages turn |}).
    set (h1 := setMessages (map (mergeInto (assistantMessageId turn)
                                   (accumulatedContent turn ++ c)))
                 (setPending
                    (map (fun e => if fst e =? t then (t, turn') else e)
                       (pending h)) h)).
    assert (Hstep : step env h (StreamYield t c) = h1).
    { unfold step. simpl. unfold resume. rewrite Hturn.
      unfold tryCatchFinally, bodyChunk. now rewrite Hab. }
    change (run env h (map (StreamYield t) (c :: chunks)))
      with (run env (step env h (StreamYield t c)) (map (StreamYield t) chunks)).
    rewrite Hstep.
    assert (Hturn' : lookupTurn t (pending h1) = Some turn').
    { simpl. apply lookupTurn_update. congruence. }
    assert (Hab' : aborted h1 = false) by exact Hab.
    destruct (IH h1 turn' Hturn' Hab') as (H1 & H2 & H3 & H4 & H5).
    rewrite H1, H2, H3, H4, H5. simpl.
    rewrite !append_assoc. repeat split; try reflexivity.
    destruct chunks as [|c' chunks]; simpl.
    + now rewrite append_nil_r.
    + now rewrite map_mergeInto_idem.
Qed.

End MergeFacts.

(* ===================================================================== *)
(** ** The hook: one turn from its start to its end                       *)
(* ===================================================================== *)

Section TurnFacts.

Import useChat.

Variable env : Env.

Lemma tryCatchFinally_suspended (aid : string) (body : Hook -> Hook * Progress)
    (h h1 : Hook) :
  tryCatchFinally aid body h = (h1, Suspended) -> body h = (h1, Suspended).
Proof.
  unfold tryCatchFinally. destruct (body h) as [h' [| |err]]; congruence.
Qed.

Lemma bodyStart_suspended (aid : string) (hist : list Chat.Message) (h h1 : Hook) :
  keysFresh h ->
  bodyStart env aid hist h = (h1, Suspended) ->
  messages h1 = messages h
  /\ isLoading h1 = isLoading h
  /\ error h1 = error h
  /\ abortControllerRef h1 = abortControllerRef h
  /\ streams h1 = S (streams h)
  /\ lookupTurn (streams h) (pending h1)
     = Some {| assistantMessageId := aid; accumulatedContent := "";
               llmMessages := map convertToLLMMessage hist |}.
Proof.
  intros Hk. unfold bodyStart, getLLM.
  destruct (llmProvider h) as [p|].
  - intros [= <-]. simpl. repeat split. now apply lookupTurn_app_fresh.
  - destruct (LLMServiceFactory.createFromEnvironment env); [discriminate|].
    intros [= <-]. simpl. repeat split. now apply lookupTurn_app_fresh.
Qed.

Lemma bodyStart_configured (llm : LLMProvider) (aid : string)
    (hist : list Chat.Message) (h : Hook) :
  LLMServiceFactory.createFromEnvironment env = inr llm ->
  exists h1, bodyStart env aid hist h = (h1, Suspended).
Proof.
  intros Henv. unfold bodyStart.
  destruct (getLLM_configured env llm h Henv) as [llm' ->]. eauto.
Qed.

Lemma replaceController_fields (h : Hook) :
  messages (replaceController h) = messages h
  /\ isLoading (replaceController h) = isLoading h
  /\ error (replaceController h) = error h
  /\ abortControllerRef (replaceController h) = Some false
  /\ pending (replaceController h) = pending h
  /\ streams (replaceController h) = streams h
  /\ llmProvider (replaceController h) = llmProvider h.
Proof. unfold replaceController. destruct (abortControllerRef h); now simpl. Qed.

(** What a call that got as far as its stream leaves behind. *)
Lemma turn_started (e : Event) (aid : string) (now : Z) (h h1 : Hook) :
  startsTurn e aid now ->
  keysFresh h ->
  perform env h e = (h1, Suspended) ->
  exists before hist,
    messages h1 = before ++ [loadingMessage aid now]
    /\ lookupTurn (streams h) (pending h1)
       = Some {| assistantMessageId := aid; accumulatedContent := "";
                 llmMessages := map convertToLLMMessage hist |}
    /\ aborted h1 = false
    /\ isLoading h1 = true
    /\ error h1 = None
    /\ isLoading h = false
    /\ ((exists content images uid,
           e = SendMessage content images uid aid now
           /\ sendGuard content images h = false
           /\ before = messages h ++ [userMessage content images uid now]
           /\ hist = messages h ++ [userMessage content images uid now])
        \/ (exists lastUser,
              e = RetryLastMessage aid now
              /\ lastUserMessage (messages h) = Some lastUser
              /\ before = dropTrailingAssistant (messages h)
              /\ hist = retryHistory (messages h) lastUser)).
Proof.
  intros [(content & images & uid & ->) | ->] Hk; simpl.
  - unfold sendMessage, sendMessageOf. destruct (sendGuard content images h) eqn:Hg; [discriminate|].
    intros H. apply tryCatchFinally_suspended in H.
    assert (Hl : isLoading h = false).
    { unfold sendGuard in Hg. apply orb_false_iff in Hg. tauto. }
    destruct (replaceController_fields
                (setError None (setIsLoading true
                   (setMessages (fun prev => prev ++ [userMessage content images uid now;
                                                      loadingMessage aid now]) h))))
      as (R1 & R2 & R3 & R4 & R5 & R6 & R7).
    apply bodyStart_suspended in H.
    + destruct H as (H1 & H2 & H3 & H4 & H5 & H6).
      unfold sendMessageBegin in *.
      rewrite R1 in H1. rewrite R2 in H2. rewrite R3 in H3. rewrite R4 in H4.
      rewrite R6 in H6. simpl in *.
      exists (messages h ++ [userMessage content images uid now]),
             (messages h ++ [userMessage content images uid now]).
      rewrite H1, H6, H2, H3. unfold aborted. rewrite H4.
      rewrite <- app_assoc. simpl. repeat split; auto.
      left. exists content, images, uid. auto.
    + unfold keysFresh, sendMessageBegin. rewrite R5, R6. exact Hk.
  - unfold retryLastMessage, retryLastMessageOf.
    destruct (lastUserMessage (messages h)) as [lastUser|] eqn:Hu; [|discriminate].
    destruct (isLoading h) eqn:Hl; [discriminate|].
    intros H. apply tryCatchFinally_suspended in H.
    destruct (replaceController_fields
                (setError None (setIsLoading true
                   (setMessages (fun prev => prev ++ [loadingMessage aid now])
                      (setMessages dropTrailingAssistant h)))))
      as (R1 & R2 & R3 & R4 & R5 & R6 & R7).
    apply bodyStart_suspended in H.
    + destruct H as (H1 & H2 & H3 & H4 & H5 & H6).
      unfold retryBegin in *.
      rewrite R1 in H1. rewrite R2 in H2. rewrite R3 in H3. rewrite R4 in H4.
      rewrite R6 in H6. simpl in *.
      exists (dropTrailingAssistant (messages h)), (retryHistory (messages h) lastUser).
      rewrite H1, H6, H2, H3. unfold aborted. rewrite H4.
      repeat split; auto.
      right. exists lastUser. auto.
    + unfold keysFresh, retryBegin. rewrite R5, R6. exact Hk.
Qed.

(** A stream that completes. *)
Lemma turn_completes (t : nat) (aid : string) (now : Z)
    (llmMessages : list LLM.Message) (before : list Chat.Message)
    (chunks : list string) (h1 : Hook) :
  messages h1 = before ++ [loadingMessage aid now] ->
  lookupTurn t (pending h1)
  = Some {| assistantMessageId := aid; accumulatedContent := "";
            llmMessages := llmMessages |} ->
  aborted h1 = false ->
  let final := run env h1 (streamEvents t {| items := chunks; ending := None |}) in
  messages final
  = map (mergeInto aid (finalContent chunks)) before
    ++ [assistantReply aid (finalContent chunks) now]
  /\ isLoading final = false
  /\ error final = error h1.
Proof.
  intros Hm Hturn Hab final. subst final.
  unfold streamEvents, run. rewrite fold_left_app. simpl.
  fold (run env h1 (map (StreamYield t) chunks)).
  destruct (run_chunks env t chunks h1 _ Hturn Hab) as (H1 & H2 & H3 & H4 & H5).
  simpl in H1, H5.
  set (h' := run env h1 (map (StreamYield t) chunks)) in *.
  unfold step. simpl. unfold resume. rewrite H1. simpl.
  repeat split; auto.
  rewrite H5.
  assert (Hall : map (mergeInto aid (finalContent chunks))
                   match chunks with
                   | [] => messages h1
                   | _ :: _ => map (mergeInto aid (concatFragments chunks)) (messages h1)
                   end
                 = map (mergeInto aid (finalContent chunks)) (messages h1)).
  { destruct chunks; [reflexivity|apply map_mergeInto_idem]. }
  change (if Js.truthy (concatFragments chunks)
          then concatFragments chunks else fallbackContent)
    with (finalContent chunks).
  rewrite Hall, Hm, map_app. simpl. now rewrite mergeInto_loadingMessage.
Qed.

(** A stream that throws. *)
Lemma turn_fails (t : nat) (aid : string) (now : Z)
    (llmMessages : list LLM.Message) (before : list Chat.Message)
    (chunks : list string) (err : Js.Thrown) (h1 : Hook) :
  messages h1 = before ++ [loadingMessage aid now] ->
  lookupTurn t (pending h1)
  = Some {| assistantMessageId := aid; accumulatedContent := "";
            llmMessages := llmMessages |} ->
  aborted h1 = false ->
  isAbortError err = false ->
  let final := run env h1 (streamEvents t {| items := chunks; ending := Some err |}) in
  messages final
  = filter (fun msg => negb (String.eqb (Chat.id msg) aid)) before
  /\ isLoading final = false
  /\ error final = Some (errorMessage err).
Proof.
  intros Hm Hturn Hab Herr final. subst final.
  unfold streamEvents, run. rewrite fold_left_app. simpl.
  fold (run env h1 (map (StreamYield t) chunks)).
  destruct (run_chunks env t chunks h1 _ Hturn Hab) as (H1 & H2 & H3 & H4 & H5).
  simpl in H1, H5.
  set (h' := run env h1 (map (StreamYield t) chunks)) in *.
  unfold step. simpl. unfold resume. rewrite H1. simpl.
  unfold catchBlock. rewrite Herr. simpl.
  repeat split; auto.
  rewrite H5.
  assert (Hall : filter (fun msg => negb (String.eqb (Chat.id msg) aid))
                   match chunks with
                   | [] => messages h1
                   | _ :: _ => map (mergeInto aid (concatFragments chunks)) (messages h1)
                   end
                 = filter (fun msg => negb (String.eqb (Chat.id msg) aid)) (messages h1)).
  { destruct chunks; [reflexivity|apply filter_mergeInto]. }
  rewrite Hall, Hm, filter_app. simpl. rewrite String.eqb_refl. simpl.
  apply app_nil_r.
Qed.

End TurnFacts.

(* ===================================================================== *)
(** ** The hook: [sendMessage]                                            *)
(* ===================================================================== *)

Section SendFacts.

Import useChat.

Lemma tryCatchFinally_never_throws (aid : string)
    (body : Hook -> Hook * Progress) (h : Hook) (err : Js.Thrown) :
  snd (tryCatchFinally aid body h) <> Threw err.
Proof.
  unfold tryCatchFinally. destruct (body h) as [h' [| |err']]; discriminate.
Qed.

(** No call of an action and no resumption of a suspended call ends by
    throwing: every value thrown inside is caught. *)
Lemma perform_never_throws (env : Env) (h : Hook) (e : Event) (err : Js.Thrown) :
  snd (perform env h e) <> Threw err.
Proof.
  destruct e as [content images uid aid now| |aid now|t chunk|t|t err']; simpl.
  - unfold sendMessage, sendMessageOf. destruct (sendGuard _ _ _); [discriminate|].
    apply tryCatchFinally_never_throws.
  - discriminate.
  - unfold retryLastMessage, retryLastMessageOf. destruct (lastUserMessage _); [|discriminate].
    destruct (isLoading h); [discriminate|]. apply tryCatchFinally_never_throws.
  - unfold resume. destruct (lookupTurn _ _); [|discriminate].
    apply tryCatchFinally_never_throws.
  - unfold resume. destruct (lookupTurn _ _); [|discriminate].
    apply tryCatchFinally_never_throws.
  - unfold resume. destruct (lookupTurn _ _); [|discriminate].
    apply tryCatchFinally_never_throws.
Qed.

Lemma sendGuard_false (content : string)
    (images : option (list Chat.ImageAttachment)) (h : Hook) :
  Js.trim content <> "" \/ (exists img rest, images = Some (img :: rest)) ->
  isLoading h = false ->
  sendGuard content images h = false.
Proof.
  intros Hin Hl. unfold sendGuard. rewrite Hl, orb_false_r.
  destruct Hin as [Hc | (img & rest & ->)].
  - destruct (Js.trim content); [now elim Hc|reflexivity].
  - simpl. apply andb_false_r.
Qed.

Lemma sendGuard_true (content : string)
    (images : option (list Chat.ImageAttachment)) (h : Hook) :
  (Js.trim content = "" /\ (images = None \/ images = Some []))
  \/ isLoading h = true ->
  sendGuard content images h = true.
Proof.
  unfold sendGuard. intros [[Hc Hi] | Hl].
  - rewrite Hc. destruct Hi as [-> | ->]; reflexivity.
  - rewrite Hl. apply orb_true_r.
Qed.

End SendFacts.

(* ===================================================================== *)
(** ** The hook: how a turn ends                                          *)
(* ===================================================================== *)

Section TurnClaims.

Import useChat.

(** C4. When the stream of a turn opened by [sendMessage] or
    [retryLastMessage] completes without having yielded a fragment, the
    assistant message of the turn, still the last of the list, has the
    content ["No response generated."], which is not the empty string,
    its [isLoading] flag is [false], and the hook is no longer loading. *)
Theorem C4_no_fragment_gives_fallback
    (env : Env) (e : Event) (aid : string) (now : Z) (h h1 : Hook) :
  startsTurn e aid now ->
  reachable env h ->
  perform env h e = (h1, Suspended) ->
  let final := run env h1 (streamEvents (streams h) {| items := []; ending := None |}) in
  exists before reply,
    messages h1 = before ++ [loadingMessage aid now]
    /\ messages final = map (mergeInto aid "No response generated.") before ++ [reply]
    /\ Chat.id reply = aid
    /\ Chat.role reply = Chat.assistant
    /\ Chat.content reply = "No response generated."
    /\ Chat.content reply <> ""
    /\ Chat.isLoading reply = Some false
    /\ isLoading final = false.
Proof.
  intros Hstart Hreach Hperf final.
  destruct (turn_started env e aid now h h1 Hstart
              (reachable_keysFresh env h Hreach) Hperf)
    as (before & hist & Hm & Hturn & Hab & _).
  destruct (turn_completes env (streams h) aid now _ before [] h1 Hm Hturn Hab)
    as (Hfinal & Hl & _).
  exists before, (assistantReply aid "No response generated." now).
  repeat split; auto. discriminate.
Qed.

Lemma C4_no_fragment_gives_fallback_witness :
  let h1 := step Sample.env init (SendMessage "hi" None "u1" "a1" 0%Z) in
  let final := run Sample.env h1 (streamEvents 0 {| items := []; ending := None |}) in
  exists before reply,
    messages h1 = before ++ [loadingMessage "a1" 0%Z]
    /\ messages final = map (mergeInto "a1" "No response generated.") before ++ [reply]
    /\ Chat.id reply = "a1"
    /\ Chat.role reply = Chat.assistant
    /\ Chat.content reply = "No response generated."
    /\ Chat.content reply <> ""
    /\ Chat.isLoading reply = Some false
    /\ isLoading final = false.
Proof.
  apply (C4_no_fragment_gives_fallback Sample.env
           (SendMessage "hi" None "u1" "a1" 0%Z) "a1" 0%Z init).
  - left. now exists "hi", None, "u1".
  - now exists [].
  - reflexivity.
Defined.

(** C5, as it is written, fails: a turn whose stream yields the single
    fragment [""] ends with the fallback text, not with the concatenation
    of its fragments. *)
Lemma C5_counterexample_empty_fragment :
  ~ (forall (env : Env) (e : Event) (aid : string) (now : Z) (h h1 : Hook)
            (chunks : list string),
        startsTurn e aid now ->
        reachable env h ->
        perform env h e = (h1, Suspended) ->
        chunks <> [] ->
        exists before,
          messages (run env h1
                      (streamEvents (streams h) {| items := chunks; ending := None |}))
          = before ++ [assistantReply aid (concatFragments chunks) now]).
Proof.
  intros H.
  destruct (H Sample.env (SendMessage "hi" None "u1" "a1" 0%Z) "a1" 0%Z init
              (step Sample.env init (SendMessage "hi" None "u1" "a1" 0%Z)) [""])
    as [before Hb].
  - left. now exists "hi", None, "u1".
  - now exists [].
  - reflexivity.
  - discriminate.
  - change (messages _)
      with ([userMessage "hi" None "u1" 0%Z]
            ++ [assistantReply "a1" "No response generated." 0%Z]) in Hb.
    apply app_inj_tail in Hb. destruct Hb as [_ Hb]. discriminate Hb.
Qed.

(** C5 (amended). When the fragments a turn's stream yields before it
    completes concatenate to a non-empty text, the assistant message of
    the turn ends with exactly that concatenation, in yield order; and
    already after the first fragment the message carries that fragment
    with [isLoading] cleared. *)
Theorem C5_fragments_are_concatenated
    (env : Env) (e : Event) (aid : string) (now : Z) (h h1 : Hook)
    (chunks : list string) :
  startsTurn e aid now ->
  reachable env h ->
  perform env h e = (h1, Suspended) ->
  concatFragments chunks <> "" ->
  let final :=
    run env h1 (streamEvents (streams h) {| items := chunks; ending := None |}) in
  exists before,
    messages h1 = before ++ [loadingMessage aid now]
    /\ messages final
       = map (mergeInto aid (concatFragments chunks)) before
         ++ [assistantReply aid (concatFragments chunks) now]
    /\ isLoading final = false
    /\ (forall first rest, chunks = first :: rest ->
          messages (step env h1 (StreamYield (streams h) first))
          = map (mergeInto aid first) before ++ [assistantReply aid first now]).
Proof.
  intros Hstart Hreach Hperf Hne final.
  destruct (turn_started env e aid now h h1 Hstart
              (reachable_keysFresh env h Hreach) Hperf)
    as (before & hist & Hm & Hturn & Hab & _).
  destruct (turn_completes env (streams h) aid now _ before chunks h1 Hm Hturn Hab)
    as (Hfinal & Hl & _).
  exists before. split; [exact Hm|]. split; [|split; [exact Hl|]].
  - subst final. rewrite Hfinal. unfold finalContent. simpl.
    destruct (concatFragments chunks); [now elim Hne|reflexivity].
  - intros first rest _.
    destruct (run_chunks env (streams h) [first] h1 _ Hturn Hab)
      as (_ & _ & _ & _ & H5).
    simpl in H5. rewrite append_nil_r in H5.
    change (run env h1 [StreamYield (streams h) first])
      with (step env h1 (StreamYield (streams h) first)) in H5.
    rewrite H5, Hm, map_app. simpl. now rewrite mergeInto_loadingMessage.
Qed.

Lemma C5_fragments_are_concatenated_witness :
  let h1 := step Sample.env init (SendMessage "hi" None "u1" "a1" 0%Z) in
  let final :=
    run Sample.env h1 (streamEvents 0 {| items := ["Hel"; "lo"]; ending := None |}) in
  exists before,
    messages h1 = before ++ [loadingMessage "a1" 0%Z]
    /\ messages final
       = map (mergeInto "a1" "Hello") before ++ [assistantReply "a1" "Hello" 0%Z]
    /\ isLoading final = false
    /\ (forall first rest, ["Hel"; "lo"] = first :: rest ->
          messages (step Sample.env h1 (StreamYield 0 first))
          = map (mergeInto "a1" first) before ++ [assistantReply "a1" first 0%Z]).
Proof.
  apply (C5_fragments_are_concatenated Sample.env
           (SendMessage "hi" None "u1" "a1" 0%Z) "a1" 0%Z init _ ["Hel"; "lo"]).
  - left. now exists "hi", None, "u1".
  - now exists [].
  - reflexivity.
  - discriminate.
Defined.

(** C6. When the stream of a turn throws an [Error] whose name is not
    ["AbortError"], after any number of fragments, the placeholder of the
    turn is removed from the message list (no message with its id is
    left, the others stay), [error] is the message of the thrown error,
    and the loading flag is cleared; the call itself, like every call and
    every resumption, does not end by throwing. *)
Theorem C6_stream_error_removes_placeholder
    (env : Env) (e : Event) (aid : string) (now : Z) (h h1 : Hook)
    (chunks : list string) (name message : string) :
  startsTurn e aid now ->
  reachable env h ->
  perform env h e = (h1, Suspended) ->
  name <> "AbortError" ->
  let events :=
    streamEvents (streams h)
      {| items := chunks; ending := Some (Js.ErrorObject name message) |} in
  let final := run env h1 events in
  (exists before,
     messages h1 = before ++ [loadingMessage aid now]
     /\ messages final
        = filter (fun msg => negb (String.eqb (Chat.id msg) aid)) before)
  /\ Forall (fun msg => Chat.id msg <> aid) (messages final)
  /\ error final = Some message
  /\ isLoading final = false
  /\ (forall h' ev err, snd (perform env h' ev) <> Threw err).
Proof.
  intros Hstart Hreach Hperf Hname events final.
  destruct (turn_started env e aid now h h1 Hstart
              (reachable_keysFresh env h Hreach) Hperf)
    as (before & hist & Hm & Hturn & Hab & _).
  assert (Herr : isAbortError (Js.ErrorObject name message) = false).
  { simpl. now apply String.eqb_neq. }
  destruct (turn_fails env (streams h) aid now _ before chunks _ h1
              Hm Hturn Hab Herr) as (Hfinal & Hl & He).
  split; [now exists before|]. split; [|split; [exact He|split; [exact Hl|]]].
  - subst final events. rewrite Hfinal. apply filter_removes_id.
  - intros h' ev err. apply perform_never_throws.
Qed.

Lemma C6_stream_error_removes_placeholder_witness :
  let h1 := step Sample.env init (SendMessage "hi" None "u1" "a1" 0%Z) in
  let final :=
    run Sample.env h1
      (streamEvents 0 {| items := ["par"];
                         ending := Some (Js.ErrorObject "Error" "openai Error: fetch failed") |}) in
  (exists before,
     messages h1 = before ++ [loadingMessage "a1" 0%Z]
     /\ messages final
        = filter (fun msg => negb (String.eqb (Chat.id msg) "a1")) before)
  /\ Forall (fun msg => Chat.id msg <> "a1") (messages final)
  /\ error final = Some "openai Error: fetch failed"
  /\ isLoading final = false
  /\ (forall h' ev err, snd (perform Sample.env h' ev) <> Threw err).
Proof.
  apply (C6_stream_error_removes_placeholder Sample.env
           (SendMessage "hi" None "u1" "a1" 0%Z) "a1" 0%Z init _ ["par"]
           "Error" "openai Error: fetch failed").
  - left. now exists "hi", None, "u1".
  - now exists [].
  - reflexivity.
  - discriminate.
Defined.

End TurnClaims.

(* ===================================================================== *)
(** ** The hook: [retryLastMessage]                                       *)
(* ===================================================================== *)

Section RetryFacts.

Import useChat.

Lemma role_cases (r : Chat.Role) : r = Chat.user \/ r = Chat.assistant.
Proof. destruct r; auto. Qed.

Lemma lastUserMessage_snoc (ms : list Chat.Message) (x : Chat.Message) :
  lastUserMessage (ms ++ [x])
  = if Chat.is_user (Chat.role x) then Some x else lastUserMessage ms.
Proof. unfold lastUserMessage. now rewrite rev_unit. Qed.

Lemma lastUserMessage_none (ms : list Chat.Message) :
  Forall (fun m => Chat.role m = Chat.assistant) ms ->
  lastUserMessage ms = None.
Proof.
  induction ms as [|x ms IH] using rev_ind; intros H; [reflexivity|].
  apply Forall_app in H. destruct H as [Hms Hx].
  rewrite lastUserMessage_snoc. inversion Hx as [|? ? Hr _]; subst.
  rewrite Hr. simpl. auto.
Qed.

(** The message [retryLastMessage] finds is the last one of role [user]. *)
Lemma lastUserMessage_split (ms : list Chat.Message) :
  (exists m, In m ms /\ Chat.role m = Chat.user) ->
  exists earlier lastUser later,
    ms = earlier ++ lastUser :: later
    /\ Chat.role lastUser = Chat.user
    /\ Forall (fun m => Chat.role m = Chat.assistant) later
    /\ lastUserMessage ms = Some lastUser.
Proof.
  induction ms as [|x ms IH] using rev_ind; intros (m & Hin & Hm).
  - destruct Hin.
  - rewrite lastUserMessage_snoc.
    destruct (role_cases (Chat.role x)) as [Hx|Hx]; rewrite Hx; simpl.
    + exists ms, x, []. repeat split; auto.
    + apply in_app_or in Hin. destruct Hin as [Hin|[<-|[]]]; [|congruence].
      destruct IH as (earlier & u & later & -> & Hu & Hlater & Hfind);
        [now exists m|].
      exists earlier, u, (later ++ [x]). rewrite <- app_assoc. simpl.
      repeat split; auto. apply Forall_app. split; auto.
Qed.

Lemma dropTrailingAssistant_snoc (before : list Chat.Message) (a : Chat.Message) :
  Chat.role a = Chat.assistant ->
  dropTrailingAssistant (before ++ [a]) = before.
Proof.
  intros Ha. unfold dropTrailingAssistant. rewrite rev_unit, Ha. simpl.
  apply removelast_last.
Qed.

Lemma differsFromLast_snoc (before : list Chat.Message) (a x : Chat.Message) :
  differsFromLast (before ++ [a]) x = negb (String.eqb (Chat.id x) (Chat.id a)).
Proof. unfold differsFromLast. now rewrite rev_unit. Qed.

Lemma retryHistory_snoc (before : list Chat.Message) (a lastUser : Chat.Message) :
  Chat.role a = Chat.assistant ->
  Forall (fun m => Chat.id m <> Chat.id a) before ->
  retryHistory (before ++ [a]) lastUser = before ++ [lastUser].
Proof.
  intros Ha Hids. unfold retryHistory. f_equal.
  rewrite (filter_ext _
             (fun msg => Chat.is_user (Chat.role msg)
                         || negb (String.eqb (Chat.id msg) (Chat.id a))))
    by (intros x; now rewrite differsFromLast_snoc).
  rewrite filter_app. simpl. rewrite Ha, String.eqb_refl. simpl.
  rewrite app_nil_r.
  induction Hids as [|m ms Hm _ IH]; simpl; [reflexivity|].
  destruct (String.eqb_spec (Chat.id m) (Chat.id a)); [contradiction|].
  simpl. rewrite orb_true_r. now f_equal.
Qed.

(** C8. When the last message is an assistant message, some message is
    a user message, no turn is in flight and the id of the last message
    is not the id of an earlier one, [retryLastMessage] replaces the last
    message by a new loading placeholder and hands the provider all the
    messages before it followed once more by the last user message; when
    no message is a user message the call changes nothing. *)
Theorem C8_retry_replaces_trailing_assistant
    (env : Env) (llm : LLMProvider) (h : Hook)
    (before : list Chat.Message) (a : Chat.Message) (aid : string) (now : Z) :
  (LLMServiceFactory.createFromEnvironment env = inr llm ->
   reachable env h ->
   messages h = before ++ [a] ->
   Chat.role a = Chat.assistant ->
   (exists m, In m (messages h) /\ Chat.role m = Chat.user) ->
   Forall (fun m => Chat.id m <> Chat.id a) before ->
   isLoading h = false ->
   exists earlier lastUser later,
     before = earlier ++ lastUser :: later
     /\ Chat.role lastUser = Chat.user
     /\ Forall (fun m => Chat.role m = Chat.assistant) later
     /\ messages (step env h (RetryLastMessage aid now))
        = before ++ [loadingMessage aid now]
     /\ isLoading (step env h (RetryLastMessage aid now)) = true
     /\ lookupTurn (streams h) (pending (step env h (RetryLastMessage aid now)))
        = Some {| assistantMessageId := aid; accumulatedContent := "";
                  llmMessages := map convertToLLMMessage (before ++ [lastUser]) |})
  /\ (Forall (fun m => Chat.role m = Chat.assistant) (messages h) ->
      retryLastMessage env aid now h = (h, Returned)).
Proof.
  split.
  - intros Henv Hreach Hm Ha (m & Hin & Hrole) Hids Hl.
    assert (Hbefore : exists m, In m before /\ Chat.role m = Chat.user).
    { exists m. split; [|exact Hrole]. rewrite Hm in Hin.
      apply in_app_or in Hin. destruct Hin as [Hin|[<-|[]]]; [exact Hin|congruence]. }
    destruct (lastUserMessage_split before Hbefore)
      as (earlier & u & later & Hsplit & Hu & Hlater & Hfind).
    assert (Hlast : lastUserMessage (messages h) = Some u).
    { rewrite Hm, lastUserMessage_snoc, Ha. exact Hfind. }
    assert (Hperf : exists h1, perform env h (RetryLastMessage aid now) = (h1, Suspended)).
    { simpl. unfold retryLastMessage, retryLastMessageOf. rewrite Hlast, Hl.
      destruct (bodyStart_configured env llm aid (retryHistory (messages h) u)
                  (retryBegin aid now h) Henv) as [h1 Hb].
      exists h1. unfold tryCatchFinally. now rewrite Hb. }
    destruct Hperf as [h1 Hperf].
    destruct (turn_started env (RetryLastMessage aid now) aid now h h1
                (or_intror eq_refl) (reachable_keysFresh env h Hreach) Hperf)
      as (before' & hist & H1 & H2 & _ & H4 & _ & _ & Hcase).
    destruct Hcase as [(c & i & uid & Heq & _) | (u' & _ & Hu' & -> & ->)];
      [discriminate|].
    assert (u' = u) by congruence. subst u'.
    unfold step. rewrite Hperf. simpl.
    rewrite Hm, dropTrailingAssistant_snoc in H1 by exact Ha.
    rewrite Hm, retryHistory_snoc in H2 by assumption.
    exists earlier, u, later. repeat split; auto.
  - intros Hall. unfold retryLastMessage, retryLastMessageOf.
    now rewrite (lastUserMessage_none _ Hall).
Qed.

Lemma C8_retry_replaces_trailing_assistant_witness :
  let h := run Sample.env init
             [SendMessage "hi" None "u1" "a1" 0%Z; StreamYield 0 "yo"; StreamDone 0] in
  (exists earlier lastUser later,
     [userMessage "hi" None "u1" 0%Z] = earlier ++ lastUser :: later
     /\ Chat.role lastUser = Chat.user
     /\ Forall (fun m => Chat.role m = Chat.assistant) later
     /\ messages (step Sample.env h (RetryLastMessage "a2" 1%Z))
        = [userMessage "hi" None "u1" 0%Z] ++ [loadingMessage "a2" 1%Z]
     /\ isLoading (step Sample.env h (RetryLastMessage "a2" 1%Z)) = true
     /\ lookupTurn (streams h) (pending (step Sample.env h (RetryLastMessage "a2" 1%Z)))
        = Some {| assistantMessageId := "a2"; accumulatedContent := "";
                  llmMessages :=
                    map convertToLLMMessage
                      ([userMessage "hi" None "u1" 0%Z] ++ [lastUser]) |})
  /\ retryLastMessage Sample.env "a2" 1%Z init = (init, Returned).
Proof.
  intros h. split.
  - apply (C8_retry_replaces_trailing_assistant Sample.env
             (GoogleGenAI
                {| GoogleGenAIProvider.client :=
                     {| GoogleGenAIProvider.client_apiKey := "key" |};
                   GoogleGenAIProvider.model := "gemini-2.5-flash" |})
             h [userMessage "hi" None "u1" 0%Z] (assistantReply "a1" "yo" 0%Z)
             "a2" 1%Z).
    + reflexivity.
    + now eexists.
    + reflexivity.
    + reflexivity.
    + exists (userMessage "hi" None "u1" 0%Z). split; [now left|reflexivity].
    + constructor; [discriminate|constructor].
    + reflexivity.
  - apply (C8_retry_replaces_trailing_assistant Sample.env
             (GoogleGenAI
                {| GoogleGenAIProvider.client :=
                     {| GoogleGenAIProvider.client_apiKey := "key" |};
                   GoogleGenAIProvider.model := "gemini-2.5-flash" |})
             init [] (assistantReply "a1" "yo" 0%Z) "a2" 1%Z).
    constructor.
Defined.

End RetryFacts.

(* ===================================================================== *)
(** ** The OpenAI stream: lines, the sentinel, bad payloads               *)
(* ===================================================================== *)

Section SplitFacts.

Lemma split_lines_nonempty (s : string) : Js.split_lines s <> [].
Proof.
  induction s as [|c s IH]; simpl; [discriminate|].
  destruct (Ascii.eqb c Js.LF); [discriminate|].
  destruct (Js.split_lines s); discriminate.
Qed.

Lemma removelast_cons2 {A : Type} (x y : A) (l : list A) :
  removelast (x :: y :: l) = x :: removelast (y :: l).
Proof. reflexivity. Qed.

Lemma last_cons2 {A : Type} (x y d : A) (l : list A) :
  last (x :: y :: l) d = last (y :: l) d.
Proof. reflexivity. Qed.

(** Splitting a text in two pieces: the unfinished last line of the
    first piece is continued by the second. *)
Lemma split_lines_app (a b : string) :
  Js.split_lines (a ++ b)
  = removelast (Js.split_lines a)
    ++ Js.split_lines (last (Js.split_lines a) "" ++ b).
Proof.
  induction a as [|c a IH].
  - reflexivity.
  - pose proof (split_lines_nonempty a) as Hne.
    change (String c a ++ b)%string with (String c (a ++ b)).
    cbn [Js.split_lines]. rewrite IH.
    destruct (Ascii.eqb c Js.LF) eqn:Ec.
    + destruct (Js.split_lines a) as [|l ls]; [contradiction|].
      rewrite removelast_cons2, last_cons2. reflexivity.
    + destruct (Js.split_lines a) as [|l [|x xs]]; [contradiction| |].
      * cbn [removelast last app].
        change (String c l ++ b)%string with (String c (l ++ b)).
        cbn [Js.split_lines]. now rewrite Ec.
      * rewrite !removelast_cons2, !last_cons2. reflexivity.
Qed.

(** The last element of a split contains no line feed. *)
Lemma split_lines_last (s : string) :
  Js.split_lines (last (Js.split_lines s) "") = [last (Js.split_lines s) ""].
Proof.
  induction s as [|c s IH]; [reflexivity|].
  pose proof (split_lines_nonempty s) as Hne.
  cbn [Js.split_lines]. destruct (Ascii.eqb c Js.LF) eqn:Ec.
  - destruct (Js.split_lines s) as [|l ls]; [contradiction|].
    now rewrite last_cons2.
  - destruct (Js.split_lines s) as [|l [|x xs]]; [contradiction| |].
    + cbn [last] in *. cbn [Js.split_lines]. now rewrite Ec, IH.
    + now rewrite last_cons2.
Qed.

Lemma removelast_app_nonempty {A : Type} (l1 l2 : list A) :
  l2 <> [] -> removelast (l1 ++ l2) = l1 ++ removelast l2.
Proof. intros H. now apply removelast_app. Qed.

Lemma or_else_pop (lines : list string) :
  lines <> [] ->
  Js.or_else (fst (Js.pop lines)) "" = last lines ""
  /\ snd (Js.pop lines) = removelast lines.
Proof.
  destruct lines as [|l ls]; [congruence|]. intros _. unfold Js.pop.
  cbn [fst snd Js.or_else]. split; [|reflexivity].
  now destruct (last (l :: ls) "").
Qed.

End SplitFacts.

Section OpenAIStream.

Import OpenAIProvider.

Variable JSON_parse : string -> option JSON.

Lemma processLines_app (l1 l2 : list string) :
  processLines JSON_parse (l1 ++ l2)
  = if snd (processLines JSON_parse l1)
    then (fst (processLines JSON_parse l1), true)
    else (fst (processLines JSON_parse l1) ++ fst (processLines JSON_parse l2),
          snd (processLines JSON_parse l2)).
Proof.
  induction l1 as [|line l1 IH]; simpl.
  - now destruct (processLines JSON_parse l2).
  - destruct (processLine JSON_parse line); simpl; auto.
    rewrite IH.
    destruct (processLines JSON_parse l1) as [o1 [|]]; simpl; auto.
Qed.

Lemma processLine_done : processLine JSON_parse "data: [DONE]" = Return.
Proof. reflexivity. Qed.

Lemma processLine_data (payload : string) :
  processLine JSON_parse ("data: " ++ payload)
  = if String.eqb payload "[DONE]" then Return
    else match JSON_parse payload with
         | None => Ignore
         | Some parsed =>
             match deltaContent parsed with
             | Some c => if Json.truthy (deltaContent parsed) then Yield c else Ignore
             | None => Ignore
             end
         end.
Proof.
  unfold processLine. simpl.
  assert (H : Js.startsWith "" payload = true) by now destruct payload.
  now rewrite H.
Qed.

(** The loop over the reads yields what the complete lines of the whole
    text yield: how the text is cut into reads does not matter. *)
Lemma readLoop_items (reads : list string) (more : option Js.Thrown) :
  forall buffer,
    Js.split_lines buffer = [buffer] ->
    items (readLoop JSON_parse buffer reads more)
    = yieldsOfText JSON_parse (buffer ++ received reads).
Proof.
  unfold yieldsOfText.
  induction reads as [|value reads IH]; intros buffer Hbuf.
  - simpl. now rewrite append_nil_r, Hbuf.
  - cbn [readLoop received fold_right].
    fold (received reads).
    rewrite <- append_assoc, (split_lines_app (buffer ++ value)).
    pose proof (split_lines_nonempty (buffer ++ value)) as Hne.
    destruct (or_else_pop _ Hne) as [Hpop1 Hpop2].
    destruct (Js.pop (Js.split_lines (buffer ++ value))) as [popped lines'].
    cbn [fst snd] in Hpop1, Hpop2. rewrite Hpop1, Hpop2.
    rewrite removelast_app_nonempty by apply split_lines_nonempty.
    rewrite processLines_app.
    destruct (processLines JSON_parse (removelast (Js.split_lines (buffer ++ value))))
      as [out [|]]; cbn [fst snd items]; [reflexivity|].
    now rewrite IH by apply split_lines_last.
Qed.

(** How the loop over the reads ends: by [return] as soon as a complete
    line is the sentinel, and otherwise as the reader ends. *)
Lemma readLoop_ends (reads : list string) (more : option Js.Thrown) :
  forall buffer,
    Js.split_lines buffer = [buffer] ->
    ending (readLoop JSON_parse buffer reads more)
    = if snd (processLines JSON_parse
                (removelast (Js.split_lines (buffer ++ received reads))))
      then None else more.
Proof.
  induction reads as [|value reads IH]; intros buffer Hbuf.
  - simpl. now rewrite append_nil_r, Hbuf.
  - cbn [readLoop received fold_right].
    fold (received reads).
    rewrite <- append_assoc, (split_lines_app (buffer ++ value)).
    pose proof (split_lines_nonempty (buffer ++ value)) as Hne.
    destruct (or_else_pop _ Hne) as [Hpop1 Hpop2].
    destruct (Js.pop (Js.split_lines (buffer ++ value))) as [popped lines'].
    cbn [fst snd] in Hpop1, Hpop2. rewrite Hpop1, Hpop2.
    rewrite removelast_app_nonempty by apply split_lines_nonempty.
    rewrite processLines_app.
    destruct (processLines JSON_parse (removelast (Js.split_lines (buffer ++ value))))
      as [out [|]]; cbn [fst snd ending]; [reflexivity|].
    now rewrite IH by apply split_lines_last.
Qed.

(** The whole stream is decided by the complete lines of the text
    received and by how the reader ends. *)
Lemma readLoop_whole (reads : list string) (more : option Js.Thrown) :
  readLoop JSON_parse "" reads more
  = {| items := fst (processLines JSON_parse
                       (removelast (Js.split_lines (received reads))));
       ending := if snd (processLines JSON_parse
                           (removelast (Js.split_lines (received reads))))
                 then None else more |}.
Proof.
  pose proof (readLoop_items reads more "" eq_refl) as Hi.
  pose proof (readLoop_ends reads more "" eq_refl) as He.
  unfold yieldsOfText in Hi. cbn [String.append] in Hi, He.
  destruct (readLoop JSON_parse "" reads more) as [i e].
  cbn [items ending] in Hi, He. now rewrite Hi, He.
Qed.

(** C7. In the OpenAI provider, whatever the reads the text arrives in,
    the fragments are those of the complete lines of the whole text.
    Where a line of the text is [data: [DONE]], the stream yields what
    the lines before it yield and nothing of what follows; once that
    line is complete (its line feed has arrived) the stream is over: it
    ends normally there, whatever lines follow and whatever the reader
    would do next, also when it would throw.  A line [data: ] whose
    payload is not the sentinel and does not parse yields nothing and
    lets the lines after it be processed as if it were not there: the
    stream of a text with such a line, fragments and ending, is the
    stream of the text without it. *)
Theorem C7_done_sentinel_and_bad_lines
    (reads : list string) (more : option Js.Thrown) :
  items (readLoop JSON_parse "" reads more)
  = yieldsOfText JSON_parse (received reads)
  /\ (forall lines_before lines_after,
        Js.split_lines (received reads)
        = lines_before ++ "data: [DONE]" :: lines_after ->
        items (readLoop JSON_parse "" reads more)
        = fst (processLines JSON_parse lines_before)
        /\ processLines JSON_parse (lines_before ++ "data: [DONE]" :: lines_after)
           = (fst (processLines JSON_parse lines_before), true)
        /\ (lines_after <> [] ->
            readLoop JSON_parse "" reads more
            = {| items := fst (processLines JSON_parse lines_before);
                 ending := None |}))
  /\ (forall payload lines_before lines_after,
        JSON_parse payload = None ->
        payload <> "[DONE]" ->
        processLine JSON_parse ("data: " ++ payload) = Ignore
        /\ processLines JSON_parse
             (lines_before ++ ("data: " ++ payload)%string :: lines_after)
           = processLines JSON_parse (lines_before ++ lines_after)
        /\ (forall reads',
              lines_after <> [] ->
              Js.split_lines (received reads)
              = lines_before ++ ("data: " ++ payload)%string :: lines_after ->
              Js.split_lines (received reads') = lines_before ++ lines_after ->
              readLoop JSON_parse "" reads more
              = readLoop JSON_parse "" reads' more)).
Proof.
  assert (Hdone : forall l1 l2,
             processLines JSON_parse (l1 ++ "data: [DONE]" :: l2)
             = (fst (processLines JSON_parse l1), true)).
  { intros l1 l2. rewrite processLines_app.
    destruct (processLines JSON_parse l1) as [o [|]]; cbn [fst snd]; [reflexivity|].
    cbn [processLines]. rewrite processLine_done. cbn [fst snd].
    now rewrite app_nil_r. }
  split; [apply (readLoop_items reads more ""); reflexivity|]. split.
  - intros lines_before lines_after Hsplit. split; [|split; [apply Hdone|]].
    + rewrite (readLoop_items reads more "") by reflexivity.
      unfold yieldsOfText. cbn [String.append]. rewrite Hsplit.
      destruct lines_after as [|l ls].
      * now rewrite removelast_last.
      * rewrite removelast_app_nonempty by discriminate.
        rewrite removelast_cons2, Hdone. reflexivity.
    + intros Hne. rewrite readLoop_whole, Hsplit.
      destruct lines_after as [|l ls]; [now elim Hne|].
      rewrite removelast_app_nonempty by discriminate.
      rewrite removelast_cons2, Hdone. reflexivity.
  - intros payload lines_before lines_after Hparse Hne.
    assert (Hline : processLine JSON_parse ("data: " ++ payload) = Ignore).
    { rewrite processLine_data, Hparse.
      now destruct (String.eqb_spec payload "[DONE]"). }
    assert (Hskip : forall l1 l2,
               processLines JSON_parse (l1 ++ ("data: " ++ payload)%string :: l2)
               = processLines JSON_parse (l1 ++ l2)).
    { intros l1 l2. rewrite !processLines_app. cbn [processLines].
      now rewrite Hline. }
    split; [exact Hline|]. split; [apply Hskip|].
    intros reads' Hla Hsplit Hsplit'.
    rewrite (readLoop_whole reads), (readLoop_whole reads'), Hsplit, Hsplit'.
    destruct lines_after as [|l ls]; [now elim Hla|].
    rewrite !removelast_app_nonempty by discriminate.
    rewrite removelast_cons2, Hskip. reflexivity.
Qed.

End OpenAIStream.

Lemma C7_done_sentinel_and_bad_lines_witness :
  let reads := [ Sample.line "data: {A}" ++ "data: [DO";
                 Sample.line "NE]" ++ Sample.line "data: {B}" ]%string in
  let reads_bad := [ Sample.line "data: {A}";
                     Sample.line "data: {oops" ++ Sample.line "data: {B}" ]%string in
  let reads_good := [ Sample.line "data: {A}" ++ Sample.line "data: {B}" ]%string in
  (items (OpenAIProvider.readLoop Sample.parse "" reads
            (Some (Js.newError "connection lost"))) = [JString "A"]
   /\ OpenAIProvider.processLines Sample.parse
        (["data: {A}"] ++ "data: [DONE]" :: ["data: {B}"; ""])
      = ([JString "A"], true)
   /\ (["data: {B}"; ""] <> [] ->
       OpenAIProvider.readLoop Sample.parse "" reads
         (Some (Js.newError "connection lost"))
       = {| items := [JString "A"]; ending := None |}))
  /\ (OpenAIProvider.processLine Sample.parse ("data: " ++ "{oops") = OpenAIProvider.Ignore
      /\ OpenAIProvider.processLines Sample.parse
           (["data: {A}"] ++ ("data: " ++ "{oops")%string :: ["data: {B}"; ""])
         = OpenAIProvider.processLines Sample.parse
             (["data: {A}"] ++ ["data: {B}"; ""])
      /\ OpenAIProvider.readLoop Sample.parse "" reads_bad None
         = OpenAIProvider.readLoop Sample.parse "" reads_good None).
Proof.
  intros reads reads_bad reads_good. split.
  - apply (C7_done_sentinel_and_bad_lines Sample.parse reads
             (Some (Js.newError "connection lost")))
      with (lines_before := ["data: {A}"]) (lines_after := ["data: {B}"; ""]).
    reflexivity.
  - destruct (C7_done_sentinel_and_bad_lines Sample.parse reads_bad None)
      as (_ & _ & H).
    destruct (H "{oops" ["data: {A}"] ["data: {B}"; ""] eq_refl) as (H1 & H2 & H3);
      [discriminate|].
    split; [exact H1|]. split; [exact H2|].
    apply H3; [discriminate|reflexivity|reflexivity].
Defined.

(* ===================================================================== *)
(** ** Math keyword detection and the injected turn                       *)
(* ===================================================================== *)

Section MathFacts.

Import MathRegex.

Lemma strip_prefix_app (p s : string) : strip_prefix p (p ++ s) = Some s.
Proof.
  induction p as [|c p IH]; simpl; [reflexivity|].
  now rewrite Ascii.eqb_refl.
Qed.

Lemma head_app (a b : string) :
  head (a ++ b) = match a with EmptyString => head b | String c _ => Some c end.
Proof. now destruct a. Qed.

(** The search reaches every position of the text. *)
Lemma search_app (pre s : string) (before : option ascii) :
  matches_here (last_char before pre) s = true ->
  search before (pre ++ s) = true.
Proof.
  revert before. induction pre as [|c pre IH]; intros before H; simpl in *.
  - destruct s; simpl in *; now rewrite H.
  - rewrite (IH (Some c) H). apply orb_true_r.
Qed.

(** The word [quadratic], standing between two characters that are not
    word characters (or at an end of the text), is detected. *)
Lemma quadratic_token_detected (pre post : string) :
  is_word (last_char None pre) = false ->
  is_word (head post) = false ->
  detectMathContent (pre ++ "quadratic" ++ post) = true.
Proof.
  intros Hpre Hpost. apply search_app. unfold matches_here.
  apply andb_true_iff. split.
  - unfold word_boundary. rewrite Hpre. reflexivity.
  - apply existsb_exists. exists "quadratic". split.
    + unfold mathKeywords. simpl. tauto.
    + unfold alternative_matches. rewrite strip_prefix_app.
      unfold word_boundary. rewrite Hpost. reflexivity.
Qed.

(** Whenever the detection succeeds the Google GenAI provider puts one
    turn in front of the converted history, and nothing otherwise. *)
Lemma google_injection (prompt : string) (messages : list LLM.Message) :
  GoogleGenAIProvider.buildContents prompt messages
  = if detectMathContent (conversationText messages)
    then GoogleGenAIProvider.createMathInstruction
         :: map (GoogleGenAIProvider.toContent prompt) messages
    else map (GoogleGenAIProvider.toContent prompt) messages.
Proof. reflexivity. Qed.

(** C3. On the history that consists of the user turn ["quadratic"] the
    keyword is detected and the Google GenAI provider puts exactly one
    turn in front of the converted history, but the only part of that
    turn is the empty text: it asks for nothing.  The OpenAI provider and
    the other copy of the Google GenAI provider put their LaTeX
    instruction in front of the same history.  On
    ["hello world"] nothing is injected; nor on ["^2"], although it is
    one of the keywords. *)
Theorem C3_injected_turn_has_empty_text (prompt : string) :
  let history := [Sample.userTurn "quadratic"] in
  detectMathContent (conversationText history) = true
  /\ GoogleGenAIProvider.buildContents prompt history
     = {| GoogleGenAIProvider.role := "model";
          GoogleGenAIProvider.parts := [GoogleGenAIProvider.Text ""] |}
       :: map (GoogleGenAIProvider.toContent prompt) history
  /\ OpenAIProvider.buildMessages history
     = {| OpenAIProvider.role := "system";
          OpenAIProvider.content :=
            OpenAIProvider.Plain "When providing mathematical expressions, always use LaTeX syntax with dollar signs: $expression$ for inline math and $$expression$$ for block math." |}
       :: map OpenAIProvider.toWireMessage history
  /\ (exists text,
        GoogleGenAIProviderPlain.buildContents history
        = {| GoogleGenAIProvider.role := "model";
             GoogleGenAIProvider.parts := [GoogleGenAIProvider.Text text] |}
          :: map GoogleGenAIProviderPlain.toContent history
        /\ text <> "")
  /\ GoogleGenAIProvider.buildContents prompt [Sample.userTurn "hello world"]
     = map (GoogleGenAIProvider.toContent prompt) [Sample.userTurn "hello world"]
  /\ GoogleGenAIProvider.buildContents prompt [Sample.userTurn "^2"]
     = map (GoogleGenAIProvider.toContent prompt) [Sample.userTurn "^2"].
Proof.
  assert (H1 : detectMathContent (conversationText [Sample.userTurn "quadratic"]) = true)
    by (vm_compute; reflexivity).
  assert (H2 : detectMathContent (conversationText [Sample.userTurn "hello world"]) = false)
    by (vm_compute; reflexivity).
  assert (H3 : detectMathContent (conversationText [Sample.userTurn "^2"]) = false)
    by (vm_compute; reflexivity).
  cbv zeta. unfold OpenAIProvider.buildMessages, GoogleGenAIProviderPlain.buildContents.
  rewrite !google_injection, H1, H2, H3.
  split; [reflexivity|]. split; [reflexivity|]. split; [reflexivity|].
  split; [|split; reflexivity].
  exists GoogleGenAIProviderPlain.mathInstructionText. split; [reflexivity|].
  discriminate.
Qed.

End MathFacts.

(* ===================================================================== *)
(** ** The loading indicator over a run of the hook                       *)
(* ===================================================================== *)

Section LoadingFacts.

Import useChat.

Lemma createFromEnvironment_error (env : Env) (err : Js.Thrown) :
  LLMServiceFactory.createFromEnvironment env = inl err ->
  isAbortError err = false.
Proof.
  unfold LLMServiceFactory.createFromEnvironment,
    LLMServiceFactory.getConfigForProvider.
  set (type := Js.or_else (VITE_LLM_PROVIDER env) "google-genai").
  destruct (String.eqb_spec type "google-genai") as [->|Hg].
  - unfold llmRegistry.create. simpl.
    unfold GoogleGenAIProvider.new.
    destruct (negb _); simpl; [|discriminate]. now intros [= <-].
  - destruct (String.eqb_spec type "openai") as [->|Ho].
    + unfold llmRegistry.create. simpl.
      unfold OpenAIProvider.new.
      destruct (negb _); simpl; [|discriminate]. now intros [= <-].
    + now intros [= <-].
Qed.

(** When the provider cannot be built, [sendMessage] ends in its [catch]
    within the same run: the placeholder it appended is removed again and
    the error is shown. *)
Lemma sendMessage_without_provider (env : Env) (err : Js.Thrown) (h : Hook)
    (content : string) (images : option (list Chat.ImageAttachment))
    (uid aid : string) (now : Z) :
  LLMServiceFactory.createFromEnvironment env = inl err ->
  llmProvider h = None ->
  sendGuard content images h = false ->
  let h' := step env h (SendMessage content images uid aid now) in
  messages h'
  = filter (fun msg => negb (String.eqb (Chat.id msg) aid))
      (messages h ++ [userMessage content images uid now])
  /\ error h' = Some (errorMessage err)
  /\ isLoading h' = false.
Proof.
  intros Henv Hp Hg h'. subst h'. unfold step. cbn [perform]. unfold sendMessage, sendMessageOf.
  rewrite Hg. clear Hg. destruct h as [ms l e a p ps n]. simpl in Hp. subst p.
  unfold tryCatchFinally, bodyStart, getLLM, catchBlock, sendMessageBegin,
    replaceController.
  destruct a; simpl; rewrite Henv; simpl;
    rewrite (createFromEnvironment_error env err Henv); simpl;
    rewrite !filter_app; simpl; rewrite String.eqb_refl; simpl;
    now destruct (String.eqb uid aid).
Qed.

(** The scenario of the specification: [2+2=?] contains no keyword, the
    provider streams ["4"], and the list ends with the user message and
    the settled reply. *)
Example scenario_two_plus_two :
  MathRegex.detectMathContent (conversationText [Sample.userTurn "2+2=?"]) = false
  /\ (let final :=
        run Sample.env init
          (SendMessage "2+2=?" None "u1" "a1" 0%Z
           :: streamEvents 0 {| items := ["4"]; ending := None |}) in
      messages final
      = [userMessage "2+2=?" None "u1" 0%Z; assistantReply "a1" "4" 0%Z]
      /\ isLoading final = false).
Proof. split; [|split]; vm_compute; reflexivity. Qed.

Lemma showsLoading_mergeInto (aid c : string) (msg : Chat.Message) :
  showsLoading msg = false -> showsLoading (mergeInto aid c msg) = false.
Proof. unfold mergeInto. now destruct (String.eqb _ _). Qed.

Lemma showsLoading_mergeInto_same (aid c : string) (msg : Chat.Message) :
  Chat.id msg = aid -> showsLoading (mergeInto aid c msg) = false.
Proof. intros <-. unfold mergeInto. now rewrite String.eqb_refl. Qed.

Lemma notLoading_map_mergeInto (aid c : string) (msgs : list Chat.Message) :
  Forall (fun msg => showsLoading msg = false) msgs ->
  Forall (fun msg => showsLoading msg = false) (map (mergeInto aid c) msgs).
Proof.
  intros H. apply Forall_map. eapply Forall_impl; [|exact H].
  intros msg. apply showsLoading_mergeInto.
Qed.

Lemma notLoading_filter (f : Chat.Message -> bool) (msgs : list Chat.Message) :
  Forall (fun msg => showsLoading msg = false) msgs ->
  Forall (fun msg => showsLoading msg = false) (filter f msgs).
Proof.
  intros H. apply Forall_forall. intros x Hx. apply filter_In in Hx.
  rewrite Forall_forall in H. now apply H.
Qed.

Lemma notLoading_dropTrailingAssistant (msgs : list Chat.Message) :
  Forall (fun msg => showsLoading msg = false) msgs ->
  Forall (fun msg => showsLoading msg = false) (dropTrailingAssistant msgs).
Proof.
  intros H. unfold dropTrailingAssistant.
  destruct (rev msgs) as [|lastMsg rest] eqn:E; [exact H|].
  destruct (Chat.is_assistant _); [|exact H].
  assert (Hne : msgs <> []) by (intros ->; discriminate).
  rewrite (app_removelast_last lastMsg Hne) in H.
  now apply Forall_app in H.
Qed.

Lemma loadingCount_notLoading (msgs : list Chat.Message) :
  Forall (fun msg => showsLoading msg = false) msgs -> loadingCount msgs = 0.
Proof.
  unfold loadingCount. induction 1 as [|m ms Hm _ IH]; simpl; [reflexivity|].
  now rewrite Hm.
Qed.

Lemma loadingCount_app (xs ys : list Chat.Message) :
  loadingCount (xs ++ ys) = loadingCount xs + loadingCount ys.
Proof. unfold loadingCount. now rewrite filter_app, length_app. Qed.

(** The invariant of quiet runs gives the property of the message list. *)
Lemma turnInvariant_loadingOnlyLast (h : Hook) :
  turnInvariant h -> loadingOnlyLast (messages h).
Proof.
  intros [_ H]. unfold loadingOnlyLast. destruct (isLoading h).
  - destruct H as (t & turn & before & m & _ & -> & _ & Hb).
    rewrite removelast_last, loadingCount_app, (loadingCount_notLoading _ Hb).
    split; [|exact Hb]. unfold loadingCount. simpl.
    destruct (showsLoading m); simpl; lia.
  - destruct H as [_ H]. rewrite (loadingCount_notLoading _ H). split; [lia|].
    destruct (messages h) as [|x xs] using rev_ind; [constructor|].
    rewrite removelast_last. now apply Forall_app in H.
Qed.

Lemma turnInvariant_start (env : Env) (aid : string) (now : Z)
    (hist before : list Chat.Message) (h0 : Hook) :
  pending h0 = [] ->
  messages h0 = before ++ [loadingMessage aid now] ->
  aborted h0 = false ->
  isLoading h0 = true ->
  Forall (fun msg => showsLoading msg = false) before ->
  turnInvariant (fst (tryCatchFinally aid (bodyStart env aid hist) h0)).
Proof.
  intros Hp Hm Hab Hl Hb. unfold tryCatchFinally, bodyStart, getLLM.
  assert (Hsusp : forall h1, pending h1 = [] -> messages h1 = messages h0 ->
                    aborted h1 = false -> isLoading h1 = true ->
                    forall turn, assistantMessageId turn = aid ->
                    turnInvariant (suspend turn h1)).
  { intros h1 Hp1 Hm1 Hab1 Hl1 turn Hid. split; [exact Hab1|].
    simpl. rewrite Hl1. exists (streams h1), turn, before, (loadingMessage aid now).
    rewrite Hp1, Hm1, Hm, Hid. auto. }
  assert (Hfail : forall err h1, pending h1 = [] -> messages h1 = messages h0 ->
                    LLMServiceFactory.createFromEnvironment env = inl err ->
                    turnInvariant (finallyBlock (catchBlock aid err h1))).
  { intros err h1 Hp1 Hm1 Herr. unfold catchBlock.
    rewrite (createFromEnvironment_error env err Herr).
    split; [reflexivity|]. simpl. split; [exact Hp1|].
    rewrite Hm1, Hm, filter_app. simpl. rewrite String.eqb_refl. simpl.
    rewrite app_nil_r. now apply notLoading_filter. }
  destruct (llmProvider h0) as [p|] eqn:Ep; simpl.
  - now apply Hsusp.
  - destruct (LLMServiceFactory.createFromEnvironment env) as [err|llm] eqn:Ee; simpl.
    + now apply Hfail.
    + now apply Hsusp.
Qed.

Lemma turnInvariant_step (env : Env) (h : Hook) (e : Event) :
  quiet e = true -> turnInvariant h -> turnInvariant (step env h e).
Proof.
  intros Hq [Hab Hinv]. unfold step.
  destruct e as [content images uid aid now| |aid now|t chunk|t|t err];
    try discriminate; simpl.
  - (* sendMessage *)
    unfold sendMessage, sendMessageOf. destruct (sendGuard content images h) eqn:Hg;
      [now split|].
    unfold sendGuard in Hg. apply orb_false_iff in Hg. destruct Hg as [_ Hl].
    rewrite Hl in Hinv. destruct Hinv as [Hp Hms].
    destruct (replaceController_fields
                (setError None (setIsLoading true
                   (setMessages (fun prev => prev ++ [userMessage content images uid now;
                                                      loadingMessage aid now]) h))))
      as (R1 & R2 & R3 & R4 & R5 & R6 & R7).
    apply turnInvariant_start
      with (now := now) (before := messages h ++ [userMessage content images uid now]);
      unfold sendMessageBegin.
    + now rewrite R5.
    + rewrite R1. simpl. now rewrite <- app_assoc.
    + unfold aborted. now rewrite R4.
    + now rewrite R2.
    + apply Forall_app. split; [exact Hms|]. now repeat constructor.
  - (* retryLastMessage *)
    unfold retryLastMessage, retryLastMessageOf. destruct (lastUserMessage (messages h));
      [|now split].
    destruct (isLoading h) eqn:Hl;
      [split; [exact Hab|simpl; rewrite Hl; exact Hinv]|].
    destruct Hinv as [Hp Hms].
    destruct (replaceController_fields
                (setError None (setIsLoading true
                   (setMessages (fun prev => prev ++ [loadingMessage aid now])
                      (setMessages dropTrailingAssistant h)))))
      as (R1 & R2 & R3 & R4 & R5 & R6 & R7).
    apply turnInvariant_start
      with (now := now) (before := dropTrailingAssistant (messages h));
      unfold retryBegin.
    + now rewrite R5.
    + now rewrite R1.
    + unfold aborted. now rewrite R4.
    + now rewrite R2.
    + now apply notLoading_dropTrailingAssistant.
  - (* a chunk *)
    unfold resume. destruct (lookupTurn t (pending h)) as [turn|] eqn:Ht;
      [|now split].
    destruct (isLoading h) eqn:Hl; [|destruct Hinv as [Hp _]; now rewrite Hp in Ht].
    destruct Hinv as (t0 & turn0 & before & m & Hp & Hm & Hid & Hb).
    rewrite Hp in Ht. simpl in Ht.
    destruct (Nat.eqb_spec t0 t) as [->|]; [|discriminate].
    injection Ht as ->.
    unfold tryCatchFinally, bodyChunk. rewrite Hab. simpl.
    split; [exact Hab|]. simpl. rewrite Hl.
    eexists t, _, (map _ before), _. rewrite Hp, Hm, map_app. simpl.
    rewrite Nat.eqb_refl. repeat split.
    + now rewrite mergeInto_id.
    + now apply notLoading_map_mergeInto.
  - (* the stream completes *)
    unfold resume. destruct (lookupTurn t (pending h)) as [turn|] eqn:Ht;
      [|now split].
    destruct (isLoading h) eqn:Hl; [|destruct Hinv as [Hp _]; now rewrite Hp in Ht].
    destruct Hinv as (t0 & turn0 & before & m & Hp & Hm & Hid & Hb).
    rewrite Hp in Ht. simpl in Ht.
    destruct (Nat.eqb_spec t0 t) as [->|]; [|discriminate].
    injection Ht as ->.
    unfold tryCatchFinally, bodyDone. simpl.
    split; [reflexivity|]. simpl. rewrite Hp, Hm, map_app. simpl.
    rewrite Nat.eqb_refl. simpl. split; [reflexivity|].
    apply Forall_app. split.
    + now apply notLoading_map_mergeInto.
    + constructor; [now apply showsLoading_mergeInto_same|constructor].
  - (* the stream throws *)
    unfold resume. destruct (lookupTurn t (pending h)) as [turn|] eqn:Ht;
      [|now split].
    destruct (isLoading h) eqn:Hl; [|destruct Hinv as [Hp _]; now rewrite Hp in Ht].
    destruct Hinv as (t0 & turn0 & before & m & Hp & Hm & Hid & Hb).
    rewrite Hp in Ht. simpl in Ht.
    destruct (Nat.eqb_spec t0 t) as [->|]; [|discriminate].
    injection Ht as ->.
    simpl in Hq. apply negb_true_iff in Hq.
    unfold tryCatchFinally, bodyThrow, catchBlock. simpl. rewrite Hq.
    split; [reflexivity|]. simpl. rewrite Hp, Hm, filter_app. simpl.
    rewrite Nat.eqb_refl, Hid, String.eqb_refl. simpl.
    split; [reflexivity|]. rewrite app_nil_r. now apply notLoading_filter.
Qed.

(** Along a run without [clearChat] and without abort errors, at most one
    message shows the loading indicator, and only the last one may. *)
Lemma quiet_run_loadingOnlyLast (env : Env) (events : list Event) :
  forallb quiet events = true ->
  loadingOnlyLast (messages (run env init events)).
Proof.
  intros Hq. apply turnInvariant_loadingOnlyLast.
  assert (H : forall h, turnInvariant h -> turnInvariant (run env h events)).
  { induction events as [|e events IH]; intros h Hh; [exact Hh|].
    simpl in Hq. apply andb_true_iff in Hq. destruct Hq as [He Hes].
    apply (IH Hes). now apply turnInvariant_step. }
  apply H. split; [reflexivity|]. simpl. split; [reflexivity|constructor].
Qed.

(** C2. A run in which [clearChat] is called during a turn and the next
    [sendMessage] comes before the cleared turn's stream ends: the end of
    that stream clears the loading flag of the hook while the new turn is
    still waiting, a third [sendMessage] is accepted, and the list then
    holds two loading messages, the first of which is not the last
    message.  Up to the third call the list has at most one. *)
Theorem C2_two_loading_messages_after_clear
    : let events :=
        [ SendMessage "a" None "u1" "a1" 0%Z;
          ClearChat;
          SendMessage "b" None "u2" "a2" 1%Z;
          StreamDone 0 ] in
      let h := run Sample.env init events in
      let h' := step Sample.env h (SendMessage "c" None "u3" "a3" 2%Z) in
      reachable Sample.env h'
      /\ messages h = [userMessage "b" None "u2" 1%Z; loadingMessage "a2" 1%Z]
      /\ isLoading h = false
      /\ loadingCount (messages h) = 1
      /\ messages h'
         = [ userMessage "b" None "u2" 1%Z; loadingMessage "a2" 1%Z;
             userMessage "c" None "u3" 2%Z; loadingMessage "a3" 2%Z ]
      /\ loadingCount (messages h') = 2.
Proof.
  intros events h h'. split; [|repeat split; vm_compute; reflexivity].
  exists (events ++ [SendMessage "c" None "u3" "a3" 2%Z]).
  vm_compute. reflexivity.
Qed.

End LoadingFacts.

(* ===================================================================== *)
(** ** [sendMessage]: what a call appends                                 *)
(* ===================================================================== *)

Section SendClaim.

Import useChat.

Variable env : Env.

Lemma getLLM_sendMessageBegin (content : string)
    (images : option (list Chat.ImageAttachment)) (uid aid : string) (now : Z)
    (h : Hook) :
  fst (getLLM env (sendMessageBegin content images uid aid now h))
  = fst (getLLM env h).
Proof.
  unfold getLLM, sendMessageBegin.
  destruct (replaceController_fields
              (setError None (setIsLoading true
                 (setMessages
                    (fun prev => prev ++ [userMessage content images uid now;
                                          loadingMessage aid now]) h))))
    as (_ & _ & _ & _ & _ & _ & ->).
  cbn [llmProvider setError setIsLoading setMessages].
  destruct (llmProvider h); [reflexivity|].
  now destruct (LLMServiceFactory.createFromEnvironment env).
Qed.

Lemma getLLM_fields (h : Hook) :
  let h' := snd (getLLM env h) in
  messages h' = messages h /\ isLoading h' = isLoading h /\ error h' = error h
  /\ pending h' = pending h /\ streams h' = streams h
  /\ abortControllerRef h' = abortControllerRef h.
Proof.
  unfold getLLM. destruct (llmProvider h); [now simpl|].
  destruct (LLMServiceFactory.createFromEnvironment env); now simpl.
Qed.

Lemma getLLM_error (h : Hook) (err : Js.Thrown) :
  fst (getLLM env h) = inl err -> isAbortError err = false.
Proof.
  unfold getLLM. destruct (llmProvider h); [discriminate|].
  destruct (LLMServiceFactory.createFromEnvironment env) as [e|llm] eqn:E;
    [|discriminate].
  intros [= <-]. exact (createFromEnvironment_error env e E).
Qed.

Lemma turnInFlight_suspend (turn : Turn) (h : Hook) :
  turnInFlight (suspend turn h) = true.
Proof. unfold turnInFlight, suspend. simpl. now destruct (pending h). Qed.

Lemma tryCatchFinally_flag (aid : string) (body : Hook -> Hook * Progress)
    (h : Hook) :
  (forall h', body h = (h', Suspended) -> turnInFlight h' = true) ->
  isLoading (fst (tryCatchFinally aid body h)) = true ->
  turnInFlight (fst (tryCatchFinally aid body h)) = true.
Proof.
  intros Hs. unfold tryCatchFinally.
  destruct (body h) as [h' [| |err]]; cbn [fst].
  - intros _. now apply Hs.
  - discriminate.
  - discriminate.
Qed.

Lemma bodyStart_flag (aid : string) (hist : list Chat.Message) (h h' : Hook) :
  bodyStart env aid hist h = (h', Suspended) -> turnInFlight h' = true.
Proof.
  unfold bodyStart. destruct (getLLM env h) as [[err|llm] h0]; [discriminate|].
  intros [= <-]. apply turnInFlight_suspend.
Qed.

(** The loading flag is on only while a call is suspended on a stream,
    whatever the renders the calls are made through. *)
Lemma performOf_flag (seen h : Hook) (e : Event) :
  (isLoading h = true -> turnInFlight h = true) ->
  isLoading (fst (performOf env seen h e)) = true ->
  turnInFlight (fst (performOf env seen h e)) = true.
Proof.
  intros Hinv.
  destruct e as [content images uid aid now| |aid now|t chunk|t|t err];
    cbn [performOf].
  - unfold sendMessageOf. destruct (sendGuard content images seen); [exact Hinv|].
    apply tryCatchFinally_flag. intros h'. apply bodyStart_flag.
  - discriminate.
  - unfold retryLastMessageOf. destruct (lastUserMessage (messages seen));
      [|exact Hinv].
    destruct (isLoading seen); [exact Hinv|].
    apply tryCatchFinally_flag. intros h'. apply bodyStart_flag.
  - unfold resume. destruct (lookupTurn t (pending h)) as [turn|] eqn:Ht;
      [|exact Hinv].
    apply tryCatchFinally_flag. intros h'. unfold bodyChunk.
    destruct (aborted h); [discriminate|]. intros [= <-].
    unfold turnInFlight. cbn [pending setMessages setPending].
    destruct (pending h); [discriminate|reflexivity].
  - unfold resume. destruct (lookupTurn t (pending h)) as [turn|];
      [|exact Hinv].
    apply tryCatchFinally_flag. intros h'. unfold bodyDone. discriminate.
  - unfold resume. destruct (lookupTurn t (pending h)) as [turn|];
      [|exact Hinv].
    apply tryCatchFinally_flag. intros h'. unfold bodyThrow. discriminate.
Qed.

Lemma play_flag (actions : list Action) :
  forall c,
    (isLoading (hook c) = true -> turnInFlight (hook c) = true) ->
    isLoading (hook (play env c actions)) = true ->
    turnInFlight (hook (play env c actions)) = true.
Proof.
  induction actions as [|a actions IH]; intros c Hc; [exact Hc|].
  cbn [play fold_left]. apply IH. destruct a as [|e]; cbn [act hook].
  - exact Hc.
  - now apply performOf_flag.
Qed.

(** An accepted call whose provider is there is suspended at its
    stream with the two messages appended. *)
Lemma sendMessageOf_suspended (seen h : Hook) (content : string)
    (images : option (list Chat.ImageAttachment)) (uid aid : string) (now : Z)
    (llm : LLMProvider) :
  sendGuard content images seen = false ->
  fst (getLLM env h) = inr llm ->
  sendMessageOf env seen content images uid aid now h
  = (suspend {| assistantMessageId := aid; accumulatedContent := "";
                llmMessages :=
                  map convertToLLMMessage
                    (messages seen ++ [userMessage content images uid now]) |}
       (snd (getLLM env (sendMessageBegin content images uid aid now h))),
     Suspended).
Proof.
  intros Hg Hllm. unfold sendMessageOf. rewrite Hg.
  unfold tryCatchFinally, bodyStart.
  rewrite <- (getLLM_sendMessageBegin content images uid aid now h) in Hllm.
  destruct (getLLM env (sendMessageBegin content images uid aid now h))
    as [[err|llm'] h0]; [discriminate|reflexivity].
Qed.

Lemma sendMessageBegin_fields (content : string)
    (images : option (list Chat.ImageAttachment)) (uid aid : string) (now : Z)
    (h : Hook) :
  let h' := sendMessageBegin content images uid aid now h in
  messages h' = messages h ++ [userMessage content images uid now;
                               loadingMessage aid now]
  /\ isLoading h' = true
  /\ error h' = None
  /\ pending h' = pending h
  /\ streams h' = streams h.
Proof.
  unfold sendMessageBegin.
  destruct (replaceController_fields
              (setError None (setIsLoading true
                 (setMessages
                    (fun prev => prev ++ [userMessage content images uid now;
                                          loadingMessage aid now]) h))))
    as (-> & -> & -> & _ & -> & -> & _).
  now repeat split.
Qed.

(** C1, as it is written, fails in both halves.  Without a usable
    provider configuration an accepted call made while no turn is in
    flight leaves one message appended, the user message, not two.  And
    after [clearChat] has been called during a turn and that turn's
    stream has ended, a call made while the next turn is in flight is
    accepted and appends two messages. *)
Lemma C1_counterexample_no_provider_and_cleared_turn :
  ~ (forall (env : Env) (h : Hook) (content : string)
            (images : option (list Chat.ImageAttachment))
            (uid aid : string) (now : Z),
        reachable env h ->
        Js.trim content <> "" \/ (exists img rest, images = Some (img :: rest)) ->
        turnInFlight h = false ->
        exists u a,
          messages (step env h (SendMessage content images uid aid now))
          = messages h ++ [u; a]
          /\ Chat.role u = Chat.user
          /\ Chat.role a = Chat.assistant)
  /\ ~ (forall (env : Env) (h : Hook) (content : string)
               (images : option (list Chat.ImageAttachment))
               (uid aid : string) (now : Z),
           reachable env h ->
           (Js.trim content = "" /\ (images = None \/ images = Some []))
           \/ turnInFlight h = true ->
           messages (step env h (SendMessage content images uid aid now))
           = messages h).
Proof.
  split.
  - intros H.
    destruct (H Sample.bare init "hi" None "u1" "a1" 0%Z) as (u & a & Hm & _).
    + now exists [].
    + left. discriminate.
    + reflexivity.
    + apply (f_equal (@length Chat.Message)) in Hm.
      vm_compute in Hm. discriminate Hm.
  - intros H.
    pose (h := run Sample.env init
                 [ SendMessage "a" None "u1" "a1" 0%Z;
                   ClearChat;
                   SendMessage "b" None "u2" "a2" 1%Z;
                   StreamDone 0 ]).
    assert (Hm := H Sample.env h "c" None "u3" "a3" 2%Z).
    assert (Hlen : length (messages (step Sample.env h
                                       (SendMessage "c" None "u3" "a3" 2%Z)))
                   = length (messages h)).
    { f_equal. apply Hm.
      - now exists [ SendMessage "a" None "u1" "a1" 0%Z;
                     ClearChat;
                     SendMessage "b" None "u2" "a2" 1%Z;
                     StreamDone 0 ].
      - right. vm_compute. reflexivity. }
    vm_compute in Hlen. discriminate Hlen.
Qed.

(** C1 (amended). A call of [sendMessage] with a text that is not empty
    after trimming, or with at least one image, made while no turn is in
    flight and through a render that shows the loading flag clear,
    appends to the message list one user message and then one loading
    assistant message, as one update.  When [getLLM] returns a provider
    this is the list the call leaves at its first [await], where it is
    suspended with the flag set; when [getLLM] throws, the call ends at
    once: the messages with the placeholder's id are filtered out again
    (the user message stays when its id is another one) and the error
    is shown.  With an empty text and no image, or through
    a render that shows the loading flag set, the call changes nothing.
    In every state the component reaches, with no turn in flight the
    loading flag is clear; so there a call through the current render,
    with such an input and with a provider, leaves the list with the two
    messages appended. *)
Theorem C1_sendMessage_appends_user_then_assistant
    (seen h : Hook) (content : string)
    (images : option (list Chat.ImageAttachment)) (uid aid : string) (now : Z) :
  let u := userMessage content images uid now in
  let a := loadingMessage aid now in
  let call := sendMessageOf env seen content images uid aid now h in
  (Js.trim content <> "" \/ (exists img rest, images = Some (img :: rest)) ->
   turnInFlight h = false ->
   isLoading seen = false ->
   messages (sendMessageBegin content images uid aid now h) = messages h ++ [u; a]
   /\ Chat.role u = Chat.user
   /\ Chat.role a = Chat.assistant
   /\ Chat.isLoading a = Some true
   /\ (forall llm, fst (getLLM env h) = inr llm ->
         snd call = Suspended
         /\ messages (fst call) = messages h ++ [u; a]
         /\ isLoading (fst call) = true
         /\ error (fst call) = None
         /\ turnInFlight (fst call) = true)
   /\ (forall err, fst (getLLM env h) = inl err ->
         snd call = Returned
         /\ messages (fst call)
            = filter (fun msg => negb (String.eqb (Chat.id msg) aid))
                (messages h ++ [u; a])
         /\ isLoading (fst call) = false
         /\ error (fst call) = Some (errorMessage err)
         /\ turnInFlight (fst call) = false))
  /\ ((Js.trim content = "" /\ (images = None \/ images = Some []))
      \/ isLoading seen = true ->
      call = (h, Returned))
  /\ (forall actions,
        turnInFlight (hook (play env mounted actions)) = false ->
        isLoading (hook (play env mounted actions)) = false)
  /\ (forall actions llm,
        let h0 := hook (play env mounted actions) in
        Js.trim content <> "" \/ (exists img rest, images = Some (img :: rest)) ->
        turnInFlight h0 = false ->
        fst (getLLM env h0) = inr llm ->
        messages (step env h0 (SendMessage content images uid aid now))
        = messages h0 ++ [u; a]).
Proof.
  intros u a call. subst u a.
  assert (Hflag : forall actions,
             turnInFlight (hook (play env mounted actions)) = false ->
             isLoading (hook (play env mounted actions)) = false).
  { intros actions Hflight.
    destruct (isLoading (hook (play env mounted actions))) eqn:Hl; [|reflexivity].
    rewrite (play_flag actions mounted) in Hflight; [discriminate| |exact Hl].
    discriminate. }
  split; [|split; [|split; [exact Hflag|]]].
  - intros Hin Hflight Hl.
    pose proof (sendGuard_false content images seen Hin Hl) as Hg.
    destruct (sendMessageBegin_fields content images uid aid now h)
      as (B1 & B2 & B3 & B4 & B5).
    split; [exact B1|]. split; [reflexivity|]. split; [reflexivity|].
    split; [reflexivity|]. split.
    + intros llm Hllm. subst call.
      rewrite (sendMessageOf_suspended seen h content images uid aid now llm Hg Hllm).
      cbn [fst snd].
      destruct (getLLM_fields (sendMessageBegin content images uid aid now h))
        as (G1 & G2 & G3 & _).
      split; [reflexivity|].
      split; [cbn [messages suspend]; now rewrite G1|].
      split; [cbn [isLoading suspend]; now rewrite G2|].
      split; [cbn [error suspend]; now rewrite G3|].
      apply turnInFlight_suspend.
    + intros err Herr. subst call. unfold sendMessageOf. rewrite Hg.
      unfold tryCatchFinally, bodyStart.
      pose proof (getLLM_error h err Herr) as Hab.
      rewrite <- (getLLM_sendMessageBegin content images uid aid now h) in Herr.
      destruct (getLLM_fields (sendMessageBegin content images uid aid now h))
        as (G1 & G2 & G3 & G4 & _).
      destruct (getLLM env (sendMessageBegin content images uid aid now h))
        as [[err'|llm'] h0]; [|discriminate].
      cbn [fst snd] in *. injection Herr as ->.
      unfold catchBlock. rewrite Hab.
      split; [reflexivity|]. split; [cbn; now rewrite G1, B1|].
      split; [reflexivity|]. split; [reflexivity|].
      unfold turnInFlight. cbn. rewrite G4, B4.
      unfold turnInFlight in Hflight. exact Hflight.
  - intros H. subst call. unfold sendMessageOf.
    now rewrite (sendGuard_true _ _ _ H).
  - intros actions llm h0 Hin Hflight Hllm.
    pose proof (sendGuard_false content images h0 Hin (Hflag actions Hflight)) as Hg.
    unfold step. cbn [perform]. unfold sendMessage.
    rewrite (sendMessageOf_suspended h0 h0 content images uid aid now llm Hg Hllm).
    cbn [fst messages suspend].
    destruct (getLLM_fields (sendMessageBegin content images uid aid now h0))
      as (G1 & _).
    rewrite G1. apply sendMessageBegin_fields.
Qed.

End SendClaim.

Lemma C1_sendMessage_appends_user_then_assistant_witness :
  let call := useChat.sendMessageOf Sample.env useChat.init " hi " None "u1" "a1" 0%Z
                useChat.init in
  let failed := useChat.sendMessageOf Sample.bare useChat.init " hi " None "u1" "a1" 0%Z
                  useChat.init in
  (snd call = useChat.Suspended
   /\ useChat.messages (fst call)
      = useChat.messages useChat.init
        ++ [useChat.userMessage " hi " None "u1" 0%Z; useChat.loadingMessage "a1" 0%Z]
   /\ useChat.isLoading (fst call) = true
   /\ useChat.error (fst call) = None
   /\ useChat.turnInFlight (fst call) = true)
  /\ (snd failed = useChat.Returned
      /\ useChat.messages (fst failed)
         = filter (fun msg => negb (String.eqb (Chat.id msg) "a1"))
             (useChat.messages useChat.init
              ++ [useChat.userMessage " hi " None "u1" 0%Z;
                  useChat.loadingMessage "a1" 0%Z])
      /\ useChat.isLoading (fst failed) = false
      /\ useChat.error (fst failed)
         = Some (useChat.errorMessage (Js.newError "Google GenAI API key is required"))
      /\ useChat.turnInFlight (fst failed) = false)
  /\ useChat.sendMessageOf Sample.env useChat.init "  " (Some []) "u1" "a1" 0%Z
       useChat.init
     = (useChat.init, useChat.Returned).
Proof.
  intros call failed. split; [|split].
  - destruct (C1_sendMessage_appends_user_then_assistant
                Sample.env useChat.init useChat.init " hi " None "u1" "a1" 0%Z)
      as (H & _).
    destruct H as (_ & _ & _ & _ & H & _).
    + left. discriminate.
    + reflexivity.
    + reflexivity.
    + apply (H (GoogleGenAI
                  {| GoogleGenAIProvider.client :=
                       {| GoogleGenAIProvider.client_apiKey := "key" |};
                     GoogleGenAIProvider.model := "gemini-2.5-flash" |})).
      reflexivity.
  - destruct (C1_sendMessage_appends_user_then_assistant
                Sample.bare useChat.init useChat.init " hi " None "u1" "a1" 0%Z)
      as (H & _).
    destruct H as (_ & _ & _ & _ & _ & H).
    + left. discriminate.
    + reflexivity.
    + reflexivity.
    + apply (H (Js.newError "Google GenAI API key is required")).
      reflexivity.
  - apply (C1_sendMessage_appends_user_then_assistant
             Sample.env useChat.init useChat.init "  " (Some []) "u1" "a1" 0%Z).
    left. split; [reflexivity|now right].
Defined.


(* ===================================================================== *)
(** ** The registry                                                       *)
(* ===================================================================== *)

Section RegistryFacts.

Lemma registry_get_register_same (type : string) (factory : LLMProviderFactory)
    (r : llmRegistry.t) :
  llmRegistry.get type (llmRegistry.register type factory r) = Some factory.
Proof.
  induction r as [|[k f] r IH]; simpl.
  - now rewrite String.eqb_refl.
  - destruct (String.eqb k type) eqn:E; simpl.
    + now rewrite String.eqb_refl.
    + now rewrite E.
Qed.

Lemma registry_get_register_other (type other : string)
    (factory : LLMProviderFactory) (r : llmRegistry.t) :
  other <> type ->
  llmRegistry.get other (llmRegistry.register type factory r)
  = llmRegistry.get other r.
Proof.
  intros Hne. induction r as [|[k f] r IH]; simpl.
  - destruct (String.eqb_spec type other); congruence.
  - destruct (String.eqb_spec k type) as [->|Hk]; simpl.
    + destruct (String.eqb_spec type other); congruence.
    + now rewrite IH.
Qed.

(** X1. [register] then [create]: the factory registered last for a type
    is the one [create] calls for it, whatever was registered before, and
    [create] for every other type does what it did before. *)
Theorem X1_register_last_write_wins (type : string)
    (factory : LLMProviderFactory) (r : llmRegistry.t) (config : LLM.Config) :
  llmRegistry.create (llmRegistry.register type factory r) type config
  = factory config
  /\ (forall older,
        llmRegistry.create
          (llmRegistry.register type factory (llmRegistry.register type older r))
          type config
        = factory config)
  /\ (forall other, other <> type ->
        llmRegistry.create (llmRegistry.register type factory r) other config
        = llmRegistry.create r other config).
Proof.
  unfold llmRegistry.create. split; [|split].
  - now rewrite registry_get_register_same.
  - intros older. now rewrite registry_get_register_same.
  - intros other Hne. now rewrite registry_get_register_other.
Qed.

Lemma X1_register_last_write_wins_witness :
  llmRegistry.create
    (llmRegistry.register "custom"
       (fun config => llmRegistry.lift OpenAI (OpenAIProvider.new config))
       llmRegistry.builtIn)
    "google-genai" (Sample.config (Some "k"))
  = llmRegistry.create llmRegistry.builtIn "google-genai" (Sample.config (Some "k")).
Proof.
  apply (X1_register_last_write_wins "custom"
           (fun config => llmRegistry.lift OpenAI (OpenAIProvider.new config))
           llmRegistry.builtIn (Sample.config (Some "k"))).
  discriminate.
Defined.

Lemma registry_get_none (type : string) (r : llmRegistry.t) :
  llmRegistry.get type r = None
  <-> ~ In type (llmRegistry.getAvailableProviders r).
Proof.
  unfold llmRegistry.getAvailableProviders.
  induction r as [|[k f] r IH]; simpl.
  - tauto.
  - destruct (String.eqb_spec k type) as [->|Hk].
    + split; [discriminate|]. intros H. elim H. now left.
    + rewrite IH. tauto.
Qed.

Lemma registry_keys_register (type : string) (factory : LLMProviderFactory)
    (r : llmRegistry.t) :
  llmRegistry.getAvailableProviders (llmRegistry.register type factory r)
  = if existsb (String.eqb type) (llmRegistry.getAvailableProviders r)
    then llmRegistry.getAvailableProviders r
    else llmRegistry.getAvailableProviders r ++ [type].
Proof.
  unfold llmRegistry.getAvailableProviders.
  induction r as [|[k f] r IH]; simpl; [reflexivity|].
  rewrite (String.eqb_sym type k).
  destruct (String.eqb_spec k type) as [->|Hk]; simpl; [reflexivity|].
  rewrite IH. now destruct (existsb _ _).
Qed.

(** X2. [getAvailableProviders] after [register]: a type that is already
    registered keeps its place and the list is unchanged, a new type is
    added at the end; so a list without repetitions stays without
    repetitions. *)
Theorem X2_register_keeps_keys_distinct (type : string)
    (factory : LLMProviderFactory) (r : llmRegistry.t) :
  (In type (llmRegistry.getAvailableProviders r) ->
   llmRegistry.getAvailableProviders (llmRegistry.register type factory r)
   = llmRegistry.getAvailableProviders r)
  /\ (~ In type (llmRegistry.getAvailableProviders r) ->
      llmRegistry.getAvailableProviders (llmRegistry.register type factory r)
      = llmRegistry.getAvailableProviders r ++ [type])
  /\ (NoDup (llmRegistry.getAvailableProviders r) ->
      NoDup (llmRegistry.getAvailableProviders (llmRegistry.register type factory r))).
Proof.
  rewrite registry_keys_register.
  destruct (existsb (String.eqb type) (llmRegistry.getAvailableProviders r)) eqn:E.
  - apply existsb_exists in E. destruct E as (k & Hin & Hk).
    apply String.eqb_eq in Hk. subst k. repeat split; auto. tauto.
  - assert (Hnot : ~ In type (llmRegistry.getAvailableProviders r)).
    { intros Hin. apply Bool.not_true_iff_false in E. apply E.
      apply existsb_exists. exists type. split; [exact Hin|apply String.eqb_refl]. }
    repeat split; auto; [tauto|].
    intros Hnd. apply NoDup_app; [exact Hnd|repeat constructor; simpl; tauto|].
    intros x Hx [<-|[]]. contradiction.
Qed.

Lemma X2_register_keeps_keys_distinct_witness :
  llmRegistry.getAvailableProviders
    (llmRegistry.register "openai"
       (fun config => llmRegistry.lift OpenAI (OpenAIProvider.new config))
       llmRegistry.builtIn)
  = llmRegistry.getAvailableProviders llmRegistry.builtIn
  /\ NoDup (llmRegistry.getAvailableProviders
              (llmRegistry.register "anthropic"
                 (fun config => llmRegistry.lift OpenAI (OpenAIProvider.new config))
                 llmRegistry.builtIn)).
Proof.
  split.
  - apply (X2_register_keeps_keys_distinct "openai"). simpl. tauto.
  - apply (X2_register_keeps_keys_distinct "anthropic").
    repeat constructor; simpl; intuition discriminate.
Defined.

(** X3. [create] for a type that is not among [getAvailableProviders]
    throws the error that names the type, without calling any factory;
    for a type that is among them it returns what a registered factory
    returns. *)
Theorem X3_create_unregistered_type_throws (r : llmRegistry.t) (type : string)
    (config : LLM.Config) :
  (~ In type (llmRegistry.getAvailableProviders r) ->
   llmRegistry.create r type config
   = inl (Js.newError ("LLM provider type '" ++ type ++ "' is not registered")))
  /\ (In type (llmRegistry.getAvailableProviders r) ->
      exists factory,
        In (type, factory) r
        /\ llmRegistry.create r type config = factory config).
Proof.
  unfold llmRegistry.create. split.
  - intros H. apply registry_get_none in H. now rewrite H.
  - intros H. destruct (llmRegistry.get type r) as [f|] eqn:E.
    + exists f. split; [|reflexivity].
      clear H. induction r as [|[k g] r IH]; simpl in *; [discriminate|].
      destruct (String.eqb_spec k type) as [->|Hk].
      * injection E as ->. now left.
      * right. auto.
    + apply registry_get_none in E. contradiction.
Qed.

Lemma X3_create_unregistered_type_throws_witness :
  llmRegistry.create llmRegistry.builtIn "anthropic" (Sample.config (Some "k"))
  = inl (Js.newError "LLM provider type 'anthropic' is not registered").
Proof.
  apply (X3_create_unregistered_type_throws llmRegistry.builtIn "anthropic").
  simpl. intuition discriminate.
Defined.

End RegistryFacts.

(* ===================================================================== *)
(** ** The environment factory                                            *)
(* ===================================================================== *)

Section EnvironmentFacts.

Lemma or_else_some (key fallback : string) :
  key <> "" -> Js.or_else (Some key) fallback = key.
Proof. destruct key; [congruence|reflexivity]. Qed.

(** X4. [createFromEnvironment] with the built-in registry.  When
    [VITE_LLM_PROVIDER] is unset, empty or ["google-genai"], the Google
    GenAI provider is built from [VITE_GENAI_KEY]: without a key the call
    throws the constructor's error, with a key the model is
    [VITE_GENAI_MODEL] or ["gemini-2.5-flash"] (the constructor's own
    default model is never used).  When it is ["openai"], the OpenAI
    provider is built from [VITE_OPENAI_API_KEY] alike, with the model
    [VITE_OPENAI_MODEL] or ["gpt-4"] and the base URL
    [VITE_OPENAI_BASE_URL] or ["https://api.openai.com/v1"]. *)
Theorem X4_createFromEnvironment_selects_provider (env : Env) :
  (VITE_LLM_PROVIDER env = None \/ VITE_LLM_PROVIDER env = Some ""
   \/ VITE_LLM_PROVIDER env = Some "google-genai" ->
   (VITE_GENAI_KEY env = None \/ VITE_GENAI_KEY env = Some "" ->
    LLMServiceFactory.createFromEnvironment env
    = inl (Js.newError "Google GenAI API key is required"))
   /\ (forall key, VITE_GENAI_KEY env = Some key -> key <> "" ->
       LLMServiceFactory.createFromEnvironment env
       = inr (GoogleGenAI
                {| GoogleGenAIProvider.client :=
                     {| GoogleGenAIProvider.client_apiKey := key |};
                   GoogleGenAIProvider.model :=
                     Js.or_else (VITE_GENAI_MODEL env) "gemini-2.5-flash" |})))
  /\ (VITE_LLM_PROVIDER env = Some "openai" ->
      (VITE_OPENAI_API_KEY env = None \/ VITE_OPENAI_API_KEY env = Some "" ->
       LLMServiceFactory.createFromEnvironment env
       = inl (Js.newError "OpenAI API key is required"))
      /\ (forall key, VITE_OPENAI_API_KEY env = Some key -> key <> "" ->
          LLMServiceFactory.createFromEnvironment env
          = inr (OpenAI
                   {| OpenAIProvider.apiKey := key;
                      OpenAIProvider.model :=
                        Js.or_else (VITE_OPENAI_MODEL env) "gpt-4";
                      OpenAIProvider.baseURL :=
                        Js.or_else (VITE_OPENAI_BASE_URL env)
                          "https://api.openai.com/v1" |}))).
Proof.
  split.
  - intros Htype.
    assert (Ht : Js.or_else (VITE_LLM_PROVIDER env) "google-genai" = "google-genai").
    { destruct Htype as [-> | [-> | ->]]; reflexivity. }
    unfold LLMServiceFactory.createFromEnvironment. rewrite Ht.
    unfold LLMServiceFactory.getConfigForProvider, llmRegistry.create. simpl.
    unfold GoogleGenAIProvider.new. simpl. split.
    + intros [-> | ->]; reflexivity.
    + intros key -> Hne. rewrite (or_else_some key "" Hne).
      destruct key as [|c key]; [congruence|]. simpl.
      now destruct (VITE_GENAI_MODEL env) as [[|d m]|].
  - intros Htype.
    unfold LLMServiceFactory.createFromEnvironment. rewrite Htype.
    unfold LLMServiceFactory.getConfigForProvider, llmRegistry.create. simpl.
    unfold OpenAIProvider.new. simpl. split.
    + intros [-> | ->]; reflexivity.
    + intros key -> Hne. rewrite (or_else_some key "" Hne).
      destruct key as [|c key]; [congruence|]. simpl.
      now destruct (VITE_OPENAI_MODEL env) as [[|d m]|].
Qed.

Lemma X4_createFromEnvironment_selects_provider_witness :
  LLMServiceFactory.createFromEnvironment Sample.env
  = inr (GoogleGenAI
           {| GoogleGenAIProvider.client :=
                {| GoogleGenAIProvider.client_apiKey := "key" |};
              GoogleGenAIProvider.model := "gemini-2.5-flash" |}).
Proof.
  apply (X4_createFromEnvironment_selects_provider Sample.env).
  - now left.
  - reflexivity.
  - discriminate.
Defined.

(** X5. A provider type in [VITE_LLM_PROVIDER] other than
    ["google-genai"] and ["openai"] makes [createFromEnvironment] throw
    the error that names it, before the registry is consulted: so also
    when a factory has been registered for that type. *)
Theorem X5_environment_type_without_configuration
    (r : llmRegistry.t) (env : Env) (type : string) :
  VITE_LLM_PROVIDER env = Some type ->
  type <> "" ->
  type <> "google-genai" ->
  type <> "openai" ->
  createFromEnvironmentWith r env
  = inl (Js.newError ("No environment configuration available for provider: "
                      ++ type))
  /\ LLMServiceFactory.createFromEnvironment env
     = createFromEnvironmentWith llmRegistry.builtIn env.
Proof.
  intros Htype Hne Hg Ho. split; [|reflexivity].
  unfold createFromEnvironmentWith. rewrite Htype, (or_else_some type _ Hne).
  unfold LLMServiceFactory.getConfigForProvider.
  destruct (String.eqb_spec type "google-genai"); [contradiction|].
  destruct (String.eqb_spec type "openai"); [contradiction|]. reflexivity.
Qed.

Lemma X5_environment_type_without_configuration_witness :
  let env := {| VITE_LLM_PROVIDER := Some "custom"; VITE_GENAI_KEY := Some "key";
                VITE_GENAI_MODEL := None; VITE_OPENAI_API_KEY := Some "sk";
                VITE_OPENAI_MODEL := None; VITE_OPENAI_BASE_URL := None |} in
  createFromEnvironmentWith
    (llmRegistry.register "custom"
       (fun config => llmRegistry.lift OpenAI (OpenAIProvider.new config))
       llmRegistry.builtIn) env
  = inl (Js.newError "No environment configuration available for provider: custom")
  /\ LLMServiceFactory.createFromEnvironment env
     = createFromEnvironmentWith llmRegistry.builtIn env.
Proof.
  intros env.
  apply (X5_environment_type_without_configuration _ env "custom");
    [reflexivity|discriminate|discriminate|discriminate].
Defined.

End EnvironmentFacts.

(* ===================================================================== *)
(** ** The OpenAI stream: its end, its reads, its fragments               *)
(* ===================================================================== *)

Section OpenAIStreamMore.

Import OpenAIProvider.

Variable JSON_parse : string -> option JSON.

Lemma received_app (xs ys : list string) :
  received (xs ++ ys) = (received xs ++ received ys)%string.
Proof.
  induction xs as [|x xs IH]; simpl; [reflexivity|].
  now rewrite IH, append_assoc.
Qed.

(** X6. How the OpenAI stream ends: once a complete line is the
    sentinel [data: [DONE]] the stream completes normally, whatever the
    reader does afterwards (also when it would throw); without such a
    line it ends as the reader ends. *)
Theorem X6_openai_stream_ending (reads : list string) (more : option Js.Thrown) :
  (snd (processLines JSON_parse (removelast (Js.split_lines (received reads))))
   = true ->
   ending (readLoop JSON_parse "" reads more) = None)
  /\ (snd (processLines JSON_parse (removelast (Js.split_lines (received reads))))
      = false ->
      ending (readLoop JSON_parse "" reads more) = more)
  /\ (forall lines_before lines_after,
        Js.split_lines (received reads)
        = lines_before ++ "data: [DONE]" :: lines_after ->
        lines_after <> [] ->
        ending (readLoop JSON_parse "" reads more) = None).
Proof.
  pose proof (readLoop_ends JSON_parse reads more "" eq_refl) as H.
  cbn [String.append] in H. rewrite H. split; [|split].
  - now intros ->.
  - now intros ->.
  - intros lines_before lines_after Hsplit Hne. rewrite Hsplit.
    rewrite removelast_app_nonempty by discriminate.
    destruct lines_after as [|l ls]; [congruence|].
    rewrite removelast_cons2, processLines_app.
    destruct (processLines JSON_parse lines_before) as [o [|]]; cbn [fst snd];
      [reflexivity|].
    cbn [processLines]. now rewrite processLine_done.
Qed.

(** X7. The OpenAI stream depends on the text received only, not on how
    the reader cut it into reads. *)
Theorem X7_openai_stream_ignores_read_boundaries
    (reads1 reads2 : list string) (more : option Js.Thrown) :
  received reads1 = received reads2 ->
  readLoop JSON_parse "" reads1 more = readLoop JSON_parse "" reads2 more.
Proof.
  intros Heq.
  pose proof (readLoop_items JSON_parse reads1 more "" eq_refl) as I1.
  pose proof (readLoop_items JSON_parse reads2 more "" eq_refl) as I2.
  pose proof (readLoop_ends JSON_parse reads1 more "" eq_refl) as E1.
  pose proof (readLoop_ends JSON_parse reads2 more "" eq_refl) as E2.
  cbn [String.append] in *. rewrite Heq in I1, E1.
  destruct (readLoop JSON_parse "" reads1 more) as [i1 e1].
  destruct (readLoop JSON_parse "" reads2 more) as [i2 e2].
  simpl in *. congruence.
Qed.

Lemma split_lines_no_lf_app (a b : string) :
  Js.split_lines a = [a] -> Js.split_lines b = [b] ->
  Js.split_lines (a ++ b) = [(a ++ b)%string].
Proof.
  intros Ha Hb. induction a as [|c a IH]; [exact Hb|].
  pose proof (split_lines_nonempty a) as Hne.
  change (String c a ++ b)%string with (String c (a ++ b)).
  cbn [Js.split_lines] in *. destruct (Ascii.eqb c Js.LF).
  - destruct (Js.split_lines a); [contradiction|discriminate].
  - destruct (Js.split_lines a) as [|l [|x xs]]; [contradiction| |discriminate].
    injection Ha as ->. now rewrite IH.
Qed.

(** X8. Text after the last line feed is never processed: a last read
    without a line feed adds no fragment, even when it completes a
    [data: ] line. *)
Theorem X8_openai_unterminated_line_is_dropped
    (reads : list string) (tail : string) (more : option Js.Thrown) :
  Js.split_lines tail = [tail] ->
  items (readLoop JSON_parse "" (reads ++ [tail]) more)
  = items (readLoop JSON_parse "" reads more).
Proof.
  intros Htail.
  rewrite !(readLoop_items JSON_parse _ more "") by reflexivity.
  unfold yieldsOfText. cbn [String.append].
  rewrite received_app. simpl. rewrite append_nil_r.
  rewrite split_lines_app.
  rewrite (split_lines_no_lf_app _ tail (split_lines_last _) Htail).
  now rewrite removelast_last.
Qed.

Lemma processLines_truthy (lines : list string) :
  Forall (fun v => Json.truthy (Some v) = true)
    (fst (processLines JSON_parse lines)).
Proof.
  induction lines as [|line lines IH]; simpl; [constructor|].
  destruct (processLine JSON_parse line) as [| |c] eqn:E; simpl; auto.
  destruct (processLines JSON_parse lines) as [out r]. simpl in *.
  constructor; [|exact IH].
  unfold processLine in E. destruct (Js.startsWith _ _); [|discriminate].
  destruct (String.eqb _ _); [discriminate|].
  destruct (JSON_parse _) as [parsed|]; [|discriminate].
  destruct (deltaContent parsed) as [c'|] eqn:Ec; [|discriminate].
  destruct (Json.truthy (Some c')) eqn:Et; [|discriminate].
  now injection E as <-.
Qed.

(** X9. Every fragment the OpenAI stream yields is truthy: never the
    empty string, [null], [false] or [0]. *)
Theorem X9_openai_fragments_are_truthy (reads : list string)
    (more : option Js.Thrown) :
  Forall (fun v => Json.truthy (Some v) = true
                   /\ v <> JString "" /\ v <> JNull /\ v <> JBool false
                   /\ v <> JNumber 0)
    (items (readLoop JSON_parse "" reads more)).
Proof.
  rewrite (readLoop_items JSON_parse reads more "") by reflexivity.
  eapply Forall_impl; [|apply processLines_truthy].
  intros v Hv. split; [exact Hv|].
  repeat split; intros ->; discriminate.
Qed.

End OpenAIStreamMore.

Lemma X6_openai_stream_ending_witness :
  ending (OpenAIProvider.readLoop Sample.parse ""
            [Sample.line "data: {A}"; Sample.line "data: [DONE]"]
            (Some (Js.newError "connection reset")))
  = None.
Proof.
  apply (X6_openai_stream_ending Sample.parse
           [Sample.line "data: {A}"; Sample.line "data: [DONE]"]
           (Some (Js.newError "connection reset"))).
  reflexivity.
Defined.

Lemma X7_openai_stream_ignores_read_boundaries_witness :
  OpenAIProvider.readLoop Sample.parse ""
    ["data: {"; Sample.line "A}" ++ "data: {B}"; Sample.line ""]%string None
  = OpenAIProvider.readLoop Sample.parse ""
      [(Sample.line "data: {A}" ++ Sample.line "data: {B}")%string] None.
Proof.
  apply (X7_openai_stream_ignores_read_boundaries Sample.parse). reflexivity.
Defined.

Lemma X8_openai_unterminated_line_is_dropped_witness :
  items (OpenAIProvider.readLoop Sample.parse ""
           ([Sample.line "data: {A}"] ++ ["data: {B}"]) None)
  = items (OpenAIProvider.readLoop Sample.parse "" [Sample.line "data: {A}"] None).
Proof.
  apply (X8_openai_unterminated_line_is_dropped Sample.parse). reflexivity.
Defined.

(* ===================================================================== *)
(** ** Math keyword detection: words, tokens, growing histories           *)
(* ===================================================================== *)

Section MathFactsMore.

Import MathRegex.

Lemma allWord_app (a b : string) : allWord (a ++ b) = allWord a && allWord b.
Proof.
  induction a as [|c a IH]; simpl; [reflexivity|].
  now rewrite IH, andb_assoc.
Qed.

Lemma strip_prefix_some (p s rest : string) :
  strip_prefix p s = Some rest -> s = (p ++ rest)%string.
Proof.
  revert s. induction p as [|a p IH]; intros s H; simpl in *.
  - now injection H as ->.
  - destruct s as [|b s]; [discriminate|].
    destruct (Ascii.eqb_spec a b) as [->|]; [|discriminate].
    simpl. f_equal. now apply IH.
Qed.

Lemma strip_prefix_app_more (p s rest post : string) :
  strip_prefix p s = Some rest ->
  strip_prefix p (s ++ post) = Some (rest ++ post)%string.
Proof.
  intros H. apply strip_prefix_some in H. subst s.
  rewrite append_assoc. apply strip_prefix_app.
Qed.

Lemma last_char_word (before : option ascii) (kw : string) :
  allWord kw = true -> kw <> "" -> is_word (last_char before kw) = true.
Proof.
  revert before. induction kw as [|c kw IH]; intros before Hw Hne; [congruence|].
  simpl in *. apply andb_true_iff in Hw. destruct Hw as [Hc Hw].
  destruct kw as [|d kw]; [exact Hc|]. apply IH; [exact Hw|discriminate].
Qed.

Lemma head_word (s : string) :
  allWord s = true -> is_word (head s) = match s with "" => false | _ => true end.
Proof.
  destruct s as [|c s]; simpl; [reflexivity|].
  intros H. apply andb_true_iff in H. tauto.
Qed.

Lemma length_append (a b : string) :
  String.length (a ++ b) = String.length a + String.length b.
Proof. induction a as [|c a IH]; simpl; congruence. Qed.

Lemma keywords_nonempty : Forall (fun kw => kw <> "") mathKeywords.
Proof. repeat constructor; discriminate. Qed.

Lemma keyword_nonempty (kw : string) : In kw mathKeywords -> kw <> "".
Proof.
  intros H. pose proof keywords_nonempty as Hall.
  rewrite Forall_forall in Hall. now apply Hall.
Qed.

Lemma no_keyword_in_empty (before : option ascii) :
  existsb (alternative_matches before "") mathKeywords = false.
Proof. reflexivity. Qed.

(** On a text of word characters an alternative matches at the start
    only by being the whole text. *)
Lemma alternative_on_word (w kw : string) :
  kw <> "" -> allWord w = true ->
  alternative_matches None w kw = String.eqb w kw.
Proof.
  intros Hne Hw. unfold alternative_matches.
  destruct (strip_prefix kw w) as [rest|] eqn:E.
  - apply strip_prefix_some in E. subst w.
    rewrite allWord_app in Hw. apply andb_true_iff in Hw. destruct Hw as [Hk Hr].
    unfold word_boundary. rewrite (last_char_word None kw Hk Hne), (head_word rest Hr).
    destruct rest as [|d rest]; simpl.
    + rewrite append_nil_r. now rewrite String.eqb_refl.
    + symmetry. apply String.eqb_neq. intros Heq.
      apply (f_equal String.length) in Heq. rewrite length_append in Heq.
      simpl in Heq. lia.
  - symmetry. apply String.eqb_neq. intros ->.
    pose proof (strip_prefix_app kw "") as H. rewrite append_nil_r in H. congruence.
Qed.

Lemma search_inside_word (s : string) (c : ascii) :
  allWord s = true -> is_word_char c = true -> search (Some c) s = false.
Proof.
  revert c. induction s as [|d s IH]; intros c Hs Hc.
  - cbn [search]. unfold matches_here. rewrite no_keyword_in_empty.
    now rewrite andb_false_r.
  - simpl in Hs. apply andb_true_iff in Hs. destruct Hs as [Hd Hs].
    cbn [search]. rewrite (IH d Hs Hd), orb_false_r.
    unfold matches_here, word_boundary. simpl. now rewrite Hc, Hd.
Qed.

(** X10. A text that is one word (word characters only) is detected as
    math exactly when it is one of the keywords: a keyword inside a
    longer word ([mathematics], [solved], [functions]) does not count. *)
Theorem X10_single_word_detected_iff_keyword (w : string) :
  allWord w = true ->
  detectMathContent w = existsb (String.eqb w) mathKeywords.
Proof.
  intros Hw. unfold detectMathContent. destruct w as [|c w].
  - reflexivity.
  - pose proof Hw as Hcw. simpl in Hcw. apply andb_true_iff in Hcw.
    destruct Hcw as [Hc Hrest].
    cbn [search]. rewrite (search_inside_word w c Hrest Hc), orb_false_r.
    unfold matches_here, word_boundary. cbn [head is_word]. rewrite Hc.
    cbn [xorb andb].
    pose proof keywords_nonempty as Hall. 
    induction Hall as [|kw kws Hkw _ IH]; [reflexivity|].
    cbn [existsb]. now rewrite IH, (alternative_on_word _ kw Hkw Hw).
Qed.

Lemma X10_single_word_detected_iff_keyword_witness :
  detectMathContent "mathematics" = existsb (String.eqb "mathematics") mathKeywords
  /\ existsb (String.eqb "mathematics") mathKeywords = false.
Proof.
  split; [|reflexivity].
  apply (X10_single_word_detected_iff_keyword "mathematics"). reflexivity.
Defined.

(** A keyword between two word boundaries is found by the search. *)
Lemma keyword_token_detected (kw pre post : string) :
  In kw mathKeywords ->
  allWord kw = true ->
  is_word (last_char None pre) = false ->
  is_word (head post) = false ->
  detectMathContent (pre ++ kw ++ post) = true.
Proof.
  intros Hin Hkw Hpre Hpost. pose proof (keyword_nonempty kw Hin) as Hne.
  apply search_app. unfold matches_here. apply andb_true_iff. split.
  - unfold word_boundary. rewrite Hpre, head_app.
    destruct kw as [|c kw]; [congruence|].
    simpl in Hkw. apply andb_true_iff in Hkw. simpl. now destruct Hkw as [-> _].
  - apply existsb_exists. exists kw. split; [exact Hin|].
    unfold alternative_matches. rewrite strip_prefix_app.
    unfold word_boundary. now rewrite (last_char_word _ kw Hkw Hne), Hpost.
Qed.

(** X11. Whenever the lower-cased, joined texts of a history contain a
    keyword made of letters as a whole word (no word character right
    before or right after it), both providers put their instruction turn
    in front of the converted history, which follows unchanged. *)
Theorem X11_keyword_token_injects_instruction
    (prompt : string) (messages : list LLM.Message) (kw pre post : string) :
  In kw mathKeywords ->
  allWord kw = true ->
  conversationText messages = (pre ++ kw ++ post)%string ->
  is_word (last_char None pre) = false ->
  is_word (head post) = false ->
  GoogleGenAIProvider.buildContents prompt messages
  = GoogleGenAIProvider.createMathInstruction
    :: map (GoogleGenAIProvider.toContent prompt) messages
  /\ OpenAIProvider.buildMessages messages
     = OpenAIProvider.mathInstruction
       :: map OpenAIProvider.toWireMessage messages.
Proof.
  intros Hin Hkw Htext Hpre Hpost.
  pose proof (keyword_token_detected kw pre post Hin Hkw Hpre Hpost) as Hd.
  rewrite <- Htext in Hd.
  unfold GoogleGenAIProvider.buildContents, OpenAIProvider.buildMessages.
  now rewrite Hd.
Qed.

Lemma X11_keyword_token_injects_instruction_witness :
  let messages := [Sample.userTurn "Please SOLVE it."] in
  GoogleGenAIProvider.buildContents "P" messages
  = GoogleGenAIProvider.createMathInstruction
    :: map (GoogleGenAIProvider.toContent "P") messages
  /\ OpenAIProvider.buildMessages messages
     = OpenAIProvider.mathInstruction
       :: map OpenAIProvider.toWireMessage messages.
Proof.
  intros messages.
  apply (X11_keyword_token_injects_instruction "P" messages "solve" "please " " it.").
  - simpl. tauto.
  - reflexivity.
  - reflexivity.
  - reflexivity.
  - reflexivity.
Defined.

End MathFactsMore.

Section MathHistories.

Import MathRegex.

Lemma search_extend (s post : string) :
  is_word (head post) = false ->
  forall before, search before s = true -> search before (s ++ post) = true.
Proof.
  intros Hpost. induction s as [|c s IH]; intros before H.
  - cbn [search] in H. unfold matches_here in H.
    rewrite no_keyword_in_empty, andb_false_r in H. discriminate.
  - change (String c s ++ post)%string with (String c (s ++ post)).
    cbn [search] in *. apply orb_true_iff in H. apply orb_true_iff.
    destruct H as [H|H]; [left|right; now apply IH].
    unfold matches_here in *. apply andb_true_iff in H. destruct H as [Hb He].
    apply andb_true_iff. split; [exact Hb|].
    apply existsb_exists in He. destruct He as (kw & Hin & Hkw).
    apply existsb_exists. exists kw. split; [exact Hin|].
    unfold alternative_matches in *.
    destruct (strip_prefix kw (String c s)) as [rest|] eqn:E; [|discriminate].
    change (String c (s ++ post)) with (String c s ++ post)%string.
    rewrite (strip_prefix_app_more _ _ _ post E).
    unfold word_boundary in *. rewrite head_app.
    destruct rest as [|d rest]; [|exact Hkw].
    simpl in Hkw. now rewrite Hpost.
Qed.

Lemma toLowerCase_app (a b : string) :
  Js.toLowerCase (a ++ b) = (Js.toLowerCase a ++ Js.toLowerCase b)%string.
Proof. induction a as [|c a IH]; simpl; congruence. Qed.

Lemma join_app (sep : string) (xs ys : list string) :
  xs <> [] -> ys <> [] ->
  Js.join sep (xs ++ ys) = (Js.join sep xs ++ sep ++ Js.join sep ys)%string.
Proof.
  intros Hx Hy. induction xs as [|x xs IH]; [congruence|].
  destruct xs as [|x' xs].
  - simpl. destruct ys; [congruence|reflexivity].
  - change (Js.join sep ((x :: x' :: xs) ++ ys))
      with (x ++ sep ++ Js.join sep ((x' :: xs) ++ ys))%string.
    rewrite IH by discriminate.
    change (Js.join sep (x :: x' :: xs))
      with (x ++ sep ++ Js.join sep (x' :: xs))%string.
    now rewrite !append_assoc.
Qed.

Lemma toLowerCase_join (sep : string) (xs : list string) :
  Js.toLowerCase (Js.join sep xs)
  = Js.join (Js.toLowerCase sep) (map Js.toLowerCase xs).
Proof.
  induction xs as [|x xs IH]; [reflexivity|].
  destruct xs as [|x' xs]; [reflexivity|].
  change (Js.join sep (x :: x' :: xs))
    with (x ++ sep ++ Js.join sep (x' :: xs))%string.
  rewrite !toLowerCase_app, IH. reflexivity.
Qed.

(** X12. The detection never goes back when a history grows: if the
    texts of a history are detected as math, so are those of every
    history that extends it, and both providers inject their instruction
    for it. *)
Theorem X12_detection_persists_when_history_grows
    (prompt : string) (history later : list LLM.Message) :
  detectMathContent (conversationText history) = true ->
  detectMathContent (conversationText (history ++ later)) = true
  /\ GoogleGenAIProvider.buildContents prompt (history ++ later)
     = GoogleGenAIProvider.createMathInstruction
       :: map (GoogleGenAIProvider.toContent prompt) (history ++ later)
  /\ OpenAIProvider.buildMessages (history ++ later)
     = OpenAIProvider.mathInstruction
       :: map OpenAIProvider.toWireMessage (history ++ later).
Proof.
  intros H.
  assert (Hd : detectMathContent (conversationText (history ++ later)) = true).
  { destruct later as [|m later]; [now rewrite app_nil_r|].
    destruct history as [|m0 history]; [discriminate H|].
    unfold conversationText in *. rewrite map_app.
    rewrite join_app by discriminate. rewrite !toLowerCase_app.
    apply search_extend; [reflexivity|exact H]. }
  unfold GoogleGenAIProvider.buildContents, OpenAIProvider.buildMessages.
  now rewrite Hd.
Qed.

Lemma X12_detection_persists_when_history_grows_witness :
  detectMathContent
    (conversationText ([Sample.userTurn "what is a matrix"]
                       ++ [Sample.userTurn "thanks"])) = true
  /\ GoogleGenAIProvider.buildContents "P"
       ([Sample.userTurn "what is a matrix"] ++ [Sample.userTurn "thanks"])
     = GoogleGenAIProvider.createMathInstruction
       :: map (GoogleGenAIProvider.toContent "P")
            ([Sample.userTurn "what is a matrix"] ++ [Sample.userTurn "thanks"])
  /\ OpenAIProvider.buildMessages
       ([Sample.userTurn "what is a matrix"] ++ [Sample.userTurn "thanks"])
     = OpenAIProvider.mathInstruction
       :: map OpenAIProvider.toWireMessage
            ([Sample.userTurn "what is a matrix"] ++ [Sample.userTurn "thanks"]).
Proof.
  apply (X12_detection_persists_when_history_grows "P"
           [Sample.userTurn "what is a matrix"] [Sample.userTurn "thanks"]).
  vm_compute. reflexivity.
Defined.

(** X13. The detection reads the texts only, and without regard to
    letter case: two histories whose texts are the same once lower-cased
    (whatever the roles and the images) are detected alike. *)
Theorem X13_detection_ignores_case_roles_images
    (history1 history2 : list LLM.Message) :
  map (fun m => Js.toLowerCase (LLM.content m)) history1
  = map (fun m => Js.toLowerCase (LLM.content m)) history2 ->
  conversationText history1 = conversationText history2
  /\ detectMathContent (conversationText history1)
     = detectMathContent (conversationText history2).
Proof.
  intros H.
  assert (Ht : conversationText history1 = conversationText history2).
  { unfold conversationText. rewrite !toLowerCase_join, !map_map. now rewrite H. }
  split; [exact Ht|now rewrite Ht].
Qed.

Lemma X13_detection_ignores_case_roles_images_witness :
  conversationText [Sample.userTurn "Solve X"]
  = conversationText
      [{| LLM.role := LLM.assistant; LLM.content := "sOLVE x";
          LLM.images := Some [] |}]
  /\ detectMathContent (conversationText [Sample.userTurn "Solve X"])
     = detectMathContent
         (conversationText
            [{| LLM.role := LLM.assistant; LLM.content := "sOLVE x";
                LLM.images := Some [] |}]).
Proof.
  apply (X13_detection_ignores_case_roles_images
           [Sample.userTurn "Solve X"]
           [{| LLM.role := LLM.assistant; LLM.content := "sOLVE x";
               LLM.images := Some [] |}]).
  reflexivity.
Defined.

End MathHistories.

(* ===================================================================== *)
(** ** The hook: [clearChat], the provider ref, failures                  *)
(* ===================================================================== *)

Section HookMore.

Import useChat.

Lemma resume_keeps_cleared (t : nat) (ev : StreamEvent) (h : Hook) :
  messages h = [] -> isLoading h = false ->
  messages (fst (resume t ev h)) = [] /\ isLoading (fst (resume t ev h)) = false.
Proof.
  intros Hm Hl. unfold resume. destruct (lookupTurn t (pending h)) as [turn|];
    [|now split].
  unfold tryCatchFinally. destruct ev as [chunk| |err]; simpl.
  - unfold bodyChunk. destruct (aborted h); simpl; now rewrite Hm.
  - now rewrite Hm.
  - unfold catchBlock. destruct (isAbortError err); simpl; now rewrite Hm.
Qed.

(** X14. [clearChat] empties the list, clears the error and the loading
    flag; calling it twice is calling it once; and whatever the streams
    of the calls made before it do afterwards (chunks, completion,
    errors), the list stays empty and the hook stays not loading. *)
Theorem X14_clearChat_silences_earlier_streams
    (env : Env) (h : Hook) (events : list Event) :
  forallb isStreamEvent events = true ->
  let cleared := fst (clearChat h) in
  messages cleared = [] /\ error cleared = None /\ isLoading cleared = false
  /\ fst (clearChat cleared) = cleared
  /\ messages (run env cleared events) = []
  /\ isLoading (run env cleared events) = false.
Proof.
  intros Hev cleared.
  assert (H0 : messages cleared = [] /\ error cleared = None
               /\ isLoading cleared = false
               /\ fst (clearChat cleared) = cleared).
  { subst cleared. unfold clearChat. simpl.
    destruct (abortControllerRef h) eqn:E; simpl; rewrite ?E; auto. }
  destruct H0 as (Hm0 & He0 & Hl0 & Hi0).
  split; [exact Hm0|]. split; [exact He0|]. split; [exact Hl0|].
  split; [exact Hi0|].
  assert (H0 : messages cleared = [] /\ isLoading cleared = false) by now split.
  clear Hm0 He0 Hl0 Hi0. clearbody cleared. revert cleared H0.
  induction events as [|e events IH]; intros h0 [Hm Hl]; [now split|].
  simpl in Hev. apply andb_true_iff in Hev. destruct Hev as [He Hev].
  change (run env h0 (e :: events)) with (run env (step env h0 e) events).
  apply (IH Hev). unfold step.
  destruct e as [c i u a n| |a n|t chunk|t|t err]; try discriminate; simpl;
    now apply resume_keeps_cleared.
Qed.

Lemma X14_clearChat_silences_earlier_streams_witness :
  let h := step Sample.env init (SendMessage "hi" None "u1" "a1" 0%Z) in
  let cleared := fst (clearChat h) in
  let events := [StreamYield 0 "late"; StreamThrow 0 (Js.newError "boom")] in
  messages cleared = [] /\ error cleared = None /\ isLoading cleared = false
  /\ fst (clearChat cleared) = cleared
  /\ messages (run Sample.env cleared events) = []
  /\ isLoading (run Sample.env cleared events) = false.
Proof.
  intros h cleared events.
  apply (X14_clearChat_silences_earlier_streams Sample.env h events).
  reflexivity.
Defined.

Lemma tryCatchFinally_llmProvider (aid : string) (body : Hook -> Hook * Progress)
    (h : Hook) :
  llmProvider (fst (tryCatchFinally aid body h)) = llmProvider (fst (body h)).
Proof.
  unfold tryCatchFinally. destruct (body h) as [h' [| |err]]; simpl; auto.
  unfold catchBlock. now destruct (isAbortError err).
Qed.

Lemma resume_llmProvider (t : nat) (ev : StreamEvent) (h : Hook) :
  llmProvider (fst (resume t ev h)) = llmProvider h.
Proof.
  unfold resume. destruct (lookupTurn t (pending h)) as [turn|]; [|reflexivity].
  rewrite tryCatchFinally_llmProvider. destruct ev as [chunk| |err]; simpl; auto.
  unfold bodyChunk. now destruct (aborted h).
Qed.

Lemma step_llmProvider_set (env env' : Env) (h : Hook) (e : Event)
    (p : LLMProvider) :
  llmProvider h = Some p ->
  step env h e = step env' h e /\ llmProvider (step env h e) = Some p.
Proof.
  intros Hp. unfold step.
  destruct e as [content images uid aid now| |aid now|t chunk|t|t err];
    cbn [perform].
  - unfold sendMessage, sendMessageOf. destruct (sendGuard content images h); [now split|].
    destruct h as [ms l er a q ps n]. simpl in Hp. subst q.
    unfold tryCatchFinally, bodyStart, getLLM, sendMessageBegin, replaceController.
    destruct a; simpl; now split.
  - unfold clearChat. simpl. split; [reflexivity|].
    now destruct (abortControllerRef h).
  - unfold retryLastMessage, retryLastMessageOf. destruct (lastUserMessage (messages h)); [|now split].
    destruct (isLoading h); [now split|].
    destruct h as [ms l er a q ps n]. simpl in Hp. subst q.
    unfold tryCatchFinally, bodyStart, getLLM, retryBegin, replaceController.
    destruct a; simpl; now split.
  - split; [reflexivity|]. now rewrite resume_llmProvider.
  - split; [reflexivity|]. now rewrite resume_llmProvider.
  - split; [reflexivity|]. now rewrite resume_llmProvider.
Qed.

(** X15. The provider is built once: from a state in which the ref holds
    a provider on, every run keeps that provider in the ref and goes the
    same way whatever the environment says, which is not read again. *)
Theorem X15_provider_is_built_once
    (env env' : Env) (p : LLMProvider) (events : list Event) (h : Hook) :
  llmProvider h = Some p ->
  run env h events = run env' h events
  /\ llmProvider (run env h events) = Some p.
Proof.
  revert h. induction events as [|e events IH]; intros h Hp; [now split|].
  change (run env h (e :: events)) with (run env (step env h e) events).
  change (run env' h (e :: events)) with (run env' (step env' h e) events).
  destruct (step_llmProvider_set env env' h e p Hp) as [Hs Hp'].
  rewrite <- Hs. now apply IH.
Qed.

Lemma X15_provider_is_built_once_witness :
  let h := step Sample.env init (SendMessage "hi" None "u1" "a1" 0%Z) in
  let noKey := {| VITE_LLM_PROVIDER := None; VITE_GENAI_KEY := None;
                  VITE_GENAI_MODEL := None; VITE_OPENAI_API_KEY := None;
                  VITE_OPENAI_MODEL := None; VITE_OPENAI_BASE_URL := None |} in
  let events := [StreamDone 0; SendMessage "again" None "u2" "a2" 1%Z] in
  run Sample.env h events = run noKey h events
  /\ llmProvider (run Sample.env h events)
     = Some (GoogleGenAI
               {| GoogleGenAIProvider.client :=
                    {| GoogleGenAIProvider.client_apiKey := "key" |};
                  GoogleGenAIProvider.model := "gemini-2.5-flash" |}).
Proof.
  intros h noKey events.
  apply (X15_provider_is_built_once Sample.env noKey _ events h). reflexivity.
Defined.

End HookMore.

Section HookFailures.

Import useChat.

Lemma step_llmProvider_unset (env : Env) (err : Js.Thrown) (h : Hook) (e : Event) :
  LLMServiceFactory.createFromEnvironment env = inl err ->
  llmProvider h = None ->
  llmProvider (step env h e) = None.
Proof.
  intros Henv Hp. unfold step.
  destruct e as [content images uid aid now| |aid now|t chunk|t|t err'];
    cbn [perform].
  - unfold sendMessage, sendMessageOf. destruct (sendGuard content images h); [exact Hp|].
    destruct h as [ms l er a q ps n]. simpl in Hp. subst q.
    unfold tryCatchFinally, bodyStart, getLLM, sendMessageBegin, replaceController.
    destruct a; simpl; rewrite Henv; simpl; unfold catchBlock;
      now destruct (isAbortError err).
  - unfold clearChat. simpl. now destruct (abortControllerRef h).
  - unfold retryLastMessage, retryLastMessageOf. destruct (lastUserMessage (messages h)); [|exact Hp].
    destruct (isLoading h); [exact Hp|].
    destruct h as [ms l er a q ps n]. simpl in Hp. subst q.
    unfold tryCatchFinally, bodyStart, getLLM, retryBegin, replaceController.
    destruct a; simpl; rewrite Henv; simpl; unfold catchBlock;
      now destruct (isAbortError err).
  - now rewrite resume_llmProvider.
  - now rewrite resume_llmProvider.
  - now rewrite resume_llmProvider.
Qed.

Lemma reachable_llmProvider_unset (env : Env) (err : Js.Thrown) (h : Hook) :
  LLMServiceFactory.createFromEnvironment env = inl err ->
  reachable env h -> llmProvider h = None.
Proof.
  intros Henv [events ->].
  assert (H : forall h0, llmProvider h0 = None ->
                         llmProvider (run env h0 events) = None).
  { induction events as [|e events IH]; intros h0 H0; [exact H0|].
    apply IH. now apply (step_llmProvider_unset env err). }
  now apply H.
Qed.

(** X16. When the environment does not give a provider (a missing key,
    a type without configuration), every accepted [sendMessage], in every
    state the hook can be in, ends at once: the user message stays in the
    list, the placeholder is removed again, [error] is the message of the
    construction error, the hook is not loading and no call is left
    suspended. *)
Theorem X16_send_without_provider
    (env : Env) (err : Js.Thrown) (h : Hook) (content : string)
    (images : option (list Chat.ImageAttachment)) (uid aid : string) (now : Z) :
  LLMServiceFactory.createFromEnvironment env = inl err ->
  reachable env h ->
  sendGuard content images h = false ->
  let h' := step env h (SendMessage content images uid aid now) in
  messages h'
  = filter (fun msg => negb (String.eqb (Chat.id msg) aid))
      (messages h ++ [userMessage content images uid now])
  /\ error h' = Some (errorMessage err)
  /\ isLoading h' = false
  /\ snd (perform env h (SendMessage content images uid aid now)) = Returned.
Proof.
  intros Henv Hreach Hg h'.
  pose proof (reachable_llmProvider_unset env err h Henv Hreach) as Hp.
  destruct (sendMessage_without_provider env err h content images uid aid now
              Henv Hp Hg) as (H1 & H2 & H3).
  repeat split; auto.
  cbn [perform]. unfold sendMessage, sendMessageOf. rewrite Hg.
  unfold tryCatchFinally. 
  destruct (bodyStart env aid _ _) as [h1 [| |e1]] eqn:Eb; try reflexivity.
  unfold bodyStart, getLLM in Eb.
  destruct (replaceController_fields
              (setError None (setIsLoading true
                 (setMessages (fun prev => prev ++ [userMessage content images uid now;
                                                    loadingMessage aid now]) h))))
    as (_ & _ & _ & _ & _ & _ & R7).
  unfold sendMessageBegin in Eb. rewrite R7 in Eb. simpl in Eb.
  rewrite Hp, Henv in Eb. discriminate.
Qed.

Lemma X16_send_without_provider_witness :
  let noKey := {| VITE_LLM_PROVIDER := None; VITE_GENAI_KEY := None;
                  VITE_GENAI_MODEL := None; VITE_OPENAI_API_KEY := None;
                  VITE_OPENAI_MODEL := None; VITE_OPENAI_BASE_URL := None |} in
  let h' := step noKey init (SendMessage "hi" None "u1" "a1" 0%Z) in
  messages h'
  = filter (fun msg => negb (String.eqb (Chat.id msg) "a1"))
      (messages init ++ [userMessage "hi" None "u1" 0%Z])
  /\ error h' = Some (errorMessage (Js.newError "Google GenAI API key is required"))
  /\ isLoading h' = false
  /\ snd (perform noKey init (SendMessage "hi" None "u1" "a1" 0%Z)) = Returned.
Proof.
  intros noKey.
  apply (X16_send_without_provider noKey
           (Js.newError "Google GenAI API key is required") init "hi" None
           "u1" "a1" 0%Z).
  - reflexivity.
  - now exists [].
  - reflexivity.
Defined.

(** A stream that throws an abort error. *)
Lemma turn_aborts (env : Env) (t : nat) (aid : string) (now : Z)
    (llmMessages : list LLM.Message) (before : list Chat.Message)
    (chunks : list string) (err : Js.Thrown) (h1 : Hook) :
  messages h1 = before ++ [loadingMessage aid now] ->
  lookupTurn t (pending h1)
  = Some {| assistantMessageId := aid; accumulatedContent := "";
            llmMessages := llmMessages |} ->
  aborted h1 = false ->
  isAbortError err = true ->
  let final := run env h1 (streamEvents t {| items := chunks; ending := Some err |}) in
  messages final
  = match chunks with
    | [] => before ++ [loadingMessage aid now]
    | _ => map (mergeInto aid (concatFragments chunks)) before
           ++ [assistantReply aid (concatFragments chunks) now]
    end
  /\ isLoading final = false
  /\ error final = error h1.
Proof.
  intros Hm Hturn Hab Herr final. subst final.
  unfold streamEvents, run. rewrite fold_left_app. simpl.
  fold (run env h1 (map (StreamYield t) chunks)).
  destruct (run_chunks env t chunks h1 _ Hturn Hab) as (H1 & H2 & H3 & H4 & H5).
  simpl in H1, H5.
  set (h' := run env h1 (map (StreamYield t) chunks)) in *.
  unfold step. simpl. unfold resume. rewrite H1. simpl.
  unfold catchBlock. rewrite Herr. simpl.
  repeat split; auto.
  rewrite H5. destruct chunks as [|c chunks]; [exact Hm|].
  rewrite Hm, map_app. simpl. now rewrite mergeInto_loadingMessage.
Qed.

(** X17. When the stream of a turn throws an [Error] named
    ["AbortError"], the call returns without touching the list or the
    error: the hook stops loading, no error is shown, and the message of
    the turn stays as the last chunk left it; if no chunk had arrived it
    keeps showing the loading indicator. *)
Theorem X17_abort_error_leaves_placeholder
    (env : Env) (e : Event) (aid : string) (now : Z) (h h1 : Hook)
    (chunks : list string) (message : string) :
  startsTurn e aid now ->
  reachable env h ->
  perform env h e = (h1, Suspended) ->
  let final :=
    run env h1
      (streamEvents (streams h)
         {| items := chunks; ending := Some (Js.ErrorObject "AbortError" message) |}) in
  exists before,
    messages h1 = before ++ [loadingMessage aid now]
    /\ messages final
       = match chunks with
         | [] => before ++ [loadingMessage aid now]
         | _ => map (mergeInto aid (concatFragments chunks)) before
                ++ [assistantReply aid (concatFragments chunks) now]
         end
    /\ error final = None
    /\ isLoading final = false
    /\ (chunks = [] -> showsLoading (last (messages final) (loadingMessage aid now)) = true).
Proof.
  intros Hstart Hreach Hperf final.
  destruct (turn_started env e aid now h h1 Hstart
              (reachable_keysFresh env h Hreach) Hperf)
    as (before & hist & Hm & Hturn & Hab & _ & Herr & _).
  destruct (turn_aborts env (streams h) aid now _ before chunks
              (Js.ErrorObject "AbortError" message) h1 Hm Hturn Hab eq_refl)
    as (Hfinal & Hl & He).
  exists before. split; [exact Hm|]. split; [exact Hfinal|].
  split; [now rewrite <- Herr|]. split; [exact Hl|].
  intros ->. subst final. rewrite Hfinal. now rewrite last_last.
Qed.

Lemma X17_abort_error_leaves_placeholder_witness :
  let h1 := step Sample.env init (SendMessage "hi" None "u1" "a1" 0%Z) in
  let final :=
    run Sample.env h1
      (streamEvents 0 {| items := [];
                         ending := Some (Js.ErrorObject "AbortError" "aborted") |}) in
  exists before,
    messages h1 = before ++ [loadingMessage "a1" 0%Z]
    /\ messages final = before ++ [loadingMessage "a1" 0%Z]
    /\ error final = None
    /\ isLoading final = false
    /\ (@nil string = [] ->
        showsLoading (last (messages final) (loadingMessage "a1" 0%Z)) = true).
Proof.
  apply (X17_abort_error_leaves_placeholder Sample.env
           (SendMessage "hi" None "u1" "a1" 0%Z) "a1" 0%Z init _ [] "aborted").
  - left. now exists "hi", None, "u1".
  - now exists [].
  - reflexivity.
Defined.

End HookFailures.

Section HookHistories.

Import useChat.

Lemma dropTrailingAssistant_user (before : list Chat.Message) (u : Chat.Message) :
  Chat.role u = Chat.user ->
  dropTrailingAssistant (before ++ [u]) = before ++ [u].
Proof. intros Hu. unfold dropTrailingAssistant. now rewrite rev_unit, Hu. Qed.

Lemma retryHistory_user_last (before : list Chat.Message) (u : Chat.Message) :
  Chat.role u = Chat.user ->
  Forall (fun m => Chat.id m <> Chat.id u) before ->
  retryHistory (before ++ [u]) u = before ++ [u; u].
Proof.
  intros Hu Hids. unfold retryHistory.
  rewrite (filter_ext _
             (fun msg => Chat.is_user (Chat.role msg)
                         || negb (String.eqb (Chat.id msg) (Chat.id u))))
    by (intros x; now rewrite differsFromLast_snoc).
  rewrite filter_app. simpl. rewrite Hu. simpl. rewrite <- app_assoc. simpl.
  f_equal.
  induction Hids as [|m ms Hm _ IH]; simpl; [reflexivity|].
  destruct (String.eqb_spec (Chat.id m) (Chat.id u)); [contradiction|].
  simpl. rewrite orb_true_r. now f_equal.
Qed.

(** X18. [retryLastMessage] when the last message is a user message (as
    after a failed turn, whose placeholder was removed): nothing is
    removed, a loading placeholder is appended, and the history handed to
    the provider is the whole list followed by its last message once
    more, so that the provider receives that user turn twice in a row. *)
Theorem X18_retry_after_failure_repeats_user_turn
    (env : Env) (llm : LLMProvider) (h : Hook)
    (before : list Chat.Message) (u : Chat.Message) (aid : string) (now : Z) :
  LLMServiceFactory.createFromEnvironment env = inr llm ->
  reachable env h ->
  messages h = before ++ [u] ->
  Chat.role u = Chat.user ->
  Forall (fun m => Chat.id m <> Chat.id u) before ->
  isLoading h = false ->
  let h' := step env h (RetryLastMessage aid now) in
  messages h' = before ++ [u; loadingMessage aid now]
  /\ isLoading h' = true
  /\ error h' = None
  /\ lookupTurn (streams h) (pending h')
     = Some {| assistantMessageId := aid; accumulatedContent := "";
               llmMessages :=
                 map convertToLLMMessage before
                 ++ [convertToLLMMessage u; convertToLLMMessage u] |}.
Proof.
  intros Henv Hreach Hm Hu Hids Hl h'.
  assert (Hlast : lastUserMessage (messages h) = Some u).
  { rewrite Hm, lastUserMessage_snoc, Hu. reflexivity. }
  assert (Hperf : exists h1, perform env h (RetryLastMessage aid now) = (h1, Suspended)).
  { simpl. unfold retryLastMessage, retryLastMessageOf. rewrite Hlast, Hl.
    destruct (bodyStart_configured env llm aid (retryHistory (messages h) u)
                (retryBegin aid now h) Henv) as [h1 Hb].
    exists h1. unfold tryCatchFinally. now rewrite Hb. }
  destruct Hperf as [h1 Hperf].
  destruct (turn_started env (RetryLastMessage aid now) aid now h h1
              (or_intror eq_refl) (reachable_keysFresh env h Hreach) Hperf)
    as (before' & hist & H1 & H2 & _ & H4 & H5 & _ & Hcase).
  destruct Hcase as [(c & i & uid & Heq & _) | (u' & _ & Hu' & -> & ->)];
    [discriminate|].
  assert (u' = u) by congruence. subst u'.
  subst h'. unfold step. rewrite Hperf. simpl.
  rewrite Hm, dropTrailingAssistant_user in H1 by exact Hu.
  rewrite Hm, retryHistory_user_last in H2 by assumption.
  rewrite H1, H2, <- app_assoc, map_app. simpl. auto.
Qed.

Lemma X18_retry_after_failure_repeats_user_turn_witness :
  let h := run Sample.env init
             [SendMessage "hi" None "u1" "a1" 0%Z;
              StreamThrow 0 (Js.newError "google-genai Error: overloaded")] in
  let h' := step Sample.env h (RetryLastMessage "a2" 1%Z) in
  messages h' = [] ++ [userMessage "hi" None "u1" 0%Z; loadingMessage "a2" 1%Z]
  /\ isLoading h' = true
  /\ error h' = None
  /\ lookupTurn (streams h) (pending h')
     = Some {| assistantMessageId := "a2"; accumulatedContent := "";
               llmMessages :=
                 map convertToLLMMessage []
                 ++ [convertToLLMMessage (userMessage "hi" None "u1" 0%Z);
                     convertToLLMMessage (userMessage "hi" None "u1" 0%Z)] |}.
Proof.
  intros h.
  apply (X18_retry_after_failure_repeats_user_turn Sample.env
           (GoogleGenAI
              {| GoogleGenAIProvider.client :=
                   {| GoogleGenAIProvider.client_apiKey := "key" |};
                 GoogleGenAIProvider.model := "gemini-2.5-flash" |})
           h [] (userMessage "hi" None "u1" 0%Z) "a2" 1%Z).
  - reflexivity.
  - now eexists.
  - reflexivity.
  - reflexivity.
  - constructor.
  - reflexivity.
Defined.

Lemma convertToLLMMessage_not_system (m : Chat.Message) :
  LLM.role (convertToLLMMessage m) <> LLM.system.
Proof. unfold convertToLLMMessage, convertRole. simpl. now destruct (Chat.role m). Qed.

(** X19. An accepted [sendMessage] hands the provider the whole list as
    the call found it, converted message by message and in order
    (earlier replies and placeholders included), followed by the new user
    turn with the trimmed text; the new placeholder is not part of it,
    and no turn of it has the role [system]. *)
Theorem X19_sendMessage_sends_whole_history
    (env : Env) (h h1 : Hook) (content : string)
    (images : option (list Chat.ImageAttachment)) (uid aid : string) (now : Z) :
  reachable env h ->
  perform env h (SendMessage content images uid aid now) = (h1, Suspended) ->
  exists sent,
    lookupTurn (streams h) (pending h1)
    = Some {| assistantMessageId := aid; accumulatedContent := "";
              llmMessages := sent |}
    /\ sent = map convertToLLMMessage (messages h)
              ++ [{| LLM.role := LLM.user; LLM.content := Js.trim content;
                     LLM.images :=
                       option_map
                         (map (fun img => {| LLM.type := Chat.type img;
                                             LLM.data := Chat.base64 img |}))
                         images |}]
    /\ length sent = S (length (messages h))
    /\ Forall (fun m => LLM.role m <> LLM.system) sent.
Proof.
  intros Hreach Hperf.
  destruct (turn_started env _ aid now h h1
              (or_introl (ex_intro _ content (ex_intro _ images (ex_intro _ uid eq_refl))))
              (reachable_keysFresh env h Hreach) Hperf)
    as (before & hist & _ & H2 & _ & _ & _ & _ & Hcase).
  destruct Hcase as [(c & i & u & Heq & _ & _ & ->) | (u' & Heq & _)];
    [|discriminate].
  injection Heq as <- <- <-.
  eexists. split; [exact H2|]. rewrite map_app. simpl.
  split; [reflexivity|]. split.
  - rewrite length_app, length_map. simpl. lia.
  - apply Forall_app. split.
    + apply Forall_map, Forall_forall. intros m _.
      apply convertToLLMMessage_not_system.
    + repeat constructor. discriminate.
Qed.

Lemma X19_sendMessage_sends_whole_history_witness :
  let h := run Sample.env init
             [SendMessage "hi" None "u1" "a1" 0%Z; StreamYield 0 "yo"; StreamDone 0] in
  exists sent,
    lookupTurn (streams h)
      (pending (step Sample.env h (SendMessage " more " None "u2" "a2" 1%Z)))
    = Some {| assistantMessageId := "a2"; accumulatedContent := "";
              llmMessages := sent |}
    /\ sent = map convertToLLMMessage (messages h)
              ++ [{| LLM.role := LLM.user; LLM.content := Js.trim " more ";
                     LLM.images :=
                       option_map
                         (map (fun img => {| LLM.type := Chat.type img;
                                             LLM.data := Chat.base64 img |}))
                         None |}]
    /\ length sent = S (length (messages h))
    /\ Forall (fun m => LLM.role m <> LLM.system) sent.
Proof.
  intros h.
  apply (X19_sendMessage_sends_whole_history Sample.env h
           (step Sample.env h (SendMessage " more " None "u2" "a2" 1%Z))
           " more " None "u2" "a2" 1%Z).
  - now eexists.
  - reflexivity.
Defined.

End HookHistories.

Section QuietRuns.

Import useChat.

Lemma performOf_same (env : Env) (h : Hook) (e : Event) :
  performOf env h h e = perform env h e.
Proof. now destruct e. Qed.

(** The invariant of quiet runs is kept by every event, a call being
    made through a render that shows the loading flag as it is. *)
Lemma turnInvariant_act (env : Env) (c : Component) (a : Action) :
  quietAction a = true ->
  inStep c a = true ->
  turnInvariant (hook c) ->
  turnInvariant (hook (act env c a)).
Proof.
  destruct c as [h seen]. destruct a as [|e]; [now intros|].
  cbn [quietAction act hook useChat.seen].
  destruct e as [content images uid aid now| |aid now|t chunk|t|t err];
    cbn [inStep hook useChat.seen]; intros Hq Hstep Hinv.
  - (* sendMessage *)
    apply Bool.eqb_prop in Hstep. cbn [performOf]. unfold sendMessageOf.
    destruct (sendGuard content images seen) eqn:Hg; [exact Hinv|].
    unfold sendGuard in Hg. apply orb_false_iff in Hg. destruct Hg as [_ Hs].
    rewrite Hs in Hstep. destruct Hinv as [Hab Hinv]. rewrite <- Hstep in Hinv.
    destruct Hinv as [Hp Hms].
    destruct (replaceController_fields
                (setError None (setIsLoading true
                   (setMessages (fun prev => prev ++ [userMessage content images uid now;
                                                      loadingMessage aid now]) h))))
      as (R1 & R2 & R3 & R4 & R5 & R6 & R7).
    apply turnInvariant_start
      with (now := now) (before := messages h ++ [userMessage content images uid now]);
      unfold sendMessageBegin.
    + now rewrite R5.
    + rewrite R1. simpl. now rewrite <- app_assoc.
    + unfold aborted. now rewrite R4.
    + now rewrite R2.
    + apply Forall_app. split; [exact Hms|]. now repeat constructor.
  - discriminate.
  - (* retryLastMessage *)
    apply Bool.eqb_prop in Hstep. cbn [performOf]. unfold retryLastMessageOf.
    destruct (lastUserMessage (messages seen)); [|exact Hinv].
    destruct (isLoading seen) eqn:Hs; [exact Hinv|].
    destruct Hinv as [Hab Hinv]. rewrite <- Hstep in Hinv.
    destruct Hinv as [Hp Hms].
    destruct (replaceController_fields
                (setError None (setIsLoading true
                   (setMessages (fun prev => prev ++ [loadingMessage aid now])
                      (setMessages dropTrailingAssistant h)))))
      as (R1 & R2 & R3 & R4 & R5 & R6 & R7).
    apply turnInvariant_start
      with (now := now) (before := dropTrailingAssistant (messages h));
      unfold retryBegin.
    + now rewrite R5.
    + now rewrite R1.
    + unfold aborted. now rewrite R4.
    + now rewrite R2.
    + now apply notLoading_dropTrailingAssistant.
  - exact (turnInvariant_step env h (StreamYield t chunk) Hq Hinv).
  - exact (turnInvariant_step env h (StreamDone t) Hq Hinv).
  - exact (turnInvariant_step env h (StreamThrow t err) Hq Hinv).
Qed.

Lemma quiet_play_turnInvariant (env : Env) (actions : list Action) :
  forall c,
    forallb quietAction actions = true ->
    callsInStep env c actions = true ->
    turnInvariant (hook c) ->
    turnInvariant (hook (play env c actions)).
Proof.
  induction actions as [|a actions IH]; intros c Hq Hs Hinv; [exact Hinv|].
  cbn [forallb callsInStep] in Hq, Hs.
  apply andb_true_iff in Hq. destruct Hq as [Ha Hq].
  apply andb_true_iff in Hs. destruct Hs as [Hsa Hs].
  cbn [play fold_left]. apply (IH _ Hq Hs). now apply turnInvariant_act.
Qed.

(** X20. Along every run of the component in which [clearChat] is not
    called, no stream throws an abort error, and each call of
    [sendMessage] or [retryLastMessage] is made through a render that
    shows the loading flag as it is at the call (renders and events
    interleave freely otherwise): at most one call is suspended on a
    stream, the loading flag is on exactly while one is, at most one
    message shows the loading indicator, and only the last message of
    the list may show it. *)
Theorem X20_one_turn_at_a_time (env : Env) (actions : list Action) :
  forallb quietAction actions = true ->
  callsInStep env mounted actions = true ->
  let h := hook (play env mounted actions) in
  length (pending h) <= 1
  /\ (isLoading h = true <-> pending h <> [])
  /\ loadingCount (messages h) <= 1
  /\ Forall (fun msg => showsLoading msg = false) (removelast (messages h)).
Proof.
  intros Hq Hs h.
  assert (Hinv : turnInvariant h).
  { apply (quiet_play_turnInvariant env actions mounted Hq Hs).
    split; [reflexivity|]. simpl. split; [reflexivity|constructor]. }
  destruct (turnInvariant_loadingOnlyLast _ Hinv) as [Hc Hl].
  destruct Hinv as [_ Hinv].
  repeat split; auto.
  - destruct (isLoading h).
    + destruct Hinv as (t & turn & before & m & -> & _). simpl. lia.
    + destruct Hinv as [-> _]. simpl. lia.
  - intros Hl'. rewrite Hl' in Hinv.
    destruct Hinv as (t & turn & before & m & -> & _). discriminate.
  - intros Hp. destruct (isLoading h); [reflexivity|].
    destruct Hinv as [Hp' _]. contradiction.
Qed.

Lemma X20_one_turn_at_a_time_witness :
  let h := hook (play Sample.env mounted
                   [ Fire (SendMessage "hi" None "u1" "a1" 0%Z);
                     Render;
                     Fire (SendMessage "too early" None "u2" "a2" 1%Z);
                     Fire (StreamYield 0 "yo");
                     Fire (StreamDone 0);
                     Render;
                     Fire (RetryLastMessage "a3" 2%Z) ]) in
  length (pending h) <= 1
  /\ (isLoading h = true <-> pending h <> [])
  /\ loadingCount (messages h) <= 1
  /\ Forall (fun msg => showsLoading msg = false) (removelast (messages h)).
Proof.
  apply (X20_one_turn_at_a_time Sample.env
           [ Fire (SendMessage "hi" None "u1" "a1" 0%Z);
             Render;
             Fire (SendMessage "too early" None "u2" "a2" 1%Z);
             Fire (StreamYield 0 "yo");
             Fire (StreamDone 0);
             Render;
             Fire (RetryLastMessage "a3" 2%Z) ]).
  - reflexivity.
  - vm_compute. reflexivity.
Defined.

Lemma getLLM_available (env : Env) (llm : LLMProvider) (h : Hook) :
  LLMServiceFactory.createFromEnvironment env = inr llm ->
  exists llm', fst (getLLM env h) = inr llm'.
Proof.
  intros Henv. destruct (getLLM_configured env llm h Henv) as [llm' ->].
  now exists llm'.
Qed.

(** X29. Two calls of [sendMessage] through the same render, with no
    render in between: the second reads the loading flag and the message
    list of that render, so both are accepted.  Each appends its user
    message and its placeholder, both calls are suspended on a stream of
    their own, two more messages show the loading indicator, and the
    history the second call hands to the provider is the list of that
    render followed by its own user message, without the first call's
    message. *)
Theorem X29_two_calls_through_one_render
    (env : Env) (llm : LLMProvider) (c : Component)
    (content1 content2 : string)
    (images1 images2 : option (list Chat.ImageAttachment))
    (uid1 aid1 uid2 aid2 : string) (now1 now2 : Z) :
  LLMServiceFactory.createFromEnvironment env = inr llm ->
  isLoading (seen c) = false ->
  Js.trim content1 <> "" \/ (exists img rest, images1 = Some (img :: rest)) ->
  Js.trim content2 <> "" \/ (exists img rest, images2 = Some (img :: rest)) ->
  let u1 := userMessage content1 images1 uid1 now1 in
  let u2 := userMessage content2 images2 uid2 now2 in
  let h' := hook (play env c [ Fire (SendMessage content1 images1 uid1 aid1 now1);
                               Fire (SendMessage content2 images2 uid2 aid2 now2) ]) in
  messages h'
  = messages (hook c)
    ++ [u1; loadingMessage aid1 now1; u2; loadingMessage aid2 now2]
  /\ pending h'
     = pending (hook c)
       ++ [ (streams (hook c),
             {| assistantMessageId := aid1; accumulatedContent := "";
                llmMessages := map convertToLLMMessage (messages (seen c) ++ [u1]) |});
            (S (streams (hook c)),
             {| assistantMessageId := aid2; accumulatedContent := "";
                llmMessages := map convertToLLMMessage (messages (seen c) ++ [u2]) |}) ]
  /\ isLoading h' = true
  /\ loadingCount (messages h') = loadingCount (messages (hook c)) + 2.
Proof.
  intros Henv Hl Hin1 Hin2 u1 u2 h'. subst u1 u2 h'.
  destruct c as [h seen]. cbn [hook useChat.seen] in *.
  cbn [play fold_left act hook useChat.seen performOf].
  pose proof (sendGuard_false content1 images1 seen Hin1 Hl) as Hg1.
  pose proof (sendGuard_false content2 images2 seen Hin2 Hl) as Hg2.
  destruct (getLLM_available env llm h Henv) as [llm1 Hllm1].
  rewrite (sendMessageOf_suspended env seen h content1 images1 uid1 aid1 now1
             llm1 Hg1 Hllm1).
  cbn [fst].
  set (h1 := suspend _ _).
  destruct (getLLM_available env llm h1 Henv) as [llm2 Hllm2].
  rewrite (sendMessageOf_suspended env seen h1 content2 images2 uid2 aid2 now2
             llm2 Hg2 Hllm2).
  cbn [fst].
  destruct (sendMessageBegin_fields content1 images1 uid1 aid1 now1 h)
    as (B1 & B2 & B3 & B4 & B5).
  destruct (getLLM_fields env (sendMessageBegin content1 images1 uid1 aid1 now1 h))
    as (G1 & G2 & G3 & G4 & G5 & _).
  destruct (sendMessageBegin_fields content2 images2 uid2 aid2 now2 h1)
    as (C1 & C2 & C3 & C4 & C5).
  destruct (getLLM_fields env (sendMessageBegin content2 images2 uid2 aid2 now2 h1))
    as (K1 & K2 & K3 & K4 & K5 & _).
  assert (Hm1 : messages h1
                = messages h ++ [userMessage content1 images1 uid1 now1;
                                 loadingMessage aid1 now1]).
  { unfold h1. cbn [messages suspend]. now rewrite G1. }
  assert (Hp1 : pending h1
                = pending h
                  ++ [(streams h,
                       {| assistantMessageId := aid1; accumulatedContent := "";
                          llmMessages :=
                            map convertToLLMMessage
                              (messages seen
                               ++ [userMessage content1 images1 uid1 now1]) |})]).
  { unfold h1. cbn [pending suspend]. now rewrite G4, G5, B4, B5. }
  assert (Hs1 : streams h1 = S (streams h)).
  { unfold h1. cbn [streams suspend]. now rewrite G5, B5. }
  assert (Hm : messages
                 (suspend
                    {| assistantMessageId := aid2; accumulatedContent := "";
                       llmMessages :=
                         map convertToLLMMessage
                           (messages seen
                            ++ [userMessage content2 images2 uid2 now2]) |}
                    (snd (getLLM env
                            (sendMessageBegin content2 images2 uid2 aid2 now2 h1))))
               = messages h
                 ++ [userMessage content1 images1 uid1 now1;
                     loadingMessage aid1 now1;
                     userMessage content2 images2 uid2 now2;
                     loadingMessage aid2 now2]).
  { cbn [messages suspend]. rewrite K1, C1, Hm1, <- app_assoc. reflexivity. }
  split; [exact Hm|]. split; [|split].
  - cbn [pending suspend]. rewrite K4, K5, C4, C5, Hp1, Hs1, <- app_assoc.
    reflexivity.
  - cbn [isLoading suspend]. now rewrite K2.
  - rewrite Hm, loadingCount_app. reflexivity.
Qed.

Lemma X29_two_calls_through_one_render_witness :
  let h' := hook (play Sample.env mounted
                    [ Fire (SendMessage "a" None "u1" "a1" 0%Z);
                      Fire (SendMessage "b" None "u2" "a2" 1%Z) ]) in
  messages h'
  = messages (hook mounted)
    ++ [ userMessage "a" None "u1" 0%Z; loadingMessage "a1" 0%Z;
         userMessage "b" None "u2" 1%Z; loadingMessage "a2" 1%Z ]
  /\ pending h'
     = pending (hook mounted)
       ++ [ (streams (hook mounted),
             {| assistantMessageId := "a1"; accumulatedContent := "";
                llmMessages :=
                  map convertToLLMMessage
                    (messages (seen mounted) ++ [userMessage "a" None "u1" 0%Z]) |});
            (S (streams (hook mounted)),
             {| assistantMessageId := "a2"; accumulatedContent := "";
                llmMessages :=
                  map convertToLLMMessage
                    (messages (seen mounted) ++ [userMessage "b" None "u2" 1%Z]) |}) ]
  /\ isLoading h' = true
  /\ loadingCount (messages h') = loadingCount (messages (hook mounted)) + 2.
Proof.
  apply (X29_two_calls_through_one_render Sample.env
           (GoogleGenAI
              {| GoogleGenAIProvider.client :=
                   {| GoogleGenAIProvider.client_apiKey := "key" |};
                 GoogleGenAIProvider.model := "gemini-2.5-flash" |})
           mounted "a" "b" None None "u1" "a1" "u2" "a2" 0%Z 1%Z).
  - reflexivity.
  - reflexivity.
  - left. discriminate.
  - left. discriminate.
Defined.

End QuietRuns.

(* ===================================================================== *)
(** ** The providers' streams, and the Google stream in the hook          *)
(* ===================================================================== *)

Section ProviderStreams.

Import useChat.

Lemma prefix_append (a b : string) : String.prefix a (a ++ b) = true.
Proof.
  induction a as [|c a IH]; simpl; [now destruct b|].
  now rewrite Ascii.eqb_refl || (destruct (ascii_dec c c); [exact IH|congruence]).
Qed.

Lemma wrapError_shape (name : string) (error : Js.Thrown) :
  exists message,
    wrapError name error = Js.ErrorObject "Error" message
    /\ (String.prefix (name ++ " Error: ") message = true
        \/ message = ("Failed to generate response from " ++ name)%string).
Proof.
  destruct error as [n m|v]; unfold wrapError, Js.newError; eexists;
    (split; [reflexivity|]).
  - left. rewrite <- append_assoc. apply prefix_append.
  - now right.
Qed.

Lemma yieldChunks_nonempty (chunks : list (option string)) :
  Forall (fun t => t <> "") (GoogleGenAIProvider.yieldChunks chunks).
Proof.
  unfold GoogleGenAIProvider.yieldChunks.
  induction chunks as [|[[|c t]|] chunks IH]; simpl; auto.
  constructor; [discriminate|exact IH].
Qed.

Lemma yieldChunks_filter (chunks : list (option string)) :
  map Some (GoogleGenAIProvider.yieldChunks chunks)
  = filter Js.truthy_opt chunks.
Proof.
  unfold GoogleGenAIProvider.yieldChunks.
  induction chunks as [|[[|c t]|] chunks IH]; simpl; auto.
  now rewrite IH.
Qed.

(** X21. Whatever makes a provider's stream fail (the SDK call or its
    stream, [fetch], a response that is not ok, a missing body, the
    reader), the stream ends with a new [Error] named ["Error"] whose
    message starts with the provider's name followed by [" Error: "], or
    is the fixed text for thrown values that are no errors; it is never
    an abort error.  The Google stream yields the SDK's non-empty texts,
    in order, and nothing else. *)
Theorem X21_provider_streams_wrap_errors :
  (forall JSON_parse fetched err,
      ending (OpenAIProvider.generateStreamingResponse JSON_parse fetched) = Some err ->
      isAbortError err = false
      /\ exists message,
           err = Js.ErrorObject "Error" message
           /\ (String.prefix "openai Error: " message = true
               \/ message = "Failed to generate response from openai"))
  /\ (forall prompt sdk messages err,
        ending (GoogleGenAIProvider.generateStreamingResponse prompt sdk messages)
        = Some err ->
        isAbortError err = false
        /\ exists message,
             err = Js.ErrorObject "Error" message
             /\ (String.prefix "google-genai Error: " message = true
                 \/ message = "Failed to generate response from google-genai"))
  /\ (forall prompt sdk messages response,
        sdk (GoogleGenAIProvider.buildContents prompt messages) = inr response ->
        map Some (items (GoogleGenAIProvider.generateStreamingResponse
                           prompt sdk messages))
        = filter Js.truthy_opt (items response)).
Proof.
  assert (Hwrap : forall name e,
            isAbortError (wrapError name e) = false
            /\ exists message,
                 wrapError name e = Js.ErrorObject "Error" message
                 /\ (String.prefix (name ++ " Error: ") message = true
                     \/ message = ("Failed to generate response from " ++ name)%string)).
  { intros name e. destruct (wrapError_shape name e) as (m & Hm & Hp).
    rewrite Hm. split; [reflexivity|]. now exists m. }
  split; [|split].
  - intros JSON_parse fetched err.
    unfold OpenAIProvider.generateStreamingResponse.
    destruct fetched as [e|response]; cbn [ending].
    + intros [= <-]. exact (Hwrap OpenAIProvider.name e).
    + destruct (OpenAIProvider.ok response); cbn [negb ending].
      * destruct (OpenAIProvider.body response) as [reader|]; cbn [ending].
        -- destruct (ending (OpenAIProvider.readLoop _ _ _ _)) as [e|];
             cbn [option_map]; [|discriminate].
           intros [= <-]. exact (Hwrap OpenAIProvider.name e).
        -- intros [= <-].
           exact (Hwrap OpenAIProvider.name
                    (Js.newError "Failed to get response reader")).
      * intros [= <-].
        exact (Hwrap OpenAIProvider.name
                 (Js.newError ("OpenAI API error: " ++ OpenAIProvider.status response
                               ++ " " ++ OpenAIProvider.statusText response))).
  - intros prompt sdk messages err.
    unfold GoogleGenAIProvider.generateStreamingResponse.
    destruct (sdk _) as [e|response]; cbn [ending].
    + intros [= <-]. exact (Hwrap GoogleGenAIProvider.name e).
    + destruct (ending response) as [e|]; cbn [option_map]; [|discriminate].
      intros [= <-]. exact (Hwrap GoogleGenAIProvider.name e).
  - intros prompt sdk messages response Hsdk.
    unfold GoogleGenAIProvider.generateStreamingResponse. rewrite Hsdk. simpl.
    apply yieldChunks_filter.
Qed.

Lemma X21_provider_streams_wrap_errors_witness :
  isAbortError
    (Js.ErrorObject "Error" "openai Error: OpenAI API error: 429 Too Many Requests")
  = false
  /\ exists message,
       Js.ErrorObject "Error" "openai Error: OpenAI API error: 429 Too Many Requests"
       = Js.ErrorObject "Error" message
       /\ (String.prefix "openai Error: " message = true
           \/ message = "Failed to generate response from openai").
Proof.
  apply (X21_provider_streams_wrap_errors) with
    (JSON_parse := Sample.parse)
    (fetched := inr {| OpenAIProvider.ok := false;
                       OpenAIProvider.status := "429";
                       OpenAIProvider.statusText := "Too Many Requests";
                       OpenAIProvider.body := None |}).
  reflexivity.
Defined.

End ProviderStreams.

Section GoogleInTheHook.

Import useChat.

Lemma concatFragments_nonempty (chunks : list string) :
  Forall (fun t => t <> "") chunks -> chunks <> [] ->
  concatFragments chunks <> "".
Proof.
  intros Hall Hne. destruct Hall as [|c chunks Hc _]; [congruence|].
  simpl. destruct c; [congruence|discriminate].
Qed.

Lemma google_items_nonempty (prompt : string)
    (sdk : list GoogleGenAIProvider.Content -> Js.Result (Stream (option string)))
    (messages : list LLM.Message) :
  Forall (fun t => t <> "")
    (items (GoogleGenAIProvider.generateStreamingResponse prompt sdk messages)).
Proof.
  unfold GoogleGenAIProvider.generateStreamingResponse.
  destruct (sdk _); simpl; [constructor|apply yieldChunks_nonempty].
Qed.

Lemma google_ending_not_abort (prompt : string)
    (sdk : list GoogleGenAIProvider.Content -> Js.Result (Stream (option string)))
    (messages : list LLM.Message) (err : Js.Thrown) :
  ending (GoogleGenAIProvider.generateStreamingResponse prompt sdk messages)
  = Some err ->
  isAbortError err = false.
Proof.
  unfold GoogleGenAIProvider.generateStreamingResponse.
  destruct (sdk _) as [e|response]; cbn [ending].
  - intros [= <-]. destruct (wrapError_shape GoogleGenAIProvider.name e) as (m & -> & _).
    reflexivity.
  - destruct (ending response) as [e|]; cbn [option_map]; [|discriminate].
    intros [= <-]. destruct (wrapError_shape GoogleGenAIProvider.name e) as (m & -> & _).
    reflexivity.
Qed.

(** X22. A turn of the hook fed by the Google GenAI provider, whatever
    the SDK does.  When the provider's stream completes, the reply is the
    concatenation of the fragments if there is any, and the fallback text
    if there is none; it is never empty.  When it fails, the placeholder
    is removed and [error] is the message of the wrapped error.  In both
    cases the hook stops loading. *)
Theorem X22_google_stream_through_hook
    (env : Env) (e : Event) (aid : string) (now : Z) (h h1 : Hook)
    (prompt : string)
    (sdk : list GoogleGenAIProvider.Content -> Js.Result (Stream (option string))) :
  startsTurn e aid now ->
  reachable env h ->
  perform env h e = (h1, Suspended) ->
  exists before sent,
    messages h1 = before ++ [loadingMessage aid now]
    /\ lookupTurn (streams h) (pending h1)
       = Some {| assistantMessageId := aid; accumulatedContent := "";
                 llmMessages := sent |}
    /\ let s := GoogleGenAIProvider.generateStreamingResponse prompt sdk sent in
       let final := run env h1 (streamEvents (streams h) s) in
       isLoading final = false
       /\ (ending s = None ->
           let reply := if match items s with [] => true | _ => false end
                        then "No response generated."
                        else concatFragments (items s) in
           messages final
           = map (mergeInto aid reply) before ++ [assistantReply aid reply now]
           /\ reply <> "")
       /\ (forall err, ending s = Some err ->
             messages final
             = filter (fun msg => negb (String.eqb (Chat.id msg) aid)) before
             /\ error final = Some (errorMessage err)).
Proof.
  intros Hstart Hreach Hperf.
  destruct (turn_started env e aid now h h1 Hstart
              (reachable_keysFresh env h Hreach) Hperf)
    as (before & hist & Hm & Hturn & Hab & _).
  exists before, (map convertToLLMMessage hist).
  split; [exact Hm|]. split; [exact Hturn|].
  intros s final.
  pose proof (google_items_nonempty prompt sdk (map convertToLLMMessage hist)) as Hne.
  fold s in Hne. subst final.
  assert (Hend : forall err, ending s = Some err -> isAbortError err = false).
  { intros err. apply google_ending_not_abort. }
  clearbody s. destruct s as [chunks en]. simpl in Hne, Hend |- *.
  destruct en as [err|].
  - destruct (turn_fails env (streams h) aid now _ before chunks err h1
                Hm Hturn Hab (Hend err eq_refl)) as (Hfinal & Hl & He).
    split; [exact Hl|]. split; [discriminate|].
    intros err' [= <-]. now split.
  - destruct (turn_completes env (streams h) aid now _ before chunks h1
                Hm Hturn Hab) as (Hfinal & Hl & _).
    split; [exact Hl|]. split; [|discriminate].
    intros _. unfold finalContent in Hfinal.
    destruct chunks as [|c chunks]; [split; [exact Hfinal|discriminate]|].
    pose proof (concatFragments_nonempty (c :: chunks) Hne) as Hc.
    assert (Hc' : concatFragments (c :: chunks) <> "") by (apply Hc; discriminate).
    split; [|exact Hc'].
    cbv zeta. cbn [items].
    set (cc := concatFragments (c :: chunks)) in *.
    destruct cc; [congruence|exact Hfinal].
Qed.

Lemma X22_google_stream_through_hook_witness :
  let h1 := step Sample.env init (SendMessage "hi" None "u1" "a1" 0%Z) in
  let sdk := fun _ : list GoogleGenAIProvider.Content =>
               inr {| items := [Some "Hel"; None; Some ""; Some "lo"];
                      ending := None |} : Js.Result (Stream (option string)) in
  exists before sent,
    messages h1 = before ++ [loadingMessage "a1" 0%Z]
    /\ lookupTurn (streams init) (pending h1)
       = Some {| assistantMessageId := "a1"; accumulatedContent := "";
                 llmMessages := sent |}
    /\ let s := GoogleGenAIProvider.generateStreamingResponse "P" sdk sent in
       let final := run Sample.env h1 (streamEvents (streams init) s) in
       isLoading final = false
       /\ (ending s = None ->
           let reply := if match items s with [] => true | _ => false end
                        then "No response generated."
                        else concatFragments (items s) in
           messages final
           = map (mergeInto "a1" reply) before ++ [assistantReply "a1" reply 0%Z]
           /\ reply <> "")
       /\ (forall err, ending s = Some err ->
             messages final
             = filter (fun msg => negb (String.eqb (Chat.id msg) "a1")) before
             /\ error final = Some (errorMessage err)).
Proof.
  intros h1 sdk.
  apply (X22_google_stream_through_hook Sample.env
           (SendMessage "hi" None "u1" "a1" 0%Z) "a1" 0%Z init h1 "P" sdk).
  - left. now exists "hi", None, "u1".
  - now exists [].
  - reflexivity.
Defined.

End GoogleInTheHook.

(* ===================================================================== *)
(** ** The input box: attachments, submitting                             *)
(* ===================================================================== *)

Section ChatInputFacts.

Import ChatInput.

Lemma accepted_valid (file : File) :
  accepted file = true ->
  Js.startsWith "image/" (file_type file) = true
  /\ (file_size file <= 5242880)%Z.
Proof.
  unfold accepted, checkFile.
  destruct (Js.startsWith "image/" (file_type file)); cbn [negb]; [|discriminate].
  change (5 * 1024 * 1024)%Z with 5242880%Z.
  destruct (Z.gtb_spec (file_size file) 5242880); [discriminate|].
  intros _. split; [reflexivity|lia].
Qed.

Lemma Forall_removeNth {A : Type} (P : A -> Prop) (n : nat) (xs : list A) :
  Forall P xs -> Forall P (removeNth n xs).
Proof.
  intros H. revert n.
  induction H as [|x xs Hx Hxs IH]; intros [|n]; simpl; auto.
Qed.

Lemma inputInvariant_step (st : State) (e : Event) :
  inputInvariant st -> inputInvariant (step st e).
Proof.
  intros [Hi Hr]. destruct e as [value|files|n payload id|imageId|disabled|key shift disabled];
    simpl.
  - now split.
  - destruct files as [fs|]; simpl; [|now split]. split; [exact Hi|].
    apply Forall_app. split; [exact Hr|].
    apply Forall_forall. intros f Hf. apply filter_In in Hf. tauto.
  - unfold onload. destruct (nth_error (reading st) n) as [file|] eqn:E;
      [|now split].
    simpl. split.
    + apply Forall_app. split; [exact Hi|]. constructor; [|constructor].
      apply nth_error_In in E. rewrite Forall_forall in Hr.
      exact (accepted_valid file (Hr file E)).
    + now apply Forall_removeNth.
  - split; [|exact Hr]. simpl. apply Forall_forall. intros x Hx.
    apply filter_In in Hx. rewrite Forall_forall in Hi. now apply Hi.
  - unfold handleSubmit. destruct (_ || disabled); simpl; [now split|].
    split; [constructor|exact Hr].
  - unfold handleKeyDown, handleSubmit.
    destruct (String.eqb key "Enter" && negb shift); simpl; [|now split].
    destruct (_ || disabled); simpl; [now split|].
    split; [constructor|exact Hr].
Qed.

Lemma inputInvariant_run (events : list Event) (st : State) :
  inputInvariant st -> inputInvariant (run st events).
Proof.
  revert st. induction events as [|e events IH]; intros st H; [exact H|].
  apply IH. now apply inputInvariant_step.
Qed.

(** X23. Whatever is typed, uploaded, loaded, removed or submitted, in
    whatever order the readers finish, every attachment of the input box
    has a type that starts with [image/] and a size of at most 5 MiB, and
    so has every attachment a submit hands to [onSendMessage]. *)
Theorem X23_attachments_are_checked_images (events : list Event) :
  let st := run initial events in
  Forall validImage (images st)
  /\ (forall disabled text imgs st',
        handleSubmit disabled st = (Some (text, Some imgs), st') ->
        Forall validImage imgs).
Proof.
  intros st.
  assert (H : inputInvariant st).
  { apply inputInvariant_run. split; constructor. }
  destruct H as [Hi _]. split; [exact Hi|].
  intros disabled text imgs st'. unfold handleSubmit.
  destruct (_ || disabled); [discriminate|].
  destruct (0 <? length (images st)); [|discriminate].
  now intros [= _ <- _].
Qed.

Lemma X23_attachments_are_checked_images_witness :
  let big := {| file_name := "big.png"; file_type := "image/png";
                file_size := 6000000 |} in
  let doc := {| file_name := "a.pdf"; file_type := "application/pdf";
                file_size := 10 |} in
  let ok := {| file_name := "ok.png"; file_type := "image/png";
               file_size := 5242880 |} in
  let st := run initial [ImageUpload (Some [big; doc; ok]);
                         ReaderLoad 0 "AAAA" "i1"; ReaderLoad 0 "BBBB" "i2"] in
  length (images st) = 1
  /\ forall imgs st', handleSubmit false st = (Some ("", Some imgs), st') ->
                      Forall validImage imgs.
Proof.
  intros big doc ok st. split; [reflexivity|].
  intros imgs st'.
  apply (X23_attachments_are_checked_images
           [ImageUpload (Some [big; doc; ok]);
            ReaderLoad 0 "AAAA" "i1"; ReaderLoad 0 "BBBB" "i2"]).
Defined.

Lemma trimEnd_head (c : ascii) (s : string) :
  Js.trimEnd (String c s) = ""
  \/ exists t, Js.trimEnd (String c s) = String c t.
Proof.
  simpl. destruct (Js.trimEnd s); [|right; eauto].
  destruct (Js.is_whitespace c); [now left|right; eauto].
Qed.

Lemma trimEnd_idem (s : string) : Js.trimEnd (Js.trimEnd s) = Js.trimEnd s.
Proof.
  induction s as [|c s IH]; [reflexivity|].
  simpl. destruct (Js.trimEnd s) as [|d t] eqn:E.
  - destruct (Js.is_whitespace c) eqn:Ec; [reflexivity|].
    simpl. now rewrite Ec.
  - change (Js.trimEnd (String c (String d t)))
      with (match Js.trimEnd (String d t) with
            | "" => if Js.is_whitespace c then "" else String c ""
            | t' => String c t'
            end).
    now rewrite IH.
Qed.

Lemma trimStart_head (s : string) :
  match Js.trimStart s with
  | "" => True
  | String c _ => Js.is_whitespace c = false
  end.
Proof.
  induction s as [|c s IH]; simpl; [exact I|].
  destruct (Js.is_whitespace c) eqn:E; [exact IH|exact E].
Qed.

(** [trim] is idempotent. *)
Lemma trim_idem (s : string) : Js.trim (Js.trim s) = Js.trim s.
Proof.
  unfold Js.trim. pose proof (trimStart_head s) as H.
  destruct (Js.trimStart s) as [|c t]; [reflexivity|].
  destruct (trimEnd_head c t) as [-> | [t' E]]; [reflexivity|].
  rewrite E. cbn [Js.trimStart]. rewrite H, <- E. apply trimEnd_idem.
Qed.

Lemma truthy_length (s : string) : Js.truthy s = (0 <? String.length s).
Proof. now destruct s. Qed.

(** X24. The send button and the submit agree, and the hook accepts
    what the input box submits: [handleSubmit] calls [onSendMessage]
    exactly when [canSend] holds; it passes the trimmed text and the
    images, or [undefined] when there is none, and empties the box; with
    [disabled] bound to the hook's loading flag, [sendMessage] does not
    reject the call and the user message it appends carries exactly the
    trimmed text.  When [canSend] does not hold the box is left as it
    is. *)
Theorem X24_submit_agrees_with_canSend_and_hook
    (st : State) (disabled : bool) :
  (canSend disabled st = true ->
   handleSubmit disabled st
   = (Some (Js.trim (message st),
            match images st with [] => None | _ => Some (images st) end),
      {| message := ""; images := []; reading := reading st |})
   /\ (forall (h : useChat.Hook) uid now,
         useChat.isLoading h = disabled ->
         useChat.sendGuard (Js.trim (message st))
           (match images st with [] => None | _ => Some (images st) end) h
         = false
         /\ Chat.content
              (useChat.userMessage (Js.trim (message st))
                 (match images st with [] => None | _ => Some (images st) end)
                 uid now)
            = Js.trim (message st)))
  /\ (canSend disabled st = false -> handleSubmit disabled st = (None, st)).
Proof.
  unfold canSend, handleSubmit. rewrite <- truthy_length.
  destruct disabled; simpl.
  - rewrite andb_false_r, orb_true_r. split; [discriminate|reflexivity].
  - rewrite andb_true_r, orb_false_r. split.
    + intros Hc. split.
      * destruct (Js.truthy (Js.trim (message st))); simpl in *.
        -- now destruct (images st).
        -- destruct (images st); [discriminate|reflexivity].
      * intros h uid now Hl. split; [|apply trim_idem].
        unfold useChat.sendGuard. rewrite Hl, orb_false_r, trim_idem.
        destruct (Js.truthy (Js.trim (message st))); simpl in *; [reflexivity|].
        now destruct (images st).
    + intros Hc. apply orb_false_iff in Hc. destruct Hc as [-> Hi]. simpl.
      destruct (images st); [reflexivity|discriminate].
Qed.

Lemma X24_submit_agrees_with_canSend_and_hook_witness :
  let st := {| message := "  hello "; images := []; reading := [] |} in
  handleSubmit false st
  = (Some ("hello", None), {| message := ""; images := []; reading := [] |})
  /\ (forall (h : useChat.Hook) uid now,
         useChat.isLoading h = false ->
         useChat.sendGuard "hello" None h = false
         /\ Chat.content (useChat.userMessage "hello" None uid now) = "hello").
Proof.
  intros st.
  apply (X24_submit_agrees_with_canSend_and_hook st false). reflexivity.
Defined.

End ChatInputFacts.

Section DataUrlFacts.

Import ChatInput.

Lemma splitOn_nonempty (sep : ascii) (s : string) : splitOn sep s <> [].
Proof.
  induction s as [|c s IH]; simpl; [discriminate|].
  destruct (Ascii.eqb c sep); [discriminate|].
  destruct (splitOn sep s); discriminate.
Qed.


Lemma splitOn_first (sep : ascii) (a b : string) :
  hasChar sep a = false ->
  splitOn sep (a ++ String sep b) = a :: splitOn sep b.
Proof.
  induction a as [|c a IH]; simpl.
  - intros _. now rewrite Ascii.eqb_refl.
  - intros H. apply orb_false_iff in H. destruct H as [Hc Ha].
    rewrite Hc, (IH Ha). reflexivity.
Qed.

Lemma hasChar_app (c : ascii) (a b : string) :
  hasChar c (a ++ b) = hasChar c a || hasChar c b.
Proof.
  induction a as [|d a IH]; simpl; [reflexivity|].
  now rewrite IH, orb_assoc.
Qed.

Lemma splitOn_two_parts (sep : ascii) (a b : string) :
  2 <= length (splitOn sep (a ++ String sep b)).
Proof.
  induction a as [|c a IH].
  - simpl. rewrite Ascii.eqb_refl.
    pose proof (splitOn_nonempty sep b).
    destruct (splitOn sep b); [contradiction|simpl; lia].
  - change (String c a ++ String sep b)%string
      with (String c (a ++ String sep b)).
    cbn [splitOn].
    set (parts := splitOn sep (a ++ String sep b)) in *.
    destruct (Ascii.eqb c sep); [simpl; lia|].
    destruct parts as [|l ls]; simpl in *; lia.
Qed.

Lemma dataURL_shape (type payload : string) :
  dataURL type payload
  = (("data:" ++ type ++ ";base64") ++ String "," payload)%string.
Proof.
  unfold dataURL. rewrite !append_assoc. reflexivity.
Qed.

(** The result of [readAsDataURL] always has a second part. *)
Lemma dataURL_second_part (type payload : string) :
  2 <= length (splitOn "," (dataURL type payload)).
Proof. rewrite dataURL_shape. apply splitOn_two_parts. Qed.




End DataUrlFacts.

(* ===================================================================== *)
(** ** The system prompt                                                  *)
(* ===================================================================== *)

Section SystemPromptFacts.

Import SystemPrompt.

Lemma loads_app (st : State) (first rest : list Event) :
  run st (first ++ rest)
  = (fst (run (fst (run st first)) rest),
     snd (run st first) ++ snd (run (fst (run st first)) rest)).
Proof.
  revert st. induction first as [|e first IH]; intros st.
  - simpl. now destruct (run st rest).
  - cbn [app run]. destruct (step st e) as [st' out].
    rewrite IH. destruct (run st' first) as [st1 outs1]. cbn [fst snd].
    destruct (run st1 rest) as [st2 outs2]. cbn [fst snd].
    now destruct out.
Qed.

(** Calls made while the variable is unset are all suspended: none
    returns, each waits for its own fetch. *)
Lemma loads_unset (n : nat) :
  forall st,
    systemPrompt st = None ->
    run st (repeat Call n)
    = ({| systemPrompt := None; waiting := waiting st ++ seq (calls st) n;
          calls := calls st + n |}, []).
Proof.
  induction n as [|n IH]; intros [sp ws k] Hsp; simpl in Hsp; subst sp.
  - simpl. now rewrite app_nil_r, Nat.add_0_r.
  - cbn [repeat run step systemPrompt waiting calls].
    rewrite IH by reflexivity. cbn [systemPrompt waiting calls seq].
    now rewrite <- app_assoc, Nat.add_succ_r.
Qed.

(** With the variable set and no call waiting, nothing changes it any
    more, and every call returns it at once. *)
Lemma loads_settled (prompt : string) (events : list Event) :
  forall st,
    systemPrompt st = Some prompt ->
    waiting st = [] ->
    systemPrompt (fst (run st events)) = Some prompt
    /\ waiting (fst (run st events)) = []
    /\ snd (run st events) = repeat prompt (length (filter isCall events)).
Proof.
  induction events as [|e events IH]; intros [sp ws k] Hsp Hws;
    simpl in Hsp, Hws; subst sp ws.
  - now repeat split.
  - destruct e as [|call fetched]; cbn [run step systemPrompt waiting calls existsb].
    + destruct (IH {| systemPrompt := Some prompt; waiting := []; calls := S k |}
                  eq_refl eq_refl) as (H1 & H2 & H3).
      destruct (run _ events) as [final outs]. cbn [fst snd] in *.
      repeat split; auto. simpl. now rewrite H3.
    + destruct (IH {| systemPrompt := Some prompt; waiting := []; calls := k |}
                  eq_refl eq_refl) as (H1 & H2 & H3).
      destruct (run _ events) as [final outs]. cbn [fst snd] in *.
      repeat split; auto.
Qed.

Lemma filter_twice {A : Type} (f g : A -> bool) (xs : list A) :
  filter f (filter g xs) = filter (fun x => g x && f x) xs.
Proof.
  induction xs as [|x xs IH]; simpl; [reflexivity|].
  destruct (g x); simpl; [destruct (f x)|]; now rewrite IH.
Qed.

Lemma existsb_eqb_In (call : nat) (ws : list nat) :
  In call ws -> existsb (Nat.eqb call) ws = true.
Proof.
  intros H. apply existsb_exists. exists call. split; [exact H|apply Nat.eqb_refl].
Qed.

(** The waiting calls settle one after the other: each returns the
    outcome of its own fetch, and the variable holds the outcome of the
    one that settled last. *)
Lemma loads_settleAll (order : list (nat * Fetch)) :
  forall st,
    order <> [] ->
    NoDup (map fst order) ->
    (forall call, In call (map fst order) -> In call (waiting st)) ->
    systemPrompt (fst (run st (settleAll order)))
    = Some (loaded (snd (last order (0, NotOk))))
    /\ waiting (fst (run st (settleAll order)))
       = filter (fun c => negb (existsb (Nat.eqb c) (map fst order))) (waiting st)
    /\ snd (run st (settleAll order)) = map (fun cf => loaded (snd cf)) order.
Proof.
  induction order as [|[call fetched] order IH]; intros st Hne Hnd Hin;
    [now elim Hne|].
  cbn [settleAll map run step fst snd].
  rewrite (existsb_eqb_In call (waiting st)) by (apply Hin; now left).
  set (st' := {| systemPrompt := Some (loaded fetched);
                 waiting := filter (fun c => negb (c =? call)) (waiting st);
                 calls := calls st |}).
  destruct order as [|next order].
  - cbn [map run fst snd last existsb]. repeat split.
    apply filter_ext. intros c. now rewrite orb_false_r.
  - inversion Hnd as [|x xs Hnot Hnd' Heq]; subst.
    destruct (IH st') as (H1 & H2 & H3); [discriminate|exact Hnd'| |].
    + intros c Hc. unfold st'. cbn [waiting]. apply filter_In. split.
      * apply Hin. now right.
      * apply negb_true_iff, Nat.eqb_neq. intros ->. now apply Hnot.
    + fold (settleAll (next :: order)).
      destruct (run st' (settleAll (next :: order))) as [final outs].
      cbn [fst snd] in *. repeat split.
      * exact H1.
      * rewrite H2. unfold st'. cbn [waiting]. rewrite filter_twice.
        apply filter_ext. intros c. cbn [map fst existsb].
        now rewrite !negb_orb.
      * now rewrite H3.
Qed.

(** X26. [loadSystemPrompt] when calls overlap.  Calls made before any
    of them has settled all find the variable unset, so each fetches;
    whatever the order in which they settle, each returns the outcome of
    its own fetch (the text, or the fallback when the fetch failed or
    was not ok), and the variable is left with the outcome of the call
    that settled last.  From then on every call returns that text at
    once and nothing changes it. *)
Theorem X26_overlapping_loads_last_settled_wins
    (n : nat) (order : list (nat * Fetch)) (later : list Event) :
  0 < n ->
  NoDup (map fst order) ->
  (forall call, In call (map fst order) <-> call < n) ->
  let result := run initial (repeat Call n ++ settleAll order ++ later) in
  let final := loaded (snd (last order (0, NotOk))) in
  snd result
  = map (fun cf => loaded (snd cf)) order
    ++ repeat final (length (filter isCall later))
  /\ systemPrompt (fst result) = Some final
  /\ waiting (fst result) = [].
Proof.
  intros Hn Hnd Hall result final. subst result.
  rewrite loads_app, (loads_unset n initial eq_refl). cbn [fst snd app].
  set (st := {| systemPrompt := None; waiting := waiting initial ++ seq (calls initial) n;
                calls := calls initial + n |}).
  assert (Hne : order <> []).
  { intros ->. destruct (Hall 0) as [_ H]. now apply H in Hn. }
  destruct (loads_settleAll order st Hne Hnd) as (H1 & H2 & H3).
  { intros call Hc. unfold st. cbn [waiting initial calls app].
    apply in_seq. apply Hall in Hc. lia. }
  assert (Hw : waiting (fst (run st (settleAll order))) = []).
  { rewrite H2. unfold st. cbn [waiting initial calls app].
    rewrite (filter_ext_in _ (fun _ => false)); [apply filter_false|].
    intros c Hc. apply in_seq in Hc.
    apply negb_false_iff, existsb_exists. exists c. split.
    - apply Hall. lia.
    - apply Nat.eqb_refl. }
  rewrite loads_app, H3. cbn [fst snd].
  destruct (loads_settled final later (fst (run st (settleAll order))) H1 Hw)
    as (S1 & S2 & S3).
  now rewrite S1, S2, S3.
Qed.

Lemma X26_overlapping_loads_last_settled_wins_witness :
  snd (run initial [Call; Call; Settle 0 (Ok "P1"); Settle 1 (Ok "P2"); Call])
  = ["P1"; "P2"; "P2"]
  /\ systemPrompt
       (fst (run initial [Call; Call; Settle 0 (Ok "P1"); Settle 1 (Ok "P2"); Call]))
     = Some "P2"
  /\ waiting
       (fst (run initial [Call; Call; Settle 0 (Ok "P1"); Settle 1 (Ok "P2"); Call]))
     = [].
Proof.
  apply (X26_overlapping_loads_last_settled_wins
           2 [(0, Ok "P1"); (1, Ok "P2")] [Call]).
  - lia.
  - repeat constructor; simpl; intuition discriminate.
  - intros call. simpl. split; [intros [<-|[<-|[]]]; lia|lia].
Defined.

End SystemPromptFacts.

(* ===================================================================== *)
(** ** A well-formed OpenAI stream is read back                           *)
(* ===================================================================== *)

Section OpenAIRoundTrip.

Import OpenAIProvider.

Variable JSON_parse : string -> option JSON.

Lemma split_lines_splitOn (s : string) :
  Js.split_lines s = ChatInput.splitOn Js.LF s.
Proof.
  induction s as [|c s IH]; simpl; [reflexivity|]. now rewrite IH.
Qed.

Lemma split_lines_first (a b : string) :
  ChatInput.hasChar Js.LF a = false ->
  Js.split_lines (a ++ String Js.LF b) = a :: Js.split_lines b.
Proof.
  intros H. rewrite !split_lines_splitOn. now apply splitOn_first.
Qed.

Lemma sseLine_split (payload rest : string) :
  ChatInput.hasChar Js.LF payload = false ->
  Js.split_lines (sseLine payload ++ rest)
  = ("data: " ++ payload)%string :: Js.split_lines rest.
Proof.
  intros H. unfold sseLine.
  rewrite !append_assoc. 
  change (String Js.LF "" ++ rest)%string with (String Js.LF rest).
  rewrite <- append_assoc. apply split_lines_first.
  rewrite hasChar_app, H. reflexivity.
Qed.

Lemma sseText_split (payloads : list string) (contents : list JSON) (rest : string) :
  Forall2 (carries JSON_parse) payloads contents ->
  Js.split_lines (sseText payloads ++ rest)
  = map (String.append "data: ") payloads ++ Js.split_lines rest
  /\ forall lines,
       processLines JSON_parse (map (String.append "data: ") payloads ++ lines)
       = (contents ++ fst (processLines JSON_parse lines),
          snd (processLines JSON_parse lines)).
Proof.
  induction 1 as [|p c ps cs Hpc _ IH].
  - split; [reflexivity|]. intros lines. simpl.
    now destruct (processLines JSON_parse lines).
  - destruct IH as [IH1 IH2].
    destruct Hpc as (Hlf & Hne & parsed & Hparse & Hdelta & Htruthy).
    split.
    + change (sseText (p :: ps)) with (sseLine p ++ sseText ps)%string.
      rewrite append_assoc, (sseLine_split _ _ Hlf), IH1. reflexivity.
    + intros lines.
      change (processLines JSON_parse
                (map (String.append "data: ") (p :: ps) ++ lines))
        with (match processLine JSON_parse ("data: " ++ p) with
              | Return => ([], true)
              | Ignore => processLines JSON_parse
                            (map (String.append "data: ") ps ++ lines)
              | Yield c0 =>
                  let (out, returned) :=
                    processLines JSON_parse
                      (map (String.append "data: ") ps ++ lines) in
                  (c0 :: out, returned)
              end).
      rewrite (processLine_data JSON_parse p), Hparse, Hdelta, Htruthy.
      destruct (String.eqb_spec p "[DONE]"); [contradiction|].
      now rewrite IH2.
Qed.

(** X27. Reading back a well-formed stream.  When the text received is
    a sequence of [data: ] lines whose payloads parse to chunks with
    non-empty contents, then the line [data: [DONE]], then anything, the
    OpenAI stream yields exactly those contents, in order, and completes
    normally, however the text was cut into reads and whatever the reader
    does after the sentinel. *)
Theorem X27_openai_reads_back_well_formed_stream
    (payloads : list string) (contents : list JSON)
    (reads : list string) (more : option Js.Thrown) (rest : string) :
  Forall2 (carries JSON_parse) payloads contents ->
  received reads = (sseText payloads ++ sseLine "[DONE]" ++ rest)%string ->
  readLoop JSON_parse "" reads more = {| items := contents; ending := None |}.
Proof.
  intros Hall Htext.
  pose proof (readLoop_items JSON_parse reads more "" eq_refl) as Hi.
  pose proof (readLoop_ends JSON_parse reads more "" eq_refl) as He.
  cbn [String.append] in Hi, He. unfold yieldsOfText in Hi.
  rewrite Htext in Hi, He.
  destruct (sseText_split payloads contents (sseLine "[DONE]" ++ rest) Hall)
    as [Hsplit Hproc].
  rewrite Hsplit in Hi, He.
  rewrite (sseLine_split "[DONE]" rest eq_refl) in Hi, He.
  change ("data: " ++ "[DONE]")%string with "data: [DONE]" in Hi, He.
  rewrite removelast_app_nonempty in Hi, He by discriminate.
  pose proof (split_lines_nonempty rest) as Hne.
  destruct (Js.split_lines rest) as [|l ls]; [contradiction|].
  rewrite removelast_cons2 in Hi, He.
  rewrite Hproc in Hi, He. cbn [processLines] in Hi, He.
  rewrite (processLine_done JSON_parse) in Hi, He.
  cbn [fst snd] in Hi, He. rewrite app_nil_r in Hi.
  destruct (readLoop JSON_parse "" reads more) as [i e]. simpl in *. congruence.
Qed.

End OpenAIRoundTrip.

Lemma X27_openai_reads_back_well_formed_stream_witness :
  OpenAIProvider.readLoop Sample.parse ""
    [ "data: {A}"; Sample.line "" ++ "data: {B"; "}"; Sample.line "" ++ "da";
      Sample.line "ta: [DONE]" ++ "data: {A}" ]%string
    (Some (Js.newError "reset"))
  = {| items := [JString "A"; JString "B"]; ending := None |}.
Proof.
  apply (X27_openai_reads_back_well_formed_stream Sample.parse
           ["{A}"; "{B}"] [JString "A"; JString "B"] _ _ "data: {A}").
  - repeat constructor; try discriminate; eexists; repeat split; reflexivity.
  - reflexivity.
Defined.

(* ===================================================================== *)
(** ** The hook: a whole turn with fresh ids                              *)
(* ===================================================================== *)

Section WholeTurn.

Import useChat.

Lemma filter_keeps_fresh (aid : string) (ms : list Chat.Message) :
  Forall (fun m => Chat.id m <> aid) ms ->
  filter (fun msg => negb (String.eqb (Chat.id msg) aid)) ms = ms.
Proof.
  induction 1 as [|m ms Hm _ IH]; simpl; [reflexivity|].
  destruct (String.eqb_spec (Chat.id m) aid); [contradiction|]. simpl.
  now rewrite IH.
Qed.

(** X28. A whole [sendMessage] turn when the generated ids are fresh
    (the id of the placeholder is not the id of an earlier message nor of
    the new user message).  If the stream completes, the list is the old
    list, the user message and the reply, whose text is the concatenation
    of the fragments or the fallback text; if it throws an error that is
    not an abort error, the list is the old list and the user message,
    and [error] is the message of the error.  No earlier message is
    changed, and the hook stops loading. *)
Theorem X28_send_turn_with_fresh_ids
    (env : Env) (llm : LLMProvider) (h : Hook) (content : string)
    (images : option (list Chat.ImageAttachment)) (uid aid : string) (now : Z)
    (chunks : list string) :
  LLMServiceFactory.createFromEnvironment env = inr llm ->
  reachable env h ->
  sendGuard content images h = false ->
  Forall (fun m => Chat.id m <> aid) (messages h) ->
  uid <> aid ->
  let h1 := step env h (SendMessage content images uid aid now) in
  let user := userMessage content images uid now in
  (let final := run env h1 (streamEvents (streams h)
                              {| items := chunks; ending := None |}) in
   messages final
   = messages h ++ [user; assistantReply aid (finalContent chunks) now]
   /\ isLoading final = false
   /\ error final = None)
  /\ (forall name message, name <> "AbortError" ->
        let final := run env h1 (streamEvents (streams h)
                                   {| items := chunks;
                                      ending := Some (Js.ErrorObject name message) |}) in
        messages final = messages h ++ [user]
        /\ isLoading final = false
        /\ error final = Some message).
Proof.
  intros Henv Hreach Hg Hfresh Hne h1 user.
  assert (Hperf : perform env h (SendMessage content images uid aid now)
                  = (h1, Suspended)).
  { subst h1. unfold step. cbn [perform]. unfold sendMessage, sendMessageOf. rewrite Hg.
    destruct (bodyStart_configured env llm aid (messages h ++ [user])
                (sendMessageBegin content images uid aid now h) Henv) as [h' Hb].
    unfold tryCatchFinally. fold user. now rewrite Hb. }
  destruct (turn_started env _ aid now h h1
              (or_introl (ex_intro _ content (ex_intro _ images (ex_intro _ uid eq_refl))))
              (reachable_keysFresh env h Hreach) Hperf)
    as (before & hist & Hm & Hturn & Hab & _ & Herr & _ & Hcase).
  destruct Hcase as [(c & i & u & Heq & _ & -> & _) | (u' & Heq & _)];
    [|discriminate].
  injection Heq as <- <- <-. fold user in Hm.
  assert (Hall : Forall (fun m => Chat.id m <> aid) (messages h ++ [user])).
  { apply Forall_app. split; [exact Hfresh|]. now repeat constructor. }
  split.
  - destruct (turn_completes env (streams h) aid now _ _ chunks h1 Hm Hturn Hab)
      as (Hfinal & Hl & He).
    cbv zeta. rewrite Hfinal, Hl, He, Herr, (map_mergeInto_fresh _ _ _ Hall).
    rewrite <- app_assoc. now repeat split.
  - intros name message Hname.
    assert (Hab' : isAbortError (Js.ErrorObject name message) = false).
    { simpl. now apply String.eqb_neq. }
    destruct (turn_fails env (streams h) aid now _ _ chunks _ h1
                Hm Hturn Hab Hab') as (Hfinal & Hl & He).
    cbv zeta. rewrite Hfinal, Hl, He, (filter_keeps_fresh _ _ Hall).
    now repeat split.
Qed.

Lemma X28_send_turn_with_fresh_ids_witness :
  let h := run Sample.env init
             [SendMessage "hi" None "u1" "a1" 0%Z; StreamYield 0 "yo"; StreamDone 0] in
  let h1 := step Sample.env h (SendMessage "more" None "u2" "a2" 1%Z) in
  let user := userMessage "more" None "u2" 1%Z in
  (let final := run Sample.env h1 (streamEvents (streams h)
                                     {| items := ["o"; "k"]; ending := None |}) in
   messages final
   = messages h ++ [user; assistantReply "a2" (finalContent ["o"; "k"]) 1%Z]
   /\ isLoading final = false
   /\ error final = None)
  /\ (forall name message, name <> "AbortError" ->
        let final := run Sample.env h1 (streamEvents (streams h)
                                          {| items := ["o"; "k"];
                                             ending := Some (Js.ErrorObject name message) |}) in
        messages final = messages h ++ [user]
        /\ isLoading final = false
        /\ error final = Some message).
Proof.
  intros h.
  apply (X28_send_turn_with_fresh_ids Sample.env
           (GoogleGenAI
              {| GoogleGenAIProvider.client :=
                   {| GoogleGenAIProvider.client_apiKey := "key" |};
                 GoogleGenAIProvider.model := "gemini-2.5-flash" |})
           h "more" None "u2" "a2" 1%Z ["o"; "k"]).
  - reflexivity.
  - now eexists.
  - reflexivity.
  - repeat constructor; discriminate.
  - discriminate.
Defined.

End WholeTurn.
